(** * SurfaceTexture: the consumer side of the buffer queue

    A shallow embedding of [libs/gui/SurfaceTexture.cpp]: the matrix kernel,
    the slot table, the transform composer and the consumer state machine
    ([updateTexImage], [abandon], [onBuffersReleased] and the accessors),
    followed by the properties the specification states about them. *)

From Stdlib Require Import ZArith QArith List Bool Lia String.
From Stdlib Require Import Floats.SpecFloat.
Import ListNotations.
Open Scope Z_scope.

(** ** Machine integers *)

Module Int.

(** [uint32_t]: arithmetic modulo [2^32]. *)
Definition uint32 (z : Z) : Z := z mod 2 ^ 32.

(** [int32_t]: the two's complement reading of the low 32 bits.  Signed
    overflow is undefined in C++; the target wraps. *)
Definition int32 (z : Z) : Z := (z + 2 ^ 31) mod 2 ^ 32 - 2 ^ 31.

End Int.

(** ** Single precision floating point

    The C++ type [float] is IEEE 754 binary32: 24 bits of precision and a
    maximal exponent of 128, rounded to nearest even.  The operations are the
    ones of the standard library's executable specification of IEEE
    arithmetic, with signed zeros, infinities and NaN. *)

Module F32.

Definition prec : Z := 24.
Definition emax : Z := 128.

Definition float : Type := spec_float.

(** Conversion of an integer, [float(n)]. *)
Definition of_int (n : Z) : float := binary_normalize prec emax n 0 false.

Definition add : float -> float -> float := SFadd prec emax.
Definition mul : float -> float -> float := SFmul prec emax.
Definition div : float -> float -> float := SFdiv prec emax.

(** The C++ comparison [x == y]: the two zeros are equal, NaN is equal to
    nothing. *)
Definition eqb : float -> float -> bool := SFeqb.

Definition zero : float := of_int 0.
Definition one : float := of_int 1.

End F32.

Declare Scope f32_scope.
Delimit Scope f32_scope with f32.
Infix "+" := F32.add : f32_scope.
Infix "*" := F32.mul : f32_scope.
Infix "/" := F32.div : f32_scope.

(** ** Matrix kernel *)

Module Mtx.

Import F32.

(** [float m[16]], column-major. *)
Definition mtx : Type := list float.

(** [m[i]] *)
Definition entry (m : mtx) (i : nat) : float := nth i m zero.

Notation "m .[ i ]" := (entry m i) (at level 1, format "m .[ i ]").

(** An array initialiser holding integer literals. *)
Definition literal (l : list Z) : mtx := map of_int l.

Definition mtxIdentity : mtx := literal
  [ 1; 0; 0; 0;
    0; 1; 0; 0;
    0; 0; 1; 0;
    0; 0; 0; 1 ].

Definition mtxFlipH : mtx := literal
  [ -1; 0; 0; 0;
    0; 1; 0; 0;
    0; 0; 1; 0;
    1; 0; 0; 1 ].

Definition mtxFlipV : mtx := literal
  [ 1; 0; 0; 0;
    0; -1; 0; 0;
    0; 0; 1; 0;
    0; 1; 0; 1 ].

Definition mtxRot90 : mtx := literal
  [ 0; 1; 0; 0;
    -1; 0; 0; 0;
    0; 0; 1; 0;
    1; 0; 0; 1 ].



Local Open Scope f32_scope.

(** [mtxMul(out, a, b)]; the result is the value left in [out].  The sums
    associate to the left, as the C++ expressions do. *)
Definition mtxMul (a b : mtx) : mtx :=
  [ a.[0]*b.[0] + a.[4]*b.[1] + a.[8]*b.[2] + a.[12]*b.[3];
    a.[1]*b.[0] + a.[5]*b.[1] + a.[9]*b.[2] + a.[13]*b.[3];
    a.[2]*b.[0] + a.[6]*b.[1] + a.[10]*b.[2] + a.[14]*b.[3];
    a.[3]*b.[0] + a.[7]*b.[1] + a.[11]*b.[2] + a.[15]*b.[3];

    a.[0]*b.[4] + a.[4]*b.[5] + a.[8]*b.[6] + a.[12]*b.[7];
    a.[1]*b.[4] + a.[5]*b.[5] + a.[9]*b.[6] + a.[13]*b.[7];
    a.[2]*b.[4] + a.[6]*b.[5] + a.[10]*b.[6] + a.[14]*b.[7];
    a.[3]*b.[4] + a.[7]*b.[5] + a.[11]*b.[6] + a.[15]*b.[7];

    a.[0]*b.[8] + a.[4]*b.[9] + a.[8]*b.[10] + a.[12]*b.[11];
    a.[1]*b.[8] + a.[5]*b.[9] + a.[9]*b.[10] + a.[13]*b.[11];
    a.[2]*b.[8] + a.[6]*b.[9] + a.[10]*b.[10] + a.[14]*b.[11];
    a.[3]*b.[8] + a.[7]*b.[9] + a.[11]*b.[10] + a.[15]*b.[11];

    a.[0]*b.[12] + a.[4]*b.[13] + a.[8]*b.[14] + a.[12]*b.[15];
    a.[1]*b.[12] + a.[5]*b.[13] + a.[9]*b.[14] + a.[13]*b.[15];
    a.[2]*b.[12] + a.[6]*b.[13] + a.[10]*b.[14] + a.[14]*b.[15];
    a.[3]*b.[12] + a.[7]*b.[13] + a.[11]*b.[14] + a.[15]*b.[15] ].

(** Entry by entry comparison with the C++ [==]. *)
Fixpoint eqb (a b : mtx) : bool :=
  match a, b with
  | [], [] => true
  | x :: a', y :: b' => F32.eqb x y && eqb a' b'
  | _, _ => false
  end.

End Mtx.

(** ** Platform types

    The EGL and GL headers, [utils/Errors.h], [ui/Rect.h],
    [ui/GraphicBuffer.h], [system/window.h] and [gui/BufferQueue.h] are
    outside this file.  Handles are opaque integers. *)

Module Platform.

Definition EGLDisplay : Type := Z.
Definition EGLContext : Type := Z.
Definition EGLImageKHR : Type := Z.
Definition EGLSyncKHR : Type := Z.
Definition GLuint : Type := Z.
Definition GLenum : Type := Z.
Definition GLint : Type := Z.
Definition status_t : Type := Z.
Definition nsecs_t : Type := Z.

(** Modelled from the spec: the "not set" sentinels of the GPU platform
    ([EGL_NO_DISPLAY], [EGL_NO_CONTEXT], [EGL_NO_IMAGE_KHR] standing for
    [NO_IMAGE], [EGL_NO_SYNC_KHR] for [NO_FENCE]) and the "no error" code
    of the drain loop; the null handle in the EGL headers. *)
Definition EGL_NO_DISPLAY : EGLDisplay := 0.
Definition EGL_NO_CONTEXT : EGLContext := 0.
Definition EGL_NO_IMAGE_KHR : EGLImageKHR := 0.
Definition EGL_NO_SYNC_KHR : EGLSyncKHR := 0.
Definition GL_NO_ERROR : GLint := 0.

(** Modelled from the spec: the error kinds of section 7.  [OK] is
    success, [NO_INIT] is the spec's [NOT_INITIALIZED], [-EINVAL] its
    [INVALID_ARGUMENT]; the values are the ones of [utils/Errors.h] and
    [errno.h], where [BAD_VALUE] and [-EINVAL] are the same number. *)
Definition OK : status_t := 0.
Definition NO_ERROR : status_t := 0.
Definition ENODEV : Z := 19.
Definition EINVAL : Z := 22.
Definition NO_INIT : status_t := - ENODEV.
Definition BAD_VALUE : status_t := - EINVAL.

(** Modelled from the spec: the transform flag bits, "bit 0 = FLIP_H;
    bit 1 = FLIP_V; bit 2 = ROT_90" ([system/window.h]). *)
Definition NATIVE_WINDOW_TRANSFORM_FLIP_H : Z := 1.
Definition NATIVE_WINDOW_TRANSFORM_FLIP_V : Z := 2.
Definition NATIVE_WINDOW_TRANSFORM_ROT_90 : Z := 4.

(** A native buffer; [getWidth] and [getHeight] return [uint32_t]. *)
Record GraphicBuffer : Type := mkGraphicBuffer {
  handle : Z;
  getWidth : Z;
  getHeight : Z
}.

(** [sp<GraphicBuffer>]: a possibly null reference. *)
Definition sp_GraphicBuffer : Type := option GraphicBuffer.

Record Rect : Type := mkRect {
  left : Z;
  top : Z;
  right : Z;
  bottom : Z
}.

(** Modelled from the spec: [Rect::width], [Rect::height] and
    [Rect::isEmpty] of [ui/Rect.h]; the spec's [crop_width],
    [crop_height] and "crop is empty" (no positive width or height). *)
Definition width (r : Rect) : Z := Int.int32 (right r - left r).
Definition height (r : Rect) : Z := Int.int32 (bottom r - top r).
Definition isEmpty (r : Rect) : bool := (width r <=? 0) || (height r <=? 0).

End Platform.

Export Platform.

(** ** The buffer queue, as the consumer sees it *)

Module BufferQueue.

(** Modelled from the spec: the size of the slot table, "fixed upper
    bound, typically 32", and the sentinel [INVALID_SLOT], which is no
    index of the table; [gui/BufferQueue.h] has 32 and -1. *)
Definition NUM_BUFFER_SLOTS : Z := 32.
Definition INVALID_BUFFER_SLOT : Z := -1.

(** [BufferQueue::BufferItem], filled in by [acquireBuffer]. *)
Record BufferItem : Type := mkBufferItem {
  mGraphicBuffer : sp_GraphicBuffer;
  mCrop : Rect;
  mTransform : Z;
  mScalingMode : Z;
  mTimestamp : nsecs_t;
  mBuf : Z
}.

(** The queue object an [sp<BufferQueue>] points to. *)
Record BufferQueue : Type := mkBufferQueue { queueId : Z }.

End BufferQueue.

Import BufferQueue.

(** ** Slot table *)

(** [SurfaceTexture::EGLSlot] *)
Record EGLSlot : Type := mkEGLSlot {
  slotGraphicBuffer : sp_GraphicBuffer;   (* mGraphicBuffer *)
  mEglImage : EGLImageKHR;
  mFence : EGLSyncKHR
}.

(** [EGLSlot()] *)
Definition emptySlot : EGLSlot := mkEGLSlot None EGL_NO_IMAGE_KHR EGL_NO_SYNC_KHR.

Inductive SlotField : Type := FGraphicBuffer | FEglImage | FFence.

Definition inBounds (i : Z) : bool := (0 <=? i) && (i <? NUM_BUFFER_SLOTS).

(** [mEGLSlots[i]] as an rvalue.  C++ does not check the index: out of the
    table the read returns whatever memory lies there, [stray]. *)
Definition slotAt (stray : EGLSlot) (slots : list EGLSlot) (i : Z) : EGLSlot :=
  if inBounds i then nth (Z.to_nat i) slots stray else stray.

Fixpoint updateNth (n : nat) (f : EGLSlot -> EGLSlot) (slots : list EGLSlot)
  : list EGLSlot :=
  match slots, n with
  | [], _ => []
  | x :: rest, O => f x :: rest
  | x :: rest, S k => x :: updateNth k f rest
  end.

(** [mEGLSlots[i].field = v].  A store out of the table lands outside the
    modelled state and leaves the table as it is. *)
Definition updateSlot (i : Z) (f : EGLSlot -> EGLSlot) (slots : list EGLSlot)
  : list EGLSlot :=
  if inBounds i then updateNth (Z.to_nat i) f slots else slots.

Definition withGraphicBuffer (b : sp_GraphicBuffer) (e : EGLSlot) : EGLSlot :=
  mkEGLSlot b (mEglImage e) (mFence e).
Definition withEglImage (img : EGLImageKHR) (e : EGLSlot) : EGLSlot :=
  mkEGLSlot (slotGraphicBuffer e) img (mFence e).
Definition withFence (f : EGLSyncKHR) (e : EGLSlot) : EGLSlot :=
  mkEGLSlot (slotGraphicBuffer e) (mEglImage e) f.

(** ** Consumer state *)

Record SurfaceTexture : Type := mkSurfaceTexture {
  mCurrentTextureBuf : sp_GraphicBuffer;
  mCurrentCrop : Rect;
  mCurrentTransform : Z;
  mCurrentScalingMode : Z;
  mCurrentTransformMatrix : Mtx.mtx;
  mCurrentTimestamp : nsecs_t;
  mTexName : GLuint;
  mUseFenceSync : bool;
  mTexTarget : GLenum;
  mEGLSlots : list EGLSlot;
  mEglDisplay : EGLDisplay;
  mEglContext : EGLContext;
  mAbandoned : bool;
  mName : string;
  mCurrentTexture : Z;
  mBufferQueue : option BufferQueue
}.

Section Setters.

Variable s : SurfaceTexture.

Definition set_mCurrentTextureBuf (v : sp_GraphicBuffer) : SurfaceTexture :=
  mkSurfaceTexture v (mCurrentCrop s) (mCurrentTransform s)
    (mCurrentScalingMode s) (mCurrentTransformMatrix s) (mCurrentTimestamp s)
    (mTexName s) (mUseFenceSync s) (mTexTarget s) (mEGLSlots s)
    (mEglDisplay s) (mEglContext s) (mAbandoned s) (mName s)
    (mCurrentTexture s) (mBufferQueue s).

Definition set_mCurrentCrop (v : Rect) : SurfaceTexture :=
  mkSurfaceTexture (mCurrentTextureBuf s) v (mCurrentTransform s)
    (mCurrentScalingMode s) (mCurrentTransformMatrix s) (mCurrentTimestamp s)
    (mTexName s) (mUseFenceSync s) (mTexTarget s) (mEGLSlots s)
    (mEglDisplay s) (mEglContext s) (mAbandoned s) (mName s)
    (mCurrentTexture s) (mBufferQueue s).

Definition set_mCurrentTransform (v : Z) : SurfaceTexture :=
  mkSurfaceTexture (mCurrentTextureBuf s) (mCurrentCrop s) v
    (mCurrentScalingMode s) (mCurrentTransformMatrix s) (mCurrentTimestamp s)
    (mTexName s) (mUseFenceSync s) (mTexTarget s) (mEGLSlots s)
    (mEglDisplay s) (mEglContext s) (mAbandoned s) (mName s)
    (mCurrentTexture s) (mBufferQueue s).

Definition set_mCurrentScalingMode (v : Z) : SurfaceTexture :=
  mkSurfaceTexture (mCurrentTextureBuf s) (mCurrentCrop s)
    (mCurrentTransform s) v (mCurrentTransformMatrix s) (mCurrentTimestamp s)
    (mTexName s) (mUseFenceSync s) (mTexTarget s) (mEGLSlots s)
    (mEglDisplay s) (mEglContext s) (mAbandoned s) (mName s)
    (mCurrentTexture s) (mBufferQueue s).

Definition set_mCurrentTransformMatrix (v : Mtx.mtx) : SurfaceTexture :=
  mkSurfaceTexture (mCurrentTextureBuf s) (mCurrentCrop s)
    (mCurrentTransform s) (mCurrentScalingMode s) v (mCurrentTimestamp s)
    (mTexName s) (mUseFenceSync s) (mTexTarget s) (mEGLSlots s)
    (mEglDisplay s) (mEglContext s) (mAbandoned s) (mName s)
    (mCurrentTexture s) (mBufferQueue s).

Definition set_mCurrentTimestamp (v : nsecs_t) : SurfaceTexture :=
  mkSurfaceTexture (mCurrentTextureBuf s) (mCurrentCrop s)
    (mCurrentTransform s) (mCurrentScalingMode s)
    (mCurrentTransformMatrix s) v
    (mTexName s) (mUseFenceSync s) (mTexTarget s) (mEGLSlots s)
    (mEglDisplay s) (mEglContext s) (mAbandoned s) (mName s)
    (mCurrentTexture s) (mBufferQueue s).

Definition set_mEGLSlots (v : list EGLSlot) : SurfaceTexture :=
  mkSurfaceTexture (mCurrentTextureBuf s) (mCurrentCrop s)
    (mCurrentTransform s) (mCurrentScalingMode s)
    (mCurrentTransformMatrix s) (mCurrentTimestamp s)
    (mTexName s) (mUseFenceSync s) (mTexTarget s) v
    (mEglDisplay s) (mEglContext s) (mAbandoned s) (mName s)
    (mCurrentTexture s) (mBufferQueue s).

Definition set_mEglDisplay (v : EGLDisplay) : SurfaceTexture :=
  mkSurfaceTexture (mCurrentTextureBuf s) (mCurrentCrop s)
    (mCurrentTransform s) (mCurrentScalingMode s)
    (mCurrentTransformMatrix s) (mCurrentTimestamp s)
    (mTexName s) (mUseFenceSync s) (mTexTarget s) (mEGLSlots s)
    v (mEglContext s) (mAbandoned s) (mName s)
    (mCurrentTexture s) (mBufferQueue s).

Definition set_mEglContext (v : EGLContext) : SurfaceTexture :=
  mkSurfaceTexture (mCurrentTextureBuf s) (mCurrentCrop s)
    (mCurrentTransform s) (mCurrentScalingMode s)
    (mCurrentTransformMatrix s) (mCurrentTimestamp s)
    (mTexName s) (mUseFenceSync s) (mTexTarget s) (mEGLSlots s)
    (mEglDisplay s) v (mAbandoned s) (mName s)
    (mCurrentTexture s) (mBufferQueue s).

Definition set_mAbandoned (v : bool) : SurfaceTexture :=
  mkSurfaceTexture (mCurrentTextureBuf s) (mCurrentCrop s)
    (mCurrentTransform s) (mCurrentScalingMode s)
    (mCurrentTransformMatrix s) (mCurrentTimestamp s)
    (mTexName s) (mUseFenceSync s) (mTexTarget s) (mEGLSlots s)
    (mEglDisplay s) (mEglContext s) v (mName s)
    (mCurrentTexture s) (mBufferQueue s).

Definition set_mName (v : string) : SurfaceTexture :=
  mkSurfaceTexture (mCurrentTextureBuf s) (mCurrentCrop s)
    (mCurrentTransform s) (mCurrentScalingMode s)
    (mCurrentTransformMatrix s) (mCurrentTimestamp s)
    (mTexName s) (mUseFenceSync s) (mTexTarget s) (mEGLSlots s)
    (mEglDisplay s) (mEglContext s) (mAbandoned s) v
    (mCurrentTexture s) (mBufferQueue s).

Definition set_mCurrentTexture (v : Z) : SurfaceTexture :=
  mkSurfaceTexture (mCurrentTextureBuf s) (mCurrentCrop s)
    (mCurrentTransform s) (mCurrentScalingMode s)
    (mCurrentTransformMatrix s) (mCurrentTimestamp s)
    (mTexName s) (mUseFenceSync s) (mTexTarget s) (mEGLSlots s)
    (mEglDisplay s) (mEglContext s) (mAbandoned s) (mName s)
    v (mBufferQueue s).

Definition set_mBufferQueue (v : option BufferQueue) : SurfaceTexture :=
  mkSurfaceTexture (mCurrentTextureBuf s) (mCurrentCrop s)
    (mCurrentTransform s) (mCurrentScalingMode s)
    (mCurrentTransformMatrix s) (mCurrentTimestamp s)
    (mTexName s) (mUseFenceSync s) (mTexTarget s) (mEGLSlots s)
    (mEglDisplay s) (mEglContext s) (mAbandoned s) (mName s)
    (mCurrentTexture s) v.

End Setters.

(** ** Effects

    Every call the consumer makes into the buffer queue or the GPU platform,
    and every access to the slot table, is recorded in a trace, in program
    order. *)

Inductive Event : Type :=
| EglDestroyImageKHR (dpy : EGLDisplay) (img : EGLImageKHR)
| EglCreateImageKHR (dpy : EGLDisplay) (buffer : GraphicBuffer)
| EglCreateSyncKHR (dpy : EGLDisplay)
| GlBindTexture (target : GLenum) (tex : GLuint)
| GlEGLImageTargetTexture2DOES (target : GLenum) (img : EGLImageKHR)
| GlFlush
| AcquireBuffer
| ReleaseBuffer (buf : Z) (dpy : EGLDisplay) (fence : EGLSyncKHR)
| GetReleasedBuffers
| ConsumerDisconnect
| SetConsumerName (name : string)
| SetDefaultBufferSize (w h : Z)
| IsSynchronousMode
| SlotRead (idx : Z) (field : SlotField)
| SlotWrite (idx : Z) (field : SlotField).

Definition Trace : Type := list Event.

(** What the collaborators answer during one call: the GPU platform, the
    buffer queue, and the memory next to the slot table. *)
Record Env : Type := mkEnv {
  eglGetCurrentDisplay : EGLDisplay;
  eglGetCurrentContext : EGLContext;
  acquireBuffer : status_t * BufferItem;
  eglCreateImageKHR : EGLImageKHR;
  glErrorsPending : list GLint;       (* what [glGetError] holds before the bind *)
  glErrorsAfterBind : list GLint;     (* what it holds after the bind *)
  eglCreateSyncKHR : EGLSyncKHR;
  getReleasedBuffers : Z;
  setDefaultBufferSizeStatus : status_t;
  isSynchronousModeAnswer : bool;
  stray : EGLSlot
}.

(** The result of a function call: it returns, or the process dies on a
    null [sp<>]. *)
Inductive Result (R : Type) : Type :=
| Returned (r : R) (s : SurfaceTexture) (t : Trace)
| NullDereference (t : Trace).

Arguments Returned {R} r s t.
Arguments NullDereference {R} t.

(** The outcome of a statement inside a function that returns [R]. *)
Inductive Outcome (R A : Type) : Type :=
| Next (a : A) (s : SurfaceTexture) (t : Trace)
| Return (r : R) (s : SurfaceTexture) (t : Trace)
| Crash (t : Trace).

Arguments Next {R A} a s t.
Arguments Return {R A} r s t.
Arguments Crash {R A} t.

Definition Stmt (R A : Type) : Type := SurfaceTexture -> Outcome R A.

Definition ret {R A} (a : A) : Stmt R A := fun s => Next a s [].

(** An outcome reached after the events [t]. *)
Definition prefixed {R A} (t : Trace) (o : Outcome R A) : Outcome R A :=
  match o with
  | Next a s t' => Next a s (t ++ t')
  | Return r s t' => Return r s (t ++ t')
  | Crash t' => Crash (t ++ t')
  end.

Definition bind {R A B} (m : Stmt R A) (k : A -> Stmt R B) : Stmt R B :=
  fun s =>
    match m s with
    | Next a s1 t1 => prefixed t1 (k a s1)
    | Return r s1 t1 => Return r s1 t1
    | Crash t1 => Crash t1
    end.

Notation "x <- m ;; k" := (bind m (fun x => k))
  (at level 61, m at next level, right associativity).
Notation "m ;; k" := (bind m (fun _ => k))
  (at level 61, right associativity).

(** [return r;] *)
Definition returns {R A} (r : R) : Stmt R A := fun s => Return r s [].

Definition emit {R} (e : Event) : Stmt R unit := fun s => Next tt s [e].

Definition get {R A} (field : SurfaceTexture -> A) : Stmt R A :=
  fun s => Next (field s) s [].

Definition modify {R} (f : SurfaceTexture -> SurfaceTexture) : Stmt R unit :=
  fun s => Next tt (f s) [].

(** [if (c) { body }] *)
Definition when {R} (c : bool) (body : Stmt R unit) : Stmt R unit :=
  if c then body else ret tt.

(** [for (int i = from; ...; i++) body], [n] rounds. *)
Fixpoint forUpTo {R} (n : nat) (i : Z) (body : Z -> Stmt R unit) : Stmt R unit :=
  match n with
  | O => ret tt
  | S k => body i ;; forUpTo k (i + 1) body
  end.

(** A function body run to its end; falling off the end returns too. *)
Definition function {R} (body : Stmt R R) (s : SurfaceTexture) : Result R :=
  match body s with
  | Next r s' t => Returned r s' t
  | Return r s' t => Returned r s' t
  | Crash t => NullDereference t
  end.

(** A call of a function as a statement of another. *)
Definition call {R R'} (f : SurfaceTexture -> Result R) : Stmt R' R :=
  fun s =>
    match f s with
    | Returned r s' t => Next r s' t
    | NullDereference t => Crash t
    end.

(** [p->...] on an [sp<>]: a null pointer ends the process. *)
Definition deref {R A} (p : SurfaceTexture -> option A) : Stmt R A :=
  fun s => match p s with Some a => Next a s [] | None => Crash [] end.

(** [mBufferQueue->method(...)] *)
Definition queueCall {R} (e : Event) : Stmt R unit :=
  deref mBufferQueue ;; emit e.

(** Slot table accesses, [mEGLSlots[i].field]. *)
Definition readSlot {R A} (env : Env) (i : Z) (f : SlotField)
    (proj : EGLSlot -> A) : Stmt R A :=
  fun s => Next (proj (slotAt (stray env) (mEGLSlots s) i)) s [SlotRead i f].

Definition writeSlot {R} (i : Z) (f : SlotField) (upd : EGLSlot -> EGLSlot)
  : Stmt R unit :=
  fun s => Next tt (set_mEGLSlots s (updateSlot i upd (mEGLSlots s))) [SlotWrite i f].

Definition readGraphicBuffer {R} env i : Stmt R sp_GraphicBuffer :=
  readSlot env i FGraphicBuffer slotGraphicBuffer.
Definition readEglImage {R} env i : Stmt R EGLImageKHR :=
  readSlot env i FEglImage mEglImage.
Definition readFence {R} env i : Stmt R EGLSyncKHR :=
  readSlot env i FFence mFence.
Definition writeGraphicBuffer {R} i (b : sp_GraphicBuffer) : Stmt R unit :=
  writeSlot i FGraphicBuffer (withGraphicBuffer b).
Definition writeEglImage {R} i (img : EGLImageKHR) : Stmt R unit :=
  writeSlot i FEglImage (withEglImage img).
Definition writeFence {R} i (f : EGLSyncKHR) : Stmt R unit :=
  writeSlot i FFence (withFence f).

Definition isNull {A} (p : option A) : bool :=
  match p with None => true | Some _ => false end.

Notation "a != b" := (negb (Z.eqb a b)) (at level 70, no associativity).

(** ** Transform composer *)

Section Compose.

Import F32 Mtx.
Local Open Scope f32_scope.

(** [flags & bit] as a C++ condition. *)
Definition hasFlag (flags bit : Z) : bool := Z.land flags bit != 0.

(** The branch of [computeCurrentTransformMatrix] for a crop that is not
    empty: [(tx, ty, sx, sy)] from the crop and the buffer. *)
Definition shrunkCrop (crop : Rect) (buf : GraphicBuffer)
  : float * float * float * float :=
  let xshrink := 0%Z in
  let yshrink := 0%Z in
  let '(tx, xshrink) :=
    if (0 <? left crop)%Z
    then (of_int (Int.int32 (left crop + 1)) / of_int (getWidth buf),
          (xshrink + 1)%Z)
    else (zero, xshrink) in
  let xshrink :=
    if (right crop <? Int.int32 (getWidth buf))%Z
    then (xshrink + 1)%Z else xshrink in
  let '(ty, yshrink) :=
    if (bottom crop <? Int.int32 (getHeight buf))%Z
    then ((of_int (Int.uint32 (getHeight buf - bottom crop)) + one)
            / of_int (getHeight buf),
          (yshrink + 1)%Z)
    else (zero, yshrink) in
  let yshrink :=
    if (0 <? top crop)%Z then (yshrink + 1)%Z else yshrink in
  let sx := of_int (Int.int32 (width crop - xshrink)) / of_int (getWidth buf) in
  let sy := of_int (Int.int32 (height crop - yshrink)) / of_int (getHeight buf) in
  (tx, ty, sx, sy).

(** [float crop[16] = { sx, 0, 0, 0,  0, sy, 0, 0,  0, 0, 1, 0,  tx, ty, 0, 1 }] *)
Definition cropMatrix (p : float * float * float * float) : mtx :=
  let '(tx, ty, sx, sy) := p in
  [ sx; zero; zero; zero;
    zero; sy; zero; zero;
    zero; zero; one; zero;
    tx; ty; zero; one ].

Definition computeCurrentTransformMatrix : SurfaceTexture -> Result unit :=
  function (
    let xform := mtxIdentity in
    transform <- get mCurrentTransform ;;
    let xform :=
      if hasFlag transform NATIVE_WINDOW_TRANSFORM_FLIP_H
      then mtxMul xform mtxFlipH else xform in
    let xform :=
      if hasFlag transform NATIVE_WINDOW_TRANSFORM_FLIP_V
      then mtxMul xform mtxFlipV else xform in
    let xform :=
      if hasFlag transform NATIVE_WINDOW_TRANSFORM_ROT_90
      then mtxMul xform mtxRot90 else xform in
    crop <- get mCurrentCrop ;;
    p <- (if negb (isEmpty crop)
          then buf <- deref mCurrentTextureBuf ;; ret (shrunkCrop crop buf)
          else ret (zero, zero, one, one)) ;;
    let crop := cropMatrix p in
    let mtxBeforeFlipV := mtxMul crop xform in
    modify (fun s => set_mCurrentTransformMatrix s (mtxMul mtxFlipV mtxBeforeFlipV))).

End Compose.

(** ** Consumer state machine *)

(** The loop [while ((error = glGetError()) != GL_NO_ERROR) body]: the codes
    the body sees. *)
Fixpoint drainGlErrors (errors : list GLint) : list GLint :=
  match errors with
  | [] => []
  | e :: rest => if e != GL_NO_ERROR then e :: drainGlErrors rest else []
  end.

Definition createImage {R} (env : Env) (dpy : EGLDisplay)
    (graphicBuffer : sp_GraphicBuffer) : Stmt R EGLImageKHR :=
  cbuf <- deref (fun _ => graphicBuffer) ;;
  emit (EglCreateImageKHR dpy cbuf) ;;
  ret (eglCreateImageKHR env).

Definition freeBufferLocked (env : Env) (slotIndex : Z)
  : SurfaceTexture -> Result unit :=
  function (
    writeGraphicBuffer slotIndex None ;;
    img0 <- readEglImage env slotIndex ;;
    when (img0 != EGL_NO_IMAGE_KHR) (
      img <- readEglImage env slotIndex ;;
      when (img != EGL_NO_IMAGE_KHR) (
        dpy <- get mEglDisplay ;;
        emit (EglDestroyImageKHR dpy img)) ;;
      writeEglImage slotIndex EGL_NO_IMAGE_KHR)).

Definition updateTexImage (env : Env) : SurfaceTexture -> Result status_t :=
  function (
    abandoned <- get mAbandoned ;;
    when abandoned (returns NO_INIT) ;;

    let dpy := eglGetCurrentDisplay env in
    let ctx := eglGetCurrentContext env in

    display <- get mEglDisplay ;;
    when ((display != dpy) && (display != EGL_NO_DISPLAY))
      (returns (- EINVAL)) ;;

    context <- get mEglContext ;;
    when ((context != ctx) && (context != EGL_NO_CONTEXT))
      (returns (- EINVAL)) ;;

    modify (fun s => set_mEglDisplay s dpy) ;;
    modify (fun s => set_mEglContext s ctx) ;;

    queueCall AcquireBuffer ;;
    let '(status, item) := acquireBuffer env in
    (if status =? NO_ERROR then
       let buf := mBuf item in
       when (negb (isNull (mGraphicBuffer item))) (
         writeGraphicBuffer buf None ;;
         old <- readEglImage env buf ;;
         when (old != EGL_NO_IMAGE_KHR) (
           old <- readEglImage env buf ;;
           emit (EglDestroyImageKHR dpy old) ;;
           writeEglImage buf EGL_NO_IMAGE_KHR) ;;
         writeGraphicBuffer buf (mGraphicBuffer item)) ;;

       image <- readEglImage env buf ;;
       image <- (if image =? EGL_NO_IMAGE_KHR then
                   when (isNull (mGraphicBuffer item)) (returns BAD_VALUE) ;;
                   image <- createImage env dpy (mGraphicBuffer item) ;;
                   writeEglImage buf image ;;
                   when (image =? EGL_NO_IMAGE_KHR) (returns (- EINVAL)) ;;
                   ret image
                 else ret image) ;;

       let cleared := drainGlErrors (glErrorsPending env) in

       texTarget <- get mTexTarget ;;
       texName <- get mTexName ;;
       emit (GlBindTexture texTarget texName) ;;
       emit (GlEGLImageTargetTexture2DOES texTarget image) ;;

       let failed :=
         match drainGlErrors (glErrorsAfterBind env) with
         | [] => false
         | _ :: _ => true
         end in
       when failed (
         fence <- readFence env buf ;;
         queueCall (ReleaseBuffer buf dpy fence) ;;
         returns (- EINVAL)) ;;

       current <- get mCurrentTexture ;;
       useFenceSync <- get mUseFenceSync ;;
       when (current != INVALID_BUFFER_SLOT) (
         when useFenceSync (
           emit (EglCreateSyncKHR dpy) ;;
           let fence := eglCreateSyncKHR env in
           when (fence =? EGL_NO_SYNC_KHR) (
             bufFence <- readFence env buf ;;
             queueCall (ReleaseBuffer buf dpy bufFence) ;;
             returns (- EINVAL)) ;;
           emit GlFlush ;;
           writeFence current fence)) ;;

       (* release old buffer *)
       oldFence <- readFence env current ;;
       queueCall (ReleaseBuffer current dpy oldFence) ;;

       (* Update the SurfaceTexture state. *)
       modify (fun s => set_mCurrentTexture s buf) ;;
       graphicBuffer <- readGraphicBuffer env buf ;;
       modify (fun s => set_mCurrentTextureBuf s graphicBuffer) ;;
       modify (fun s => set_mCurrentCrop s (mCrop item)) ;;
       modify (fun s => set_mCurrentTransform s (mTransform item)) ;;
       modify (fun s => set_mCurrentScalingMode s (mScalingMode item)) ;;
       modify (fun s => set_mCurrentTimestamp s (mTimestamp item)) ;;
       call computeCurrentTransformMatrix
     else
       (* We always bind the texture even if we don't update its contents. *)
       texTarget <- get mTexTarget ;;
       texName <- get mTexName ;;
       emit (GlBindTexture texTarget texName)) ;;

    returns OK).

Definition abandon (env : Env) : SurfaceTexture -> Result unit :=
  function (
    abandoned <- get mAbandoned ;;
    when (negb abandoned) (
      modify (fun s => set_mAbandoned s true) ;;
      modify (fun s => set_mCurrentTextureBuf s None) ;;

      (* destroy all egl buffers *)
      forUpTo (Z.to_nat NUM_BUFFER_SLOTS) 0
        (fun i => call (freeBufferLocked env i)) ;;

      (* disconnect from the BufferQueue *)
      queueCall ConsumerDisconnect ;;
      modify (fun s => set_mBufferQueue s None))).

Definition onBuffersReleased (env : Env) : SurfaceTexture -> Result unit :=
  function (
    abandoned <- get mAbandoned ;;
    (* Nothing to do if we're already abandoned. *)
    when abandoned (returns tt) ;;

    queueCall GetReleasedBuffers ;;
    let mask := getReleasedBuffers env in
    forUpTo (Z.to_nat NUM_BUFFER_SLOTS) 0
      (fun i =>
         when (Z.land mask (Int.uint32 (Z.shiftl 1 i)) != 0)
           (call (freeBufferLocked env i))) ;;

    modify (fun s => set_mCurrentTexture s INVALID_BUFFER_SLOT)).

Definition setDefaultBufferSize (env : Env) (w h : Z)
  : SurfaceTexture -> Result status_t :=
  function (
    queueCall (SetDefaultBufferSize w h) ;;
    returns (setDefaultBufferSizeStatus env)).

Definition setName (name : string) : SurfaceTexture -> Result unit :=
  function (
    modify (fun s => set_mName s name) ;;
    queueCall (SetConsumerName name)).

Definition isSynchronousMode (env : Env) : SurfaceTexture -> Result bool :=
  function (
    queueCall IsSynchronousMode ;;
    returns (isSynchronousModeAnswer env)).

(** The accessors. *)
Definition getCurrentTextureTarget : SurfaceTexture -> Result GLenum :=
  function (get mTexTarget).
Definition getTransformMatrix : SurfaceTexture -> Result Mtx.mtx :=
  function (get mCurrentTransformMatrix).
Definition getTimestamp : SurfaceTexture -> Result nsecs_t :=
  function (get mCurrentTimestamp).
Definition getCurrentBuffer : SurfaceTexture -> Result sp_GraphicBuffer :=
  function (get mCurrentTextureBuf).
Definition getCurrentCrop : SurfaceTexture -> Result Rect :=
  function (get mCurrentCrop).
Definition getCurrentTransform : SurfaceTexture -> Result Z :=
  function (get mCurrentTransform).
Definition getCurrentScalingMode : SurfaceTexture -> Result Z :=
  function (get mCurrentScalingMode).

(** The constructor.  [USE_FENCE_SYNC] is the build option; [name] is what
    [String8::format] built from the process id and the process-unique
    counter; [fresh] is the queue made by [new BufferQueue] when none is
    passed in.  The constructor leaves [mCurrentCrop] and
    [mCurrentScalingMode] as it finds them, [uninitCrop] and
    [uninitScalingMode]. *)
Definition construct (USE_FENCE_SYNC : bool) (name : string)
    (fresh : BufferQueue) (uninitCrop : Rect) (uninitScalingMode : Z)
    (tex : GLuint) (allowSynchronousMode : bool) (texTarget : GLenum)
    (useFenceSync : bool) (bufferQueue : option BufferQueue)
  : SurfaceTexture :=
  {| mCurrentTextureBuf := None;
     mCurrentCrop := uninitCrop;
     mCurrentTransform := 0;
     mCurrentScalingMode := uninitScalingMode;
     mCurrentTransformMatrix := Mtx.mtxIdentity;
     mCurrentTimestamp := 0;
     mTexName := tex;
     mUseFenceSync := if USE_FENCE_SYNC then useFenceSync else false;
     mTexTarget := texTarget;
     mEGLSlots := repeat emptySlot (Z.to_nat NUM_BUFFER_SLOTS);
     mEglDisplay := EGL_NO_DISPLAY;
     mEglContext := EGL_NO_CONTEXT;
     mAbandoned := false;
     mName := name;
     mCurrentTexture := INVALID_BUFFER_SLOT;
     mBufferQueue :=
       match bufferQueue with
       | None => Some fresh
       | Some q => Some q
       end |}.

(** ** Vocabulary of the properties *)

(** The real number a finite [float] stands for. *)
Definition represents (x : F32.float) (q : Q) : Prop :=
  match x with
  | S754_zero _ => Qeq q 0
  | S754_finite sign m e =>
      Qeq q ((if sign then -1 else 1) * inject_Z (Zpos m) * Qpower 2 e)
  | S754_infinity _ | S754_nan => False
  end.

(** The product of two 4 x 4 matrices over the rationals, column-major as
    the code stores them: the entry in row [r] and column [c] of [a . b] is
    the sum over [k] of (row [r], column [k] of [a]) times (row [k], column
    [c] of [b]).  This is ordinary arithmetic, not the code's [mtxMul]. *)
Definition exactEntry (m : list Q) (r c : nat) : Q := nth (4 * c + r) m 0%Q.

Definition exactMul (a b : list Q) : list Q :=
  map (fun i =>
         let r := (i mod 4)%nat in
         let c := (i / 4)%nat in
         (exactEntry a r 0 * exactEntry b 0 c
          + exactEntry a r 1 * exactEntry b 1 c
          + exactEntry a r 2 * exactEntry b 2 c
          + exactEntry a r 3 * exactEntry b 3 c)%Q)
      (seq 0 16).

(** [FLIP_V], and the crop matrix with diagonal (sx, sy, 1, 1) and
    translation column (tx, ty, 0, 1), as matrices of rationals. *)
Definition flipVExact : list Q :=
  map inject_Z
    [ 1; 0; 0; 0;
      0; -1; 0; 0;
      0; 0; 1; 0;
      0; 1; 0; 1 ].

Definition cropExact (tx ty sx sy : Q) : list Q :=
  [ sx; 0%Q; 0%Q; 0%Q;
    0%Q; sy; 0%Q; 0%Q;
    0%Q; 0%Q; 1%Q; 0%Q;
    tx; ty; 0%Q; 1%Q ].

(** The sixteen entries of the matrix of scenario S3, as rationals and as
    the binary32 numbers that stand for them. *)
Definition s3Entries : list Q :=
  [ (252 # 256)%Q; 0%Q; 0%Q; 0%Q;
    0%Q; (- (252 # 256))%Q; 0%Q; 0%Q;
    0%Q; 0%Q; 1%Q; 0%Q;
    (2 # 256)%Q; (254 # 256)%Q; 0%Q; 1%Q ].

Definition s3Matrix : Mtx.mtx :=
  [ S754_finite false 16515072 (-24); S754_zero false; S754_zero false;
    S754_zero false;
    S754_zero false; S754_finite true 16515072 (-24); S754_zero false;
    S754_zero false;
    S754_zero false; S754_zero false; S754_finite false 8388608 (-23);
    S754_zero false;
    S754_finite false 8388608 (-30); S754_finite false 16646144 (-24);
    S754_zero false; S754_finite false 8388608 (-23) ].

(** A slot with no native buffer and no GPU image. *)
Definition freeSlot (e : EGLSlot) : EGLSlot :=
  mkEGLSlot None EGL_NO_IMAGE_KHR (mFence e).

(** What [freeBufferLocked] leaves in the trace for a slot holding [img]. *)
Definition freeTrace (dpy : EGLDisplay) (img : EGLImageKHR) (i : Z) : Trace :=
  SlotWrite i FGraphicBuffer :: SlotRead i FEglImage ::
  (if img != EGL_NO_IMAGE_KHR
   then [SlotRead i FEglImage; EglDestroyImageKHR dpy img; SlotWrite i FEglImage]
   else []).

(** The slot table after the loop of [onBuffersReleased] went through [n]
    indices from [i] on. *)
Fixpoint freeMasked (mask : Z) (n : nat) (i : Z) (slots : list EGLSlot)
  : list EGLSlot :=
  match n with
  | O => slots
  | S k =>
      freeMasked mask k (i + 1)
        (if Z.land mask (Int.uint32 (Z.shiftl 1 i)) != 0
         then updateSlot i freeSlot slots else slots)
  end.

(** The slot table after the loop of [abandon] went through [n] indices
    from [i] on. *)
Fixpoint freeRange (n : nat) (i : Z) (slots : list EGLSlot) : list EGLSlot :=
  match n with
  | O => slots
  | S k => freeRange k (i + 1) (updateSlot i freeSlot slots)
  end.

(** The table has its [NUM_BUFFER_SLOTS] entries. *)
Definition fullTable (s : SurfaceTexture) : Prop :=
  List.length (mEGLSlots s) = Z.to_nat NUM_BUFFER_SLOTS.

(** An instance that was not abandoned still holds its queue. *)
Definition attached (s : SurfaceTexture) : Prop :=
  mAbandoned s = false -> mBufferQueue s <> None.

(** The slot invariant: a GPU image only next to a native buffer. *)
Definition imageHasBuffer (e : EGLSlot) : Prop :=
  mEglImage e <> EGL_NO_IMAGE_KHR -> slotGraphicBuffer e <> None.

(** The caller's display and context are the latched ones, or none was
    latched yet. *)
Definition checksPass (env : Env) (s : SurfaceTexture) : Prop :=
  (mEglDisplay s = eglGetCurrentDisplay env \/ mEglDisplay s = EGL_NO_DISPLAY) /\
  (mEglContext s = eglGetCurrentContext env \/ mEglContext s = EGL_NO_CONTEXT).

(** The slot invariant over the table, as the code reads its slots; and
    over the table but for slot [buf]. *)
Definition slotsOK (env : Env) (s : SurfaceTexture) : Prop :=
  forall j, inBounds j = true ->
    imageHasBuffer (slotAt (stray env) (mEGLSlots s) j).

Definition othersOK (env : Env) (buf : Z) (s : SurfaceTexture) : Prop :=
  forall j, inBounds j = true -> j <> buf ->
    imageHasBuffer (slotAt (stray env) (mEGLSlots s) j).

(** The states the operations are meant to see. *)
Definition wellFormed (s : SurfaceTexture) : Prop :=
  attached s /\ fullTable s /\ Forall imageHasBuffer (mEGLSlots s).

(** Total correctness of a statement: from a state in [P] it does not
    crash; it falls through into [Q] or returns into [E]. *)
Definition hoare {R A} (P : SurfaceTexture -> Prop) (m : Stmt R A)
    (Q : A -> SurfaceTexture -> Prop) (E : R -> SurfaceTexture -> Prop) : Prop :=
  forall s, P s ->
    match m s with
    | Next a s' _ => Q a s'
    | Return r s' _ => E r s'
    | Crash _ => False
    end.

(** The native buffer of slot [buf], as [updateTexImage] reads it. *)
Definition bufferAt (env : Env) (buf : Z) (s : SurfaceTexture) : sp_GraphicBuffer :=
  slotGraphicBuffer (slotAt (stray env) (mEGLSlots s) buf).

(** What stays put once [updateTexImage] is past its checks: the latched
    display and context, the queue, the size of the table. *)
Definition steady (env : Env) (q : BufferQueue) (s : SurfaceTexture) : Prop :=
  mAbandoned s = false /\
  mEglDisplay s = eglGetCurrentDisplay env /\
  mEglContext s = eglGetCurrentContext env /\
  mBufferQueue s = Some q /\
  fullTable s.

(** The display and the context of the caller are the latched ones. *)
Definition latched (env : Env) (s : SurfaceTexture) : Prop :=
  mEglDisplay s = eglGetCurrentDisplay env /\
  mEglContext s = eglGetCurrentContext env.

(** [x] has the current frame of [s]: slot, buffer, crop, transform flags,
    scaling mode, timestamp and matrix. *)
Definition sameCurrent (s x : SurfaceTexture) : Prop :=
  mCurrentTexture x = mCurrentTexture s /\
  mCurrentTextureBuf x = mCurrentTextureBuf s /\
  mCurrentCrop x = mCurrentCrop s /\
  mCurrentTransform x = mCurrentTransform s /\
  mCurrentScalingMode x = mCurrentScalingMode s /\
  mCurrentTimestamp x = mCurrentTimestamp s /\
  mCurrentTransformMatrix x = mCurrentTransformMatrix s.

(** Position of the first event of a kind in a trace. *)
Fixpoint firstIndex (p : Event -> bool) (t : Trace) : option nat :=
  match t with
  | [] => None
  | e :: rest =>
      if p e then Some O
      else match firstIndex p rest with
           | Some n => Some (S n)
           | None => None
           end
  end.

(** Both kinds of event occur and the first [p] comes before the first [q]. *)
Definition precedes (p q : Event -> bool) (t : Trace) : bool :=
  match firstIndex p t, firstIndex q t with
  | Some a, Some b => (a <? b)%nat
  | _, _ => false
  end.

Definition isDestroyImage (e : Event) : bool :=
  match e with EglDestroyImageKHR _ _ => true | _ => false end.

Definition isClearBuffer (i : Z) (e : Event) : bool :=
  match e with SlotWrite j FGraphicBuffer => j =? i | _ => false end.

Definition isReleaseOf (buf : Z) (e : Event) : bool :=
  match e with ReleaseBuffer b _ _ => b =? buf | _ => false end.

(** The index of a slot table access. *)
Definition slotAccess (e : Event) : option Z :=
  match e with
  | SlotRead i _ | SlotWrite i _ => Some i
  | _ => None
  end.

(** Every slot table access of the trace is inside the table. *)
Definition accessesInBounds (t : Trace) : bool :=
  forallb (fun e => match slotAccess e with
                    | Some i => inBounds i
                    | None => true
                    end) t.

(** The trace a call leaves. *)
Definition traceOf {R} (r : Result R) : Trace :=
  match r with
  | Returned _ _ t => t
  | NullDereference t => t
  end.

(** ** Sample instances and environments *)

Module Sample.

Definition buffer (h : Z) : GraphicBuffer := mkGraphicBuffer h 256 256.

Definition fullCrop : Rect := mkRect 0 0 256 256.

(** A fresh instance on texture 7, external target, no fence sync. *)
Definition fresh : SurfaceTexture :=
  construct false "unnamed-1-0" (mkBufferQueue 1) (mkRect 0 0 0 0) 0
    7 true 36197 false None.

(** The same with fence sync. *)
Definition freshFenced : SurfaceTexture :=
  construct true "unnamed-1-1" (mkBufferQueue 1) (mkRect 0 0 0 0) 0
    7 true 36197 true None.

(** The queue hands out [slot] with a newly allocated buffer. *)
Definition newFrame (slot : Z) : BufferItem :=
  mkBufferItem (Some (buffer (100 + slot))) fullCrop 0 0 (1000 + slot) slot.

(** The queue hands out [slot] again, without a buffer. *)
Definition oldFrame (slot : Z) : BufferItem :=
  mkBufferItem None fullCrop 0 0 (2000 + slot) slot.

(** Display 1, context 1; image creation gives [img], the bind leaves
    [bindErrors], fence creation gives [fence]. *)
Definition env (acq : status_t * BufferItem) (img : EGLImageKHR)
    (bindErrors : list GLint) (fence : EGLSyncKHR) : Env :=
  mkEnv 1 1 acq img [] bindErrors fence 0 OK false emptySlot.

(** A caller on display 2, and one on context 2. *)
Definition otherDisplay : Env :=
  mkEnv 2 1 (NO_ERROR, newFrame 1) 51 [] [] 9 0 OK false emptySlot.
Definition otherContext : Env :=
  mkEnv 1 2 (NO_ERROR, newFrame 1) 51 [] [] 9 0 OK false emptySlot.

(** Everything succeeds. *)
Definition good (slot : Z) : Env := env (NO_ERROR, newFrame slot) (50 + slot) [] 9.

(** The queue answers [acquireBuffer] with [status]. *)
Definition acquireFails (status : status_t) : Env :=
  env (status, newFrame 0) 50 [] 9.

(** The queue reports the released slots [mask]. *)
Definition released (mask : Z) : Env :=
  mkEnv 1 1 (NO_ERROR, newFrame 0) 50 [] [] 9 mask OK false emptySlot.

(** The state a call leaves behind. *)
Definition after {R} (r : Result R) (otherwise : SurfaceTexture) : SurfaceTexture :=
  match r with
  | Returned _ s _ => s
  | NullDereference _ => otherwise
  end.

(** One frame was latched from slot 0. *)
Definition oneFrame : SurfaceTexture := after (updateTexImage (good 0) fresh) fresh.

(** The same with fence sync. *)
Definition oneFrameFenced : SurfaceTexture :=
  after (updateTexImage (good 0) freshFenced) freshFenced.

(** Three frames were latched, from slots 0, 1 and 2. *)
Definition threeFrames : SurfaceTexture :=
  let s1 := oneFrame in
  let s2 := after (updateTexImage (good 1) s1) s1 in
  after (updateTexImage (good 2) s2) s2.

(** The instance after [abandon]. *)
Definition abandoned : SurfaceTexture := after (abandon (good 0) oneFrame) oneFrame.

End Sample.

(** ** Vocabulary of the further properties *)

(** Partial correctness of a statement over the state and the trace so
    far: from a state and a history in [P], falling through lands in [Q]
    and returning lands in [E], both on the history extended by the events
    of the statement. *)
Definition hoareH {R A} (P : SurfaceTexture -> Trace -> Prop) (m : Stmt R A)
    (Q : A -> SurfaceTexture -> Trace -> Prop)
    (E : R -> SurfaceTexture -> Trace -> Prop) : Prop :=
  forall s h, P s h ->
    match m s with
    | Next a s' t => Q a s' (h ++ t)
    | Return r s' t => E r s' (h ++ t)
    | Crash _ => True
    end.

(** What no operation but the constructor, [setName] and [abandon] writes. *)
Definition sameSetup (s x : SurfaceTexture) : Prop :=
  mTexName x = mTexName s /\
  mTexTarget x = mTexTarget s /\
  mUseFenceSync x = mUseFenceSync s /\
  mName x = mName s /\
  mAbandoned x = mAbandoned s /\
  mBufferQueue x = mBufferQueue s.

(** Slot [j] holds the same native buffer and GPU image in [x] as in [s]. *)
Definition sameContent (env : Env) (s x : SurfaceTexture) (j : Z) : Prop :=
  slotGraphicBuffer (slotAt (stray env) (mEGLSlots x) j)
  = slotGraphicBuffer (slotAt (stray env) (mEGLSlots s) j) /\
  mEglImage (slotAt (stray env) (mEGLSlots x) j)
  = mEglImage (slotAt (stray env) (mEGLSlots s) j).

(** Slot [j] holds the same fence in [x] as in [s]. *)
Definition sameFence (env : Env) (s x : SurfaceTexture) (j : Z) : Prop :=
  mFence (slotAt (stray env) (mEGLSlots x) j)
  = mFence (slotAt (stray env) (mEGLSlots s) j).

(** No fence of the table differs from the one in [s]. *)
Definition fencesKept (env : Env) (s x : SurfaceTexture) : Prop :=
  forall j, sameFence env s x j.

Definition isRelease (e : Event) : bool :=
  match e with ReleaseBuffer _ _ _ => true | _ => false end.

Definition isCreateImage (e : Event) : bool :=
  match e with EglCreateImageKHR _ _ => true | _ => false end.

Definition isCreateSync (e : Event) : bool :=
  match e with EglCreateSyncKHR _ => true | _ => false end.

(** An event that is no slot table access at an index other than [a], [b]. *)
Definition touchesOnly (a b : Z) (e : Event) : Prop :=
  match slotAccess e with
  | Some i => i = a \/ i = b
  | None => True
  end.

(** The matrix [computeCurrentTransformMatrix] stores for the given flags,
    crop and buffer; none when it would go through a null buffer. *)
Definition composedMatrix (transform : Z) (crop : Rect) (buf : sp_GraphicBuffer)
  : option Mtx.mtx :=
  let xform := Mtx.mtxIdentity in
  let xform :=
    if hasFlag transform NATIVE_WINDOW_TRANSFORM_FLIP_H
    then Mtx.mtxMul xform Mtx.mtxFlipH else xform in
  let xform :=
    if hasFlag transform NATIVE_WINDOW_TRANSFORM_FLIP_V
    then Mtx.mtxMul xform Mtx.mtxFlipV else xform in
  let xform :=
    if hasFlag transform NATIVE_WINDOW_TRANSFORM_ROT_90
    then Mtx.mtxMul xform Mtx.mtxRot90 else xform in
  let finish p :=
    Mtx.mtxMul Mtx.mtxFlipV (Mtx.mtxMul (cropMatrix p) xform) in
  if isEmpty crop
  then Some (finish (F32.zero, F32.zero, F32.one, F32.one))
  else match buf with
       | Some b => Some (finish (shrunkCrop crop b))
       | None => None
       end.

(** The frame of [item] is the current one in [x]. *)
Definition committed (env : Env) (item : BufferItem) (x : SurfaceTexture) : Prop :=
  mCurrentTexture x = mBuf item /\
  mCurrentTextureBuf x = bufferAt env (mBuf item) x /\
  mCurrentCrop x = mCrop item /\
  mCurrentTransform x = mTransform item /\
  mCurrentScalingMode x = mScalingMode item /\
  mCurrentTimestamp x = mTimestamp item /\
  composedMatrix (mTransform item) (mCrop item) (mCurrentTextureBuf x)
  = Some (mCurrentTransformMatrix x).

(** Why [updateTexImage] gives up after a successful acquire. *)
Definition failureCause (env : Env) (s : SurfaceTexture) (item : BufferItem)
  : Prop :=
  let had := mEglImage (slotAt (stray env) (mEGLSlots s) (mBuf item)) in
  (* nothing to make an image from *)
  (mGraphicBuffer item = None /\ had = EGL_NO_IMAGE_KHR) \/
  (* image creation failed *)
  (mGraphicBuffer item <> None /\ eglCreateImageKHR env = EGL_NO_IMAGE_KHR) \/
  (* the bind left an error *)
  drainGlErrors (glErrorsAfterBind env) <> [] \/
  (* fence creation failed *)
  (mCurrentTexture s <> INVALID_BUFFER_SLOT /\ mUseFenceSync s = true /\
   eglCreateSyncKHR env = EGL_NO_SYNC_KHR).

(** What [updateTexImage] keeps from the acquire to the commit, on state
    [x] and history [h]: the setup, the latched display and context, the
    current frame, the content of the slots other than [buf], slot accesses
    at [buf] and at the current slot only; [rel], [syn] and [des] are the
    releases, fence creations and image destructions so far. *)
Definition midway (env : Env) (s : SurfaceTexture) (buf : Z)
    (rel syn des : Trace) (x : SurfaceTexture) (h : Trace) : Prop :=
  sameSetup s x /\
  latched env x /\
  fullTable x /\
  sameCurrent s x /\
  (forall j, j <> buf -> sameContent env s x j) /\
  Forall (touchesOnly buf (mCurrentTexture s)) h /\
  filter isRelease h = rel /\
  filter isCreateSync h = syn /\
  filter isDestroyImage h = des.

(** The same once the current frame is being replaced. *)
Definition landing (env : Env) (s : SurfaceTexture) (buf : Z)
    (rel syn des : Trace) (x : SurfaceTexture) (h : Trace) : Prop :=
  sameSetup s x /\
  latched env x /\
  fullTable x /\
  (forall j, j <> buf -> sameContent env s x j) /\
  Forall (touchesOnly buf (mCurrentTexture s)) h /\
  filter isRelease h = rel /\
  filter isCreateSync h = syn /\
  filter isDestroyImage h = des.

(** The image destructions of [updateTexImage]: the image slot [buf] had,
    when the queue delivers a new buffer for the slot. *)
Definition replaced (env : Env) (s : SurfaceTexture) (item : BufferItem) : Trace :=
  let had := mEglImage (slotAt (stray env) (mEGLSlots s) (mBuf item)) in
  if negb (isNull (mGraphicBuffer item)) && (had != EGL_NO_IMAGE_KHR)
  then [EglDestroyImageKHR (eglGetCurrentDisplay env) had]
  else [].

(** The buffer and the image slot [buf] ends up with. *)
Definition installed (env : Env) (s : SurfaceTexture) (item : BufferItem)
  : sp_GraphicBuffer :=
  match mGraphicBuffer item with
  | Some b => Some b
  | None => bufferAt env (mBuf item) s
  end.

Definition bound (env : Env) (s : SurfaceTexture) (item : BufferItem)
  : EGLImageKHR :=
  match mGraphicBuffer item with
  | Some _ => eglCreateImageKHR env
  | None => mEglImage (slotAt (stray env) (mEGLSlots s) (mBuf item))
  end.

(** The fence handoff takes place: there is a current slot and fence sync
    is on. *)
Definition handsOff (s : SurfaceTexture) : bool :=
  (mCurrentTexture s != INVALID_BUFFER_SLOT) && mUseFenceSync s.

(** The fences after the handoff. *)
Definition fencesAfter (env : Env) (s x : SurfaceTexture) (h : Trace) : Prop :=
  (forall j, j <> mCurrentTexture s -> sameFence env s x j) /\
  if handsOff s
  then filter isCreateSync h = [EglCreateSyncKHR (eglGetCurrentDisplay env)] /\
       In GlFlush h /\
       (inBounds (mCurrentTexture s) = true ->
        mFence (slotAt (stray env) (mEGLSlots x) (mCurrentTexture s))
        = eglCreateSyncKHR env)
  else filter isCreateSync h = [] /\
       sameFence env s x (mCurrentTexture s).

(** What a call of [updateTexImage] that acquired [item] leaves: state [x],
    trace [h], status [r]. *)
Definition acquiredOutcome (env : Env) (s : SurfaceTexture) (item : BufferItem)
    (r : status_t) (x : SurfaceTexture) (h : Trace) : Prop :=
  let buf := mBuf item in
  let cur := mCurrentTexture s in
  let dpy := eglGetCurrentDisplay env in
  sameSetup s x /\
  latched env x /\
  fullTable x /\
  (forall j, j <> buf -> sameContent env s x j) /\
  bufferAt env buf x = installed env s item /\
  Forall (touchesOnly buf cur) h /\
  filter isDestroyImage h = replaced env s item /\
  (r = OK \/ r = - EINVAL) /\
  (r <> OK ->
   sameCurrent s x /\
   (forall j, sameFence env s x j) /\
   failureCause env s item /\
   (filter isRelease h = [] \/
    filter isRelease h
    = [ReleaseBuffer buf dpy (mFence (slotAt (stray env) (mEGLSlots s) buf))])) /\
  (r = OK ->
   committed env item x /\
   mEglImage (slotAt (stray env) (mEGLSlots x) buf) = bound env s item /\
   bound env s item <> EGL_NO_IMAGE_KHR /\
   ~ failureCause env s item /\
   filter isRelease h
   = [ReleaseBuffer cur dpy (mFence (slotAt (stray env) (mEGLSlots x) cur))] /\
   fencesAfter env s x h).

(** The queue hands out slots of the table. *)
Definition queueInRange (env : Env) : Prop :=
  fst (acquireBuffer env) = NO_ERROR ->
  inBounds (mBuf (snd (acquireBuffer env))) = true.

(** The state after the checks of [updateTexImage]. *)
Definition latch (env : Env) (s : SurfaceTexture) : SurfaceTexture :=
  set_mEglContext (set_mEglDisplay s (eglGetCurrentDisplay env))
    (eglGetCurrentContext env).

(** The four ways through [updateTexImage]. *)
Inductive UpdatePath (env : Env) (s : SurfaceTexture)
  : status_t -> SurfaceTexture -> Trace -> Prop :=
| pathAbandoned :
    mAbandoned s = true ->
    UpdatePath env s NO_INIT s []
| pathTurnedAway :
    mAbandoned s = false -> ~ checksPass env s ->
    UpdatePath env s (- EINVAL) s []
| pathNothingAcquired :
    mAbandoned s = false -> checksPass env s ->
    fst (acquireBuffer env) <> NO_ERROR ->
    UpdatePath env s OK (latch env s)
      [AcquireBuffer; GlBindTexture (mTexTarget s) (mTexName s)]
| pathAcquired r x h :
    mAbandoned s = false -> checksPass env s ->
    acquireBuffer env = (NO_ERROR, snd (acquireBuffer env)) ->
    acquiredOutcome env s (snd (acquireBuffer env)) r x h ->
    UpdatePath env s r x h.

(** ** Further sample runs *)

Module Scenario.

(** The bind of the second frame leaves a GL error. *)
Definition bindFails : Env :=
  Sample.env (NO_ERROR, Sample.newFrame 1) 51 [1282] 9.

(** The state and the trace a call of [updateTexImage] leaves. *)
Definition stateAfter (env : Env) (s : SurfaceTexture) : SurfaceTexture :=
  Sample.after (updateTexImage env s) s.

Definition traceAfter (env : Env) (s : SurfaceTexture) : Trace :=
  traceOf (updateTexImage env s).

End Scenario.


(** ** The states an instance goes through *)

(** From the constructor on, by the operations; the queue hands out slots of
    the table. *)
Inductive reachable : SurfaceTexture -> Prop :=
| reachConstruct fenceBuild name fresh crop mode tex sync target useFence queue :
    reachable (construct fenceBuild name fresh crop mode tex sync target
                 useFence queue)
| reachUpdate env s r s' t :
    reachable s -> queueInRange env ->
    updateTexImage env s = Returned r s' t ->
    reachable s'
| reachReleased env s s' t :
    reachable s ->
    onBuffersReleased env s = Returned tt s' t ->
    reachable s'
| reachAbandon env s s' t :
    reachable s ->
    abandon env s = Returned tt s' t ->
    reachable s'
| reachSetName name s s' t :
    reachable s ->
    setName name s = Returned tt s' t ->
    reachable s'.

(** The current slot is the sentinel or a slot of the table. *)
Definition currentValid (s : SurfaceTexture) : Prop :=
  mCurrentTexture s = INVALID_BUFFER_SLOT \/ inBounds (mCurrentTexture s) = true.

(** A live instance with a current slot has a current buffer. *)
Definition currentHasBuffer (s : SurfaceTexture) : Prop :=
  mAbandoned s = false -> mCurrentTexture s <> INVALID_BUFFER_SLOT ->
  mCurrentTextureBuf s <> None.

(** What all reachable states have in common. *)
Definition sound (s : SurfaceTexture) : Prop :=
  wellFormed s /\
  currentValid s /\
  currentHasBuffer s /\
  (mBufferQueue s = None -> mAbandoned s = true).


(** ** Vocabulary of the reclaiming operations *)

(** The indices [i], [i + 1], ..., [i + n - 1], as the loops visit them. *)
Fixpoint indices (n : nat) (i : Z) : list Z :=
  match n with
  | O => []
  | S k => i :: indices k (i + 1)
  end.

(** The slots of the table in order, those a mask reports and those it does
    not. *)
Definition allSlots : list Z := indices (Z.to_nat NUM_BUFFER_SLOTS) 0.

Definition reclaimed (mask : Z) : list Z := filter (Z.testbit mask) allSlots.

Definition notReclaimed (mask : Z) : list Z :=
  filter (fun j => negb (Z.testbit mask j)) allSlots.

(** One [eglDestroyImageKHR] for each of the slots [js] that holds an image,
    in the order of [js], on the display [dpy]. *)
Definition destroyedIn (st : EGLSlot) (dpy : EGLDisplay) (slots : list EGLSlot)
    (js : list Z) : Trace :=
  flat_map (fun j =>
              let img := mEglImage (slotAt st slots j) in
              if img != EGL_NO_IMAGE_KHR
              then [EglDestroyImageKHR dpy img]
              else [])
           js.

(** The same for the table of [s] and the display [s] latched. *)
Definition destroyed (env : Env) (s : SurfaceTexture) (js : list Z) : Trace :=
  destroyedIn (stray env) (mEglDisplay s) (mEGLSlots s) js.

(** The calls on the queue. *)
Definition isQueueCall (e : Event) : bool :=
  match e with
  | AcquireBuffer | ReleaseBuffer _ _ _ | GetReleasedBuffers
  | ConsumerDisconnect | SetConsumerName _ | SetDefaultBufferSize _ _
  | IsSynchronousMode => true
  | _ => false
  end.

(** The events of the loop of [onBuffersReleased] over [n] indices from [i]
    on, and of the loop of [abandon]. *)
Fixpoint freeMaskedTrace (st : EGLSlot) (dpy : EGLDisplay) (mask : Z) (n : nat)
    (i : Z) (slots : list EGLSlot) : Trace :=
  match n with
  | O => []
  | S k =>
      if Z.land mask (Int.uint32 (Z.shiftl 1 i)) != 0
      then freeTrace dpy (mEglImage (slotAt st slots i)) i
           ++ freeMaskedTrace st dpy mask k (i + 1) (updateSlot i freeSlot slots)
      else freeMaskedTrace st dpy mask k (i + 1) slots
  end.

Fixpoint freeRangeTrace (st : EGLSlot) (dpy : EGLDisplay) (n : nat) (i : Z)
    (slots : list EGLSlot) : Trace :=
  match n with
  | O => []
  | S k =>
      freeTrace dpy (mEglImage (slotAt st slots i)) i
      ++ freeRangeTrace st dpy k (i + 1) (updateSlot i freeSlot slots)
  end.

(** What neither [onBuffersReleased] nor [abandon] writes: the latched
    display and context, and the current frame but for the slot and the
    buffer. *)
Definition sameBinding (s x : SurfaceTexture) : Prop :=
  mEglDisplay x = mEglDisplay s /\
  mEglContext x = mEglContext s.

Definition sameFrameData (s x : SurfaceTexture) : Prop :=
  mCurrentCrop x = mCurrentCrop s /\
  mCurrentTransform x = mCurrentTransform s /\
  mCurrentScalingMode x = mCurrentScalingMode s /\
  mCurrentTimestamp x = mCurrentTimestamp s /\
  mCurrentTransformMatrix x = mCurrentTransformMatrix s.

(** ** Vocabulary of the exact composition *)

(** The tables of the source over the rationals. *)
Definition identityExact : list Q :=
  map inject_Z
    [ 1; 0; 0; 0;
      0; 1; 0; 0;
      0; 0; 1; 0;
      0; 0; 0; 1 ].

Definition flipHExact : list Q :=
  map inject_Z
    [ -1; 0; 0; 0;
      0; 1; 0; 0;
      0; 0; 1; 0;
      1; 0; 0; 1 ].

Definition rot90Exact : list Q :=
  map inject_Z
    [ 0; 1; 0; 0;
      -1; 0; 0; 0;
      0; 0; 1; 0;
      1; 0; 0; 1 ].

(** The product of the tables the flags select, in the order horizontal
    flip, vertical flip, rotation, over the rationals. *)
Definition exactFlags (transform : Z) : list Q :=
  let xform := identityExact in
  let xform :=
    if hasFlag transform NATIVE_WINDOW_TRANSFORM_FLIP_H
    then exactMul xform flipHExact else xform in
  let xform :=
    if hasFlag transform NATIVE_WINDOW_TRANSFORM_FLIP_V
    then exactMul xform flipVExact else xform in
  let xform :=
    if hasFlag transform NATIVE_WINDOW_TRANSFORM_ROT_90
    then exactMul xform rot90Exact else xform in
  xform.

(** * Properties *)

(** ** Laws of the statements *)

Lemma prefixed_nil {R A} (o : Outcome R A) : prefixed [] o = o.
Proof. destruct o; reflexivity. Qed.

Lemma prefixed_app {R A} (t u : Trace) (o : Outcome R A) :
  prefixed t (prefixed u o) = prefixed (t ++ u) o.
Proof. destruct o; cbn; rewrite app_assoc; reflexivity. Qed.

Section StatementLaws.

Context {R A B : Type}.

Lemma bind_ret (a : A) (k : A -> Stmt R B) s : bind (ret a) k s = k a s.
Proof. unfold bind, ret. apply prefixed_nil. Qed.

Lemma bind_get (f : SurfaceTexture -> A) (k : A -> Stmt R B) s :
  bind (get f) k s = k (f s) s.
Proof. unfold bind, get. apply prefixed_nil. Qed.

Lemma bind_modify (f : SurfaceTexture -> SurfaceTexture) (k : unit -> Stmt R B) s :
  bind (modify f) k s = k tt (f s).
Proof. unfold bind, modify. apply prefixed_nil. Qed.

Lemma bind_emit (e : Event) (k : unit -> Stmt R B) s :
  bind (emit e) k s = prefixed [e] (k tt s).
Proof. reflexivity. Qed.

Lemma bind_returns (r : R) (k : A -> Stmt R B) s :
  bind (returns r) k s = Return r s [].
Proof. reflexivity. Qed.

Lemma bind_deref_some (p : SurfaceTexture -> option A) (k : A -> Stmt R B) s a :
  p s = Some a -> bind (deref p) k s = k a s.
Proof. intros H. unfold bind, deref. rewrite H. apply prefixed_nil. Qed.

Lemma bind_deref_none (p : SurfaceTexture -> option A) (k : A -> Stmt R B) s :
  p s = None -> bind (deref p) k s = Crash [].
Proof. intros H. unfold bind, deref. rewrite H. reflexivity. Qed.

Lemma bind_assoc {C} (m : Stmt R A) (k : A -> Stmt R B) (h : B -> Stmt R C) s :
  bind (bind m k) h s = bind m (fun a => bind (k a) h) s.
Proof.
  unfold bind. destruct (m s) as [a s1 t1 | r s1 t1 | t1]; try reflexivity.
  destruct (k a s1) as [b s2 t2 | r s2 t2 | t2]; cbn; try reflexivity.
  destruct (h b s2); cbn; rewrite app_assoc; reflexivity.
Qed.

End StatementLaws.

Lemma bind_queueCall_some {R B} (e : Event) (k : unit -> Stmt R B) s q :
  mBufferQueue s = Some q -> bind (queueCall e) k s = prefixed [e] (k tt s).
Proof.
  intros H. unfold queueCall. rewrite bind_assoc.
  rewrite (bind_deref_some _ _ _ q H). reflexivity.
Qed.

Lemma bind_queueCall_none {R B} (e : Event) (k : unit -> Stmt R B) s :
  mBufferQueue s = None -> bind (queueCall e) k s = Crash [].
Proof.
  intros H. unfold queueCall. rewrite bind_assoc.
  apply bind_deref_none. exact H.
Qed.

(** ** Matrix kernel *)

Section MatrixFacts.

Import Mtx.

Lemma mtxMul_identity_identity : mtxMul mtxIdentity mtxIdentity = mtxIdentity.
Proof. vm_compute. reflexivity. Qed.

Lemma flipV_of_identity :
  mtxMul mtxFlipV
    (mtxMul (cropMatrix (F32.zero, F32.zero, F32.one, F32.one)) mtxIdentity)
  = mtxFlipV.
Proof. vm_compute. reflexivity. Qed.

Lemma eqb_refl_on_literals :
  Mtx.eqb mtxIdentity mtxIdentity = true /\ Mtx.eqb mtxFlipV mtxFlipV = true.
Proof. split; vm_compute; reflexivity. Qed.

(** C10.  Under [mtxMul], the horizontal flip composed with itself is the
    identity matrix, the vertical flip composed with itself is the identity
    matrix, and the rotation by 90 degrees composed with itself four times is
    the identity matrix.  All entries are -1, 0 or 1, the float arithmetic is
    exact, and the results are the very floats of [mtxIdentity]; the C++
    comparison of the entries agrees. *)
Theorem flips_and_rotation_compose_to_identity :
  mtxMul mtxFlipH mtxFlipH = mtxIdentity /\
  mtxMul mtxFlipV mtxFlipV = mtxIdentity /\
  mtxMul mtxRot90 (mtxMul mtxRot90 (mtxMul mtxRot90 mtxRot90)) = mtxIdentity /\
  Mtx.eqb (mtxMul mtxFlipH mtxFlipH) mtxIdentity = true /\
  Mtx.eqb (mtxMul mtxFlipV mtxFlipV) mtxIdentity = true /\
  Mtx.eqb (mtxMul mtxRot90 (mtxMul mtxRot90 (mtxMul mtxRot90 mtxRot90)))
    mtxIdentity = true.
Proof. repeat (apply conj; [vm_compute; reflexivity|]). vm_compute. reflexivity. Qed.

End MatrixFacts.

(** ** Transform composer *)

Section ComposerFacts.

Import Mtx.

(** With no flag set the three conditional products are skipped. *)
Lemma compose_without_flags s :
  mCurrentTransform s = 0 ->
  computeCurrentTransformMatrix s =
    function (
      crop <- get mCurrentCrop ;;
      p <- (if negb (isEmpty crop)
            then buf <- deref mCurrentTextureBuf ;; ret (shrunkCrop crop buf)
            else ret (F32.zero, F32.zero, F32.one, F32.one)) ;;
      modify (fun s => set_mCurrentTransformMatrix s
                         (mtxMul mtxFlipV (mtxMul (cropMatrix p) mtxIdentity)))) s.
Proof.
  intros H. unfold computeCurrentTransformMatrix, function.
  rewrite bind_get, H. reflexivity.
Qed.

(** C6.  Whatever the current buffer and its dimensions (or none at all):
    when the current crop is empty and the current transform flags are 0,
    [computeCurrentTransformMatrix] stores the literal matrix [mtxFlipV] and
    changes nothing else. *)
Theorem empty_crop_no_flags_gives_flipV (s : SurfaceTexture) :
  isEmpty (mCurrentCrop s) = true ->
  mCurrentTransform s = 0 ->
  computeCurrentTransformMatrix s
  = Returned tt (set_mCurrentTransformMatrix s mtxFlipV) [].
Proof.
  intros Hempty Hflags.
  rewrite (compose_without_flags s Hflags).
  unfold function. rewrite bind_get, Hempty. cbn [negb].
  rewrite bind_ret. unfold modify. rewrite flipV_of_identity. reflexivity.
Qed.

Lemma empty_crop_no_flags_gives_flipV_witness :
  computeCurrentTransformMatrix
    (set_mCurrentCrop (set_mCurrentTextureBuf Sample.fresh (Some (mkGraphicBuffer 3 640 480)))
       (mkRect 10 10 10 400))
  = Returned tt
      (set_mCurrentTransformMatrix
         (set_mCurrentCrop
            (set_mCurrentTextureBuf Sample.fresh (Some (mkGraphicBuffer 3 640 480)))
            (mkRect 10 10 10 400))
         mtxFlipV) [].
Proof.
  apply empty_crop_no_flags_gives_flipV; reflexivity.
Defined.

(** The scenario S3: crop (1,1,255,255) in a 256 x 256 buffer. *)
Lemma s3_shrunkCrop (h : Z) :
  shrunkCrop (mkRect 1 1 255 255) (mkGraphicBuffer h 256 256)
  = (F32.div (F32.of_int 2) (F32.of_int 256),
     F32.div (F32.of_int 2) (F32.of_int 256),
     F32.div (F32.of_int (254 - 2)) (F32.of_int 256),
     F32.div (F32.of_int (254 - 2)) (F32.of_int 256)).
Proof. vm_compute. reflexivity. Qed.

Lemma s3_values :
  represents (F32.div (F32.of_int 2) (F32.of_int 256)) (2 # 256) /\
  represents (F32.div (F32.of_int (254 - 2)) (F32.of_int 256)) ((254 - 2) # 256).
Proof. split; vm_compute; reflexivity. Qed.

Lemma s3_crop_times_identity (h : Z) :
  mtxMul (cropMatrix (shrunkCrop (mkRect 1 1 255 255) (mkGraphicBuffer h 256 256)))
    mtxIdentity
  = cropMatrix (shrunkCrop (mkRect 1 1 255 255) (mkGraphicBuffer h 256 256)).
Proof. vm_compute. reflexivity. Qed.

(** The matrix of S3, entry by entry. *)
Lemma s3_matrix_entries :
  Forall2 represents s3Matrix s3Entries.
Proof. repeat (apply Forall2_cons; [vm_compute; reflexivity|]). apply Forall2_nil. Qed.

Lemma s3_entries_are_the_product :
  Forall2 Qeq s3Entries
    (exactMul flipVExact
       (cropExact (2 # 256) (2 # 256) ((254 - 2) # 256) ((254 - 2) # 256))).
Proof. repeat (apply Forall2_cons; [vm_compute; reflexivity|]). apply Forall2_nil. Qed.

Lemma s3_matrix_is_computed (h : Z) :
  mtxMul mtxFlipV
    (cropMatrix (shrunkCrop (mkRect 1 1 255 255) (mkGraphicBuffer h 256 256)))
  = s3Matrix.
Proof. vm_compute. reflexivity. Qed.

(** C5.  For transform flags 0, crop (left 1, top 1, right 255, bottom 255)
    and a 256 x 256 buffer, the composer computes [tx] and [ty] equal to
    2/256 and [sx] and [sy] equal to (254 - 2)/256, exactly, and the matrix
    it stores has the sixteen entries
    (252/256, 0, 0, 0;  0, -252/256, 0, 0;  0, 0, 1, 0;  2/256, 254/256, 0, 1),
    exactly; these are, entry by entry, the entries of [FLIP_V] multiplied by
    the crop matrix with diagonal (sx, sy, 1, 1) and translation column
    (tx, ty, 0, 1), both in the arithmetic of the rationals and as the code's
    [mtxMul] computes the product in binary32. *)
Theorem s3_crop_matrix (s : SurfaceTexture) (h : Z) :
  mCurrentTransform s = 0 ->
  mCurrentCrop s = mkRect 1 1 255 255 ->
  mCurrentTextureBuf s = Some (mkGraphicBuffer h 256 256) ->
  exists tx ty sx sy : F32.float,
    shrunkCrop (mCurrentCrop s) (mkGraphicBuffer h 256 256) = (tx, ty, sx, sy) /\
    represents tx (2 # 256) /\
    represents ty (2 # 256) /\
    represents sx ((254 - 2) # 256) /\
    represents sy ((254 - 2) # 256) /\
    computeCurrentTransformMatrix s
    = Returned tt (set_mCurrentTransformMatrix s s3Matrix) [] /\
    Forall2 represents s3Matrix s3Entries /\
    Forall2 Qeq s3Entries
      (exactMul flipVExact
         (cropExact (2 # 256) (2 # 256) ((254 - 2) # 256) ((254 - 2) # 256))) /\
    s3Matrix
    = mtxMul mtxFlipV
        [ sx; F32.zero; F32.zero; F32.zero;
          F32.zero; sy; F32.zero; F32.zero;
          F32.zero; F32.zero; F32.one; F32.zero;
          tx; ty; F32.zero; F32.one ].
Proof.
  intros Hflags Hcrop Hbuf.
  exists (F32.div (F32.of_int 2) (F32.of_int 256)),
         (F32.div (F32.of_int 2) (F32.of_int 256)),
         (F32.div (F32.of_int (254 - 2)) (F32.of_int 256)),
         (F32.div (F32.of_int (254 - 2)) (F32.of_int 256)).
  destruct s3_values as [Ht Hs].
  rewrite Hcrop.
  split; [apply s3_shrunkCrop|].
  repeat (split; [assumption|]).
  split; [|split; [exact s3_matrix_entries|
                   split; [exact s3_entries_are_the_product|]]].
  - rewrite (compose_without_flags s Hflags).
    unfold function. rewrite bind_get, Hcrop.
    replace (isEmpty (mkRect 1 1 255 255)) with false by reflexivity.
    cbn [negb].
    rewrite bind_assoc, (bind_deref_some _ _ _ _ Hbuf), bind_ret.
    unfold modify.
    rewrite s3_crop_times_identity, s3_matrix_is_computed. reflexivity.
  - rewrite <- (s3_matrix_is_computed h), s3_shrunkCrop. reflexivity.
Qed.

Lemma s3_crop_matrix_witness :
  exists tx ty sx sy : F32.float,
    shrunkCrop (mCurrentCrop
                  (set_mCurrentCrop Sample.oneFrame (mkRect 1 1 255 255)))
               (mkGraphicBuffer 100 256 256) = (tx, ty, sx, sy) /\
    represents tx (2 # 256) /\
    represents ty (2 # 256) /\
    represents sx ((254 - 2) # 256) /\
    represents sy ((254 - 2) # 256) /\
    computeCurrentTransformMatrix
      (set_mCurrentCrop Sample.oneFrame (mkRect 1 1 255 255))
    = Returned tt
        (set_mCurrentTransformMatrix
           (set_mCurrentCrop Sample.oneFrame (mkRect 1 1 255 255)) s3Matrix)
        [] /\
    Forall2 represents s3Matrix s3Entries /\
    Forall2 Qeq s3Entries
      (exactMul flipVExact
         (cropExact (2 # 256) (2 # 256) ((254 - 2) # 256) ((254 - 2) # 256))) /\
    s3Matrix
    = mtxMul mtxFlipV
        [ sx; F32.zero; F32.zero; F32.zero;
          F32.zero; sy; F32.zero; F32.zero;
          F32.zero; F32.zero; F32.one; F32.zero;
          tx; ty; F32.zero; F32.one ].
Proof.
  apply (s3_crop_matrix (set_mCurrentCrop Sample.oneFrame (mkRect 1 1 255 255)) 100);
    reflexivity.
Defined.

End ComposerFacts.

(** ** Slot table *)

Section SlotFacts.

Lemma updateNth_length n f slots :
  List.length (updateNth n f slots) = List.length slots.
Proof.
  revert n. induction slots as [|x rest IH]; intros [|n]; cbn; auto.
Qed.

Lemma nth_updateNth_same n f slots d :
  (n < List.length slots)%nat ->
  nth n (updateNth n f slots) d = f (nth n slots d).
Proof.
  revert n. induction slots as [|x rest IH]; intros [|n] H; cbn in *;
    try lia; auto.
  apply IH. lia.
Qed.

Lemma nth_updateNth_other n m f slots d :
  n <> m -> nth m (updateNth n f slots) d = nth m slots d.
Proof.
  revert n m. induction slots as [|x rest IH]; intros [|n] [|m] H; cbn;
    try congruence; auto.
Qed.

Lemma nth_updateNth_beyond n f slots :
  (List.length slots <= n)%nat -> updateNth n f slots = slots.
Proof.
  revert n. induction slots as [|x rest IH]; intros [|n] H; cbn in *;
    try lia; auto.
  f_equal. apply IH. lia.
Qed.

Lemma updateNth_twice n f g slots :
  updateNth n g (updateNth n f slots) = updateNth n (fun e => g (f e)) slots.
Proof.
  revert n. induction slots as [|x rest IH]; intros [|n]; cbn; auto.
  f_equal. apply IH.
Qed.

Lemma updateNth_agree n f g slots :
  (forall d, (n < List.length slots)%nat -> f (nth n slots d) = g (nth n slots d)) ->
  updateNth n f slots = updateNth n g slots.
Proof.
  revert n. induction slots as [|x rest IH]; intros [|n] H; cbn in *; auto.
  - f_equal. apply (H x). lia.
  - f_equal. apply IH. intros d Hlt. apply H. lia.
Qed.

Lemma updateSlot_length i f slots :
  List.length (updateSlot i f slots) = List.length slots.
Proof.
  unfold updateSlot. destruct (inBounds i); auto using updateNth_length.
Qed.

Lemma inBounds_iff i : inBounds i = true <-> 0 <= i < NUM_BUFFER_SLOTS.
Proof. unfold inBounds. rewrite andb_true_iff. lia. Qed.

Lemma slotAt_updateSlot_same st i f slots :
  inBounds i = true ->
  (Z.to_nat i < List.length slots)%nat ->
  slotAt st (updateSlot i f slots) i = f (slotAt st slots i).
Proof.
  intros Hb Hl. unfold slotAt, updateSlot. rewrite Hb.
  apply nth_updateNth_same. exact Hl.
Qed.

Lemma slotAt_updateSlot_other st i j f slots :
  i <> j -> slotAt st (updateSlot i f slots) j = slotAt st slots j.
Proof.
  intros Hne. unfold slotAt, updateSlot.
  destruct (inBounds j) eqn:Hj; [|reflexivity].
  destruct (inBounds i) eqn:Hi; [|reflexivity].
  apply nth_updateNth_other.
  apply inBounds_iff in Hi, Hj. lia.
Qed.

(** A store into one field leaves the other fields of every slot alone. *)
Lemma slotAt_updateSlot_field {A} (proj : EGLSlot -> A) st i j f slots :
  (forall e, proj (f e) = proj e) ->
  proj (slotAt st (updateSlot i f slots) j) = proj (slotAt st slots j).
Proof.
  intros Hf. destruct (Z.eq_dec i j) as [->|Hne].
  - unfold slotAt, updateSlot. destruct (inBounds j) eqn:Hj; [|reflexivity].
    destruct (Nat.lt_ge_cases (Z.to_nat j) (List.length slots)) as [Hl|Hl].
    + rewrite nth_updateNth_same by exact Hl. apply Hf.
    + rewrite nth_updateNth_beyond by exact Hl. reflexivity.
  - rewrite slotAt_updateSlot_other by exact Hne. reflexivity.
Qed.

Lemma updateSlot_twice i f g slots :
  updateSlot i g (updateSlot i f slots) = updateSlot i (fun e => g (f e)) slots.
Proof.
  unfold updateSlot. destruct (inBounds i); auto using updateNth_twice.
Qed.

(** Clearing the buffer of a slot that has no image frees it. *)
Lemma clear_buffer_of_imageless st i slots :
  mEglImage (slotAt st slots i) = EGL_NO_IMAGE_KHR ->
  updateSlot i (withGraphicBuffer None) slots = updateSlot i freeSlot slots.
Proof.
  unfold slotAt, updateSlot. destruct (inBounds i); [|reflexivity].
  intros H. apply updateNth_agree. intros d Hl.
  rewrite (nth_indep slots d st Hl).
  unfold withGraphicBuffer, freeSlot. rewrite H. reflexivity.
Qed.

Lemma freeSlot_idempotent e : freeSlot (freeSlot e) = freeSlot e.
Proof. reflexivity. Qed.

Lemma neq_false_iff a b : (a != b) = false <-> a = b.
Proof. rewrite negb_false_iff. apply Z.eqb_eq. Qed.

Lemma neq_true_iff a b : (a != b) = true <-> a <> b.
Proof. rewrite negb_true_iff. apply Z.eqb_neq. Qed.

(** What [freeBufferLocked] does, for every index: the store of the null
    buffer comes first, the image is destroyed after it. *)
Lemma freeBufferLocked_spec env i s :
  freeBufferLocked env i s
  = Returned tt
      (set_mEGLSlots s (updateSlot i freeSlot (mEGLSlots s)))
      (freeTrace (mEglDisplay s) (mEglImage (slotAt (stray env) (mEGLSlots s) i)) i).
Proof.
  unfold freeBufferLocked, function, freeTrace.
  unfold writeGraphicBuffer, readEglImage, writeEglImage, writeSlot, readSlot.
  unfold bind at 1. cbn [prefixed].
  unfold bind at 1. cbn [mEGLSlots set_mEGLSlots].
  rewrite (slotAt_updateSlot_field mEglImage) by reflexivity.
  destruct (mEglImage (slotAt (stray env) (mEGLSlots s) i) != EGL_NO_IMAGE_KHR)
    eqn:Himg; cbn [when].
  - unfold bind at 1. cbn [mEGLSlots set_mEGLSlots].
    rewrite (slotAt_updateSlot_field mEglImage) by reflexivity.
    rewrite Himg. cbn [when].
    rewrite bind_assoc, bind_get, bind_emit. cbn.
    rewrite updateSlot_twice. reflexivity.
  - apply neq_false_iff in Himg. cbn.
    rewrite (clear_buffer_of_imageless (stray env)) by exact Himg.
    reflexivity.
Qed.

End SlotFacts.

(** ** Freeing a slot *)

Section FreeFacts.

(** C9, as the code has it.  Freeing a slot of the table first clears the
    slot's native buffer reference and then, if the slot holds a GPU image,
    destroys the image and clears the image handle, in that order; afterwards
    both fields are empty, and freeing the slot again changes nothing. *)
Theorem freeBufferLocked_clears_then_destroys env s i :
  inBounds i = true ->
  fullTable s ->
  let img := mEglImage (slotAt (stray env) (mEGLSlots s) i) in
  exists s' : SurfaceTexture,
    freeBufferLocked env i s
    = Returned tt s'
        (SlotWrite i FGraphicBuffer :: SlotRead i FEglImage ::
         (if img != EGL_NO_IMAGE_KHR
          then [SlotRead i FEglImage; EglDestroyImageKHR (mEglDisplay s) img;
                SlotWrite i FEglImage]
          else [])) /\
    (img <> EGL_NO_IMAGE_KHR ->
     precedes (isClearBuffer i) isDestroyImage
       (traceOf (freeBufferLocked env i s)) = true) /\
    slotGraphicBuffer (slotAt (stray env) (mEGLSlots s') i) = None /\
    mEglImage (slotAt (stray env) (mEGLSlots s') i) = EGL_NO_IMAGE_KHR /\
    freeBufferLocked env i s'
    = Returned tt s' [SlotWrite i FGraphicBuffer; SlotRead i FEglImage].
Proof.
  intros Hb Hfull img.
  assert (Hl : (Z.to_nat i < List.length (mEGLSlots s))%nat).
  { rewrite Hfull. apply inBounds_iff in Hb. unfold NUM_BUFFER_SLOTS in *. lia. }
  exists (set_mEGLSlots s (updateSlot i freeSlot (mEGLSlots s))).
  split; [apply freeBufferLocked_spec|].
  split.
  { intros Himg. rewrite freeBufferLocked_spec. fold img.
    apply neq_true_iff in Himg. unfold traceOf, freeTrace. rewrite Himg.
    unfold precedes. cbn. rewrite Z.eqb_refl. reflexivity. }
  cbn [mEGLSlots set_mEGLSlots].
  rewrite (slotAt_updateSlot_same _ _ _ _ Hb Hl).
  split; [reflexivity|]. split; [reflexivity|].
  rewrite freeBufferLocked_spec. cbn [mEGLSlots set_mEGLSlots mEglDisplay].
  rewrite (slotAt_updateSlot_same _ _ _ _ Hb Hl).
  rewrite updateSlot_twice. reflexivity.
Qed.

Lemma freeBufferLocked_clears_then_destroys_witness :
  exists s' : SurfaceTexture,
    freeBufferLocked (Sample.good 0) 0 Sample.oneFrame
    = Returned tt s'
        [SlotWrite 0 FGraphicBuffer; SlotRead 0 FEglImage;
         SlotRead 0 FEglImage; EglDestroyImageKHR 1 50;
         SlotWrite 0 FEglImage] /\
    (50 <> EGL_NO_IMAGE_KHR ->
     precedes (isClearBuffer 0) isDestroyImage
       (traceOf (freeBufferLocked (Sample.good 0) 0 Sample.oneFrame)) = true) /\
    slotGraphicBuffer (slotAt emptySlot (mEGLSlots s') 0) = None /\
    mEglImage (slotAt emptySlot (mEGLSlots s') 0) = EGL_NO_IMAGE_KHR /\
    freeBufferLocked (Sample.good 0) 0 s'
    = Returned tt s' [SlotWrite 0 FGraphicBuffer; SlotRead 0 FEglImage].
Proof.
  apply (freeBufferLocked_clears_then_destroys (Sample.good 0) Sample.oneFrame 0);
    reflexivity.
Defined.

(** C9, as the specification words it, fails: on a slot that holds a buffer
    and an image the buffer reference is cleared before the image is
    destroyed, not after. *)
Lemma free_destroys_image_first_counterexample :
  traceOf (freeBufferLocked (Sample.good 0) 0 Sample.oneFrame)
  = [SlotWrite 0 FGraphicBuffer; SlotRead 0 FEglImage;
     SlotRead 0 FEglImage; EglDestroyImageKHR 1 50; SlotWrite 0 FEglImage] /\
  precedes isDestroyImage (isClearBuffer 0)
    (traceOf (freeBufferLocked (Sample.good 0) 0 Sample.oneFrame)) = false /\
  precedes (isClearBuffer 0) isDestroyImage
    (traceOf (freeBufferLocked (Sample.good 0) 0 Sample.oneFrame)) = true.
Proof. repeat (apply conj; [vm_compute; reflexivity|]). vm_compute. reflexivity. Qed.

End FreeFacts.

(** ** The buffers-released callback *)

Section ReleasedFacts.

(** The mask test of the loop reads bit [i] of the mask. *)
Lemma mask_test_bit mask i :
  0 <= i < NUM_BUFFER_SLOTS ->
  Z.testbit mask i = true ->
  (Z.land mask (Int.uint32 (Z.shiftl 1 i)) != 0) = true.
Proof.
  intros Hi Hbit. unfold NUM_BUFFER_SLOTS in Hi.
  assert (Hpow : Int.uint32 (Z.shiftl 1 i) = 2 ^ i).
  { unfold Int.uint32. rewrite Z.shiftl_mul_pow2, Z.mul_1_l by lia.
    apply Z.mod_small. split; [apply Z.pow_nonneg; lia|].
    apply Z.pow_lt_mono_r; lia. }
  rewrite Hpow. apply neq_true_iff. intros Hzero.
  assert (Hb : Z.testbit (Z.land mask (2 ^ i)) i = true).
  { rewrite Z.land_spec, Hbit, Z.pow2_bits_true by lia. reflexivity. }
  rewrite Hzero, Z.bits_0 in Hb. discriminate.
Qed.

Lemma freeMasked_length mask n i slots :
  List.length (freeMasked mask n i slots) = List.length slots.
Proof.
  revert i slots. induction n as [|n IH]; intros i slots; cbn; [reflexivity|].
  rewrite IH. destruct (_ != 0); auto using updateSlot_length.
Qed.

(** The loop never comes back to a smaller index. *)
Lemma freeMasked_below st mask n i slots j :
  j < i -> slotAt st (freeMasked mask n i slots) j = slotAt st slots j.
Proof.
  revert i slots. induction n as [|n IH]; intros i slots Hj; cbn; [reflexivity|].
  rewrite IH by lia.
  destruct (_ != 0); [|reflexivity].
  apply slotAt_updateSlot_other. lia.
Qed.

(** A slot whose bit is set is freed when the loop passes it. *)
Lemma freeMasked_reclaimed st mask n i slots j :
  0 <= i -> i <= j < i + Z.of_nat n ->
  j < NUM_BUFFER_SLOTS ->
  (Z.to_nat j < List.length slots)%nat ->
  Z.testbit mask j = true ->
  slotAt st (freeMasked mask n i slots) j = freeSlot (slotAt st slots j).
Proof.
  revert i slots. induction n as [|n IH]; intros i slots Hi Hj Hnum Hl Hbit;
    [lia|].
  cbn [freeMasked].
  destruct (Z.eq_dec j i) as [->|Hne].
  - rewrite freeMasked_below by lia.
    rewrite mask_test_bit by (auto; lia).
    apply slotAt_updateSlot_same; [apply inBounds_iff; lia | exact Hl].
  - rewrite IH; try lia; auto.
    + destruct (_ != 0); [|reflexivity].
      rewrite slotAt_updateSlot_other by lia. reflexivity.
    + destruct (_ != 0); [rewrite updateSlot_length|]; exact Hl.
Qed.

(** The loop of [onBuffersReleased] only writes the slot table. *)
Lemma release_loop env mask n i s :
  exists t : Trace,
    forUpTo (R := unit) n i
      (fun i => when (Z.land mask (Int.uint32 (Z.shiftl 1 i)) != 0)
                  (call (freeBufferLocked env i))) s
    = Next tt (set_mEGLSlots s (freeMasked mask n i (mEGLSlots s))) t.
Proof.
  revert i s. induction n as [|n IH]; intros i s.
  - exists []. destruct s; reflexivity.
  - cbn [forUpTo freeMasked]. unfold bind at 1.
    destruct (Z.land mask (Int.uint32 (Z.shiftl 1 i)) != 0); cbn [when].
    + unfold call at 1. rewrite freeBufferLocked_spec.
      destruct (IH (i + 1)
                  (set_mEGLSlots s (updateSlot i freeSlot (mEGLSlots s))))
        as [t Ht].
      rewrite Ht. cbn [prefixed]. eexists. reflexivity.
    + unfold ret at 1. destruct (IH (i + 1) s) as [t Ht].
      rewrite Ht. cbn [prefixed]. eexists. reflexivity.
Qed.

(** On a live instance the callback frees the reported slots and resets the
    current slot. *)
Lemma onBuffersReleased_live env s q :
  mAbandoned s = false ->
  mBufferQueue s = Some q ->
  exists t : Trace,
    onBuffersReleased env s
    = Returned tt
        (set_mCurrentTexture
           (set_mEGLSlots s
              (freeMasked (getReleasedBuffers env) (Z.to_nat NUM_BUFFER_SLOTS) 0
                 (mEGLSlots s)))
           INVALID_BUFFER_SLOT)
        t.
Proof.
  intros Hlive Hq.
  destruct (release_loop env (getReleasedBuffers env)
              (Z.to_nat NUM_BUFFER_SLOTS) 0 s) as [t Ht].
  unfold onBuffersReleased, function.
  rewrite bind_get, Hlive. cbn [when].
  rewrite bind_ret, (bind_queueCall_some _ _ _ q Hq).
  unfold bind at 1. rewrite Ht. cbn.
  eexists. reflexivity.
Qed.

(** C7.  On an instance that was not abandoned, with the queue reporting the
    mask [getReleasedBuffers env], [onBuffersReleased] returns; every slot
    whose bit is set in the mask has neither a GPU image nor a native buffer
    afterwards; the current slot is [INVALID_BUFFER_SLOT]; the current
    buffer, crop, transform flags, scaling mode, timestamp and matrix are the
    ones from before. *)
Theorem onBuffersReleased_frees_reclaimed env s :
  mAbandoned s = false ->
  attached s ->
  fullTable s ->
  exists (s' : SurfaceTexture) (t : Trace),
    onBuffersReleased env s = Returned tt s' t /\
    (forall S, 0 <= S < NUM_BUFFER_SLOTS ->
       Z.testbit (getReleasedBuffers env) S = true ->
       mEglImage (slotAt (stray env) (mEGLSlots s') S) = EGL_NO_IMAGE_KHR /\
       slotGraphicBuffer (slotAt (stray env) (mEGLSlots s') S) = None) /\
    mCurrentTexture s' = INVALID_BUFFER_SLOT /\
    mCurrentTextureBuf s' = mCurrentTextureBuf s /\
    mCurrentCrop s' = mCurrentCrop s /\
    mCurrentTransform s' = mCurrentTransform s /\
    mCurrentScalingMode s' = mCurrentScalingMode s /\
    mCurrentTimestamp s' = mCurrentTimestamp s /\
    mCurrentTransformMatrix s' = mCurrentTransformMatrix s.
Proof.
  intros Hlive Hatt Hfull.
  destruct (mBufferQueue s) as [q|] eqn:Hq; [|exfalso; apply (Hatt Hlive Hq)].
  destruct (onBuffersReleased_live env s q Hlive Hq) as [t Ht].
  eexists. exists t. split; [exact Ht|]. cbn.
  split; [|repeat split].
  intros S HS Hbit.
  rewrite (freeMasked_reclaimed (stray env)); try (unfold NUM_BUFFER_SLOTS in *; lia);
    auto.
  rewrite Hfull. unfold NUM_BUFFER_SLOTS in *. lia.
Qed.

Lemma onBuffersReleased_frees_reclaimed_witness :
  exists (s' : SurfaceTexture) (t : Trace),
    onBuffersReleased (Sample.released 7) Sample.threeFrames = Returned tt s' t /\
    (forall S, 0 <= S < NUM_BUFFER_SLOTS ->
       Z.testbit 7 S = true ->
       mEglImage (slotAt emptySlot (mEGLSlots s') S) = EGL_NO_IMAGE_KHR /\
       slotGraphicBuffer (slotAt emptySlot (mEGLSlots s') S) = None) /\
    mCurrentTexture s' = INVALID_BUFFER_SLOT /\
    mCurrentTextureBuf s' = Some (Sample.buffer 102) /\
    mCurrentCrop s' = Sample.fullCrop /\
    mCurrentTransform s' = 0 /\
    mCurrentScalingMode s' = 0 /\
    mCurrentTimestamp s' = 1002 /\
    mCurrentTransformMatrix s' = mCurrentTransformMatrix Sample.threeFrames.
Proof.
  apply (onBuffersReleased_frees_reclaimed (Sample.released 7) Sample.threeFrames).
  - reflexivity.
  - vm_compute. discriminate.
  - reflexivity.
Defined.

End ReleasedFacts.

(** ** Abandon *)

Section AbandonFacts.

(** The loop of [abandon] only writes the slot table. *)
Lemma abandon_loop env n i s :
  exists t : Trace,
    forUpTo (R := unit) n i (fun i => call (freeBufferLocked env i)) s
    = Next tt (set_mEGLSlots s (freeRange n i (mEGLSlots s))) t.
Proof.
  revert i s. induction n as [|n IH]; intros i s.
  - exists []. destruct s; reflexivity.
  - cbn [forUpTo freeRange]. unfold bind at 1, call at 1.
    rewrite freeBufferLocked_spec.
    destruct (IH (i + 1) (set_mEGLSlots s (updateSlot i freeSlot (mEGLSlots s))))
      as [t Ht].
    rewrite Ht. cbn [prefixed]. eexists. reflexivity.
Qed.

Lemma abandon_again env s :
  mAbandoned s = true -> abandon env s = Returned tt s [].
Proof.
  intros H. unfold abandon, function. rewrite bind_get, H. reflexivity.
Qed.

(** The first [abandon] sets the flag, drops the current buffer, frees the
    slots and lets go of the queue. *)
Lemma abandon_first env s q :
  mAbandoned s = false ->
  mBufferQueue s = Some q ->
  exists t : Trace,
    abandon env s
    = Returned tt
        (set_mBufferQueue
           (set_mEGLSlots
              (set_mCurrentTextureBuf (set_mAbandoned s true) None)
              (freeRange (Z.to_nat NUM_BUFFER_SLOTS) 0 (mEGLSlots s)))
           None)
        t.
Proof.
  intros Hlive Hq. unfold abandon, function.
  rewrite bind_get, Hlive. cbn [negb when].
  rewrite bind_modify, bind_modify.
  destruct (abandon_loop env (Z.to_nat NUM_BUFFER_SLOTS) 0
              (set_mCurrentTextureBuf (set_mAbandoned s true) None)) as [t Ht].
  unfold bind at 1. rewrite Ht.
  rewrite (bind_queueCall_some _ _ _ q) by exact Hq.
  cbn. eexists. reflexivity.
Qed.

Lemma updateTexImage_abandoned env s :
  mAbandoned s = true -> updateTexImage env s = Returned NO_INIT s [].
Proof.
  intros H. unfold updateTexImage, function. rewrite bind_get, H. reflexivity.
Qed.

Lemma onBuffersReleased_abandoned env s :
  mAbandoned s = true -> onBuffersReleased env s = Returned tt s [].
Proof.
  intros H. unfold onBuffersReleased, function. rewrite bind_get, H. reflexivity.
Qed.

(** C1, as the code has it.  [abandon] returns and leaves the instance
    abandoned; from then on [updateTexImage] changes nothing and returns
    [NO_INIT], [onBuffersReleased] and a further [abandon] change nothing,
    and the accessors change nothing and return the stored values. *)
Theorem abandoned_instance_is_inert env s :
  attached s ->
  exists (s' : SurfaceTexture) (t : Trace),
    abandon env s = Returned tt s' t /\
    mAbandoned s' = true /\
    (forall env', updateTexImage env' s' = Returned NO_INIT s' []) /\
    (forall env', onBuffersReleased env' s' = Returned tt s' []) /\
    (forall env', abandon env' s' = Returned tt s' []) /\
    getTimestamp s' = Returned (mCurrentTimestamp s) s' [] /\
    getCurrentCrop s' = Returned (mCurrentCrop s) s' [] /\
    getCurrentTransform s' = Returned (mCurrentTransform s) s' [] /\
    getCurrentScalingMode s' = Returned (mCurrentScalingMode s) s' [] /\
    getTransformMatrix s' = Returned (mCurrentTransformMatrix s) s' [] /\
    getCurrentTextureTarget s' = Returned (mTexTarget s) s' [].
Proof.
  intros Hatt.
  assert (Hinert : forall s' t,
             abandon env s = Returned tt s' t -> mAbandoned s' = true ->
             mCurrentTimestamp s' = mCurrentTimestamp s ->
             mCurrentCrop s' = mCurrentCrop s ->
             mCurrentTransform s' = mCurrentTransform s ->
             mCurrentScalingMode s' = mCurrentScalingMode s ->
             mCurrentTransformMatrix s' = mCurrentTransformMatrix s ->
             mTexTarget s' = mTexTarget s ->
             exists (s' : SurfaceTexture) (t : Trace),
               abandon env s = Returned tt s' t /\
               mAbandoned s' = true /\
               (forall env', updateTexImage env' s' = Returned NO_INIT s' []) /\
               (forall env', onBuffersReleased env' s' = Returned tt s' []) /\
               (forall env', abandon env' s' = Returned tt s' []) /\
               getTimestamp s' = Returned (mCurrentTimestamp s) s' [] /\
               getCurrentCrop s' = Returned (mCurrentCrop s) s' [] /\
               getCurrentTransform s' = Returned (mCurrentTransform s) s' [] /\
               getCurrentScalingMode s' = Returned (mCurrentScalingMode s) s' [] /\
               getTransformMatrix s' = Returned (mCurrentTransformMatrix s) s' [] /\
               getCurrentTextureTarget s' = Returned (mTexTarget s) s' []).
  { intros s' t Hrun Hdead H1 H2 H3 H4 H5 H6. exists s', t.
    split; [exact Hrun|]. split; [exact Hdead|].
    split; [intros; apply updateTexImage_abandoned; exact Hdead|].
    split; [intros; apply onBuffersReleased_abandoned; exact Hdead|].
    split; [intros; apply abandon_again; exact Hdead|].
    unfold getTimestamp, getCurrentCrop, getCurrentTransform,
      getCurrentScalingMode, getTransformMatrix, getCurrentTextureTarget,
      function, get.
    rewrite H1, H2, H3, H4, H5, H6. repeat split. }
  destruct (mAbandoned s) eqn:Hdead.
  - apply (Hinert s []); auto using abandon_again.
  - destruct (mBufferQueue s) as [q|] eqn:Hq; [|exfalso; apply (Hatt Hdead Hq)].
    destruct (abandon_first env s q Hdead Hq) as [t Ht].
    eapply Hinert; [exact Ht|..]; reflexivity.
Qed.

Lemma abandoned_instance_is_inert_witness :
  exists (s' : SurfaceTexture) (t : Trace),
    abandon (Sample.good 0) Sample.oneFrame = Returned tt s' t /\
    mAbandoned s' = true /\
    (forall env', updateTexImage env' s' = Returned NO_INIT s' []) /\
    (forall env', onBuffersReleased env' s' = Returned tt s' []) /\
    (forall env', abandon env' s' = Returned tt s' []) /\
    getTimestamp s' = Returned 1000 s' [] /\
    getCurrentCrop s' = Returned Sample.fullCrop s' [] /\
    getCurrentTransform s' = Returned 0 s' [] /\
    getCurrentScalingMode s' = Returned 0 s' [] /\
    getTransformMatrix s' = Returned (mCurrentTransformMatrix Sample.oneFrame) s' [] /\
    getCurrentTextureTarget s' = Returned 36197 s' [].
Proof.
  apply (abandoned_instance_is_inert (Sample.good 0) Sample.oneFrame).
  vm_compute. discriminate.
Defined.

(** C1, as the specification words it, fails: on the abandoned instance
    [getTimestamp] returns the stored timestamp and not [NO_INIT], and
    [setDefaultBufferSize], [setName] and [isSynchronousMode] go through the
    queue reference that [abandon] cleared instead of returning. *)
Lemma abandoned_operations_counterexample :
  mAbandoned Sample.abandoned = true /\
  getTimestamp Sample.abandoned = Returned 1000 Sample.abandoned [] /\
  1000 <> NO_INIT /\
  setDefaultBufferSize (Sample.good 0) 1 1 Sample.abandoned = NullDereference [] /\
  setName "renamed" Sample.abandoned = NullDereference [] /\
  isSynchronousMode (Sample.good 0) Sample.abandoned = NullDereference [].
Proof.
  repeat (apply conj; [first [vm_compute; reflexivity | discriminate]|]).
  vm_compute. reflexivity.
Qed.

End AbandonFacts.

(** ** [updateTexImage]: the checks and the acquire *)

Section AcquireFacts.

Lemma display_check_passes (latched current none : Z) :
  latched = current \/ latched = none ->
  (latched != current) && (latched != none) = false.
Proof.
  intros [->| ->].
  - rewrite Z.eqb_refl. reflexivity.
  - rewrite Z.eqb_refl. apply andb_false_r.
Qed.

(** [updateTexImage] up to the call of [acquireBuffer]. *)
Lemma updateTexImage_to_acquire env s q :
  mAbandoned s = false ->
  mBufferQueue s = Some q ->
  checksPass env s ->
  forall rest : Stmt status_t status_t,
    (abandoned <- get mAbandoned ;;
     when abandoned (returns NO_INIT) ;;
     display <- get mEglDisplay ;;
     when ((display != eglGetCurrentDisplay env) && (display != EGL_NO_DISPLAY))
       (returns (- EINVAL)) ;;
     context <- get mEglContext ;;
     when ((context != eglGetCurrentContext env) && (context != EGL_NO_CONTEXT))
       (returns (- EINVAL)) ;;
     modify (fun s => set_mEglDisplay s (eglGetCurrentDisplay env)) ;;
     modify (fun s => set_mEglContext s (eglGetCurrentContext env)) ;;
     queueCall AcquireBuffer ;;
     rest) s
    = prefixed [AcquireBuffer]
        (rest (set_mEglContext
                    (set_mEglDisplay s (eglGetCurrentDisplay env))
                    (eglGetCurrentContext env))).
Proof.
  intros Hlive Hq [Hd Hc] rest.
  rewrite bind_get, Hlive. cbn [when]. rewrite bind_ret.
  rewrite bind_get, (display_check_passes _ _ _ Hd). cbn [when]. rewrite bind_ret.
  rewrite bind_get, (display_check_passes _ _ _ Hc). cbn [when]. rewrite bind_ret.
  rewrite bind_modify, bind_modify.
  rewrite (bind_queueCall_some _ _ _ q) by exact Hq.
  reflexivity.
Qed.

(** C3, as the code has it.  When [acquireBuffer] does not succeed, whatever
    the error it reports, [updateTexImage] binds the existing texture to the
    texture target and returns [OK]; the display and the context are latched
    and nothing else of the state changes.  No error of [acquireBuffer] is
    passed through. *)
Theorem failed_acquire_binds_and_returns_OK env s :
  mAbandoned s = false ->
  attached s ->
  checksPass env s ->
  fst (acquireBuffer env) <> NO_ERROR ->
  updateTexImage env s
  = Returned OK
      (set_mEglContext (set_mEglDisplay s (eglGetCurrentDisplay env))
         (eglGetCurrentContext env))
      [AcquireBuffer; GlBindTexture (mTexTarget s) (mTexName s)].
Proof.
  intros Hlive Hatt Hchecks Herr.
  destruct (mBufferQueue s) as [q|] eqn:Hq; [|exfalso; apply (Hatt Hlive Hq)].
  unfold updateTexImage, function.
  rewrite (updateTexImage_to_acquire env s q Hlive Hq Hchecks).
  destruct (acquireBuffer env) as [status item]. cbn [fst] in Herr.
  apply Z.eqb_neq in Herr. rewrite Herr.
  reflexivity.
Qed.

Lemma failed_acquire_binds_and_returns_OK_witness :
  updateTexImage (Sample.acquireFails (- 38)) Sample.oneFrame
  = Returned OK
      (set_mEglContext (set_mEglDisplay Sample.oneFrame 1) 1)
      [AcquireBuffer; GlBindTexture 36197 7].
Proof.
  apply (failed_acquire_binds_and_returns_OK (Sample.acquireFails (- 38))
           Sample.oneFrame).
  - reflexivity.
  - vm_compute. discriminate.
  - vm_compute. auto.
  - vm_compute. discriminate.
Defined.

(** C3, as the specification words it, fails: two different errors of
    [acquireBuffer] (at most one of them can mean "no buffer available")
    both end in [OK]; neither is passed through. *)
Lemma acquire_error_pass_through_counterexample :
  updateTexImage (Sample.acquireFails (- 38)) Sample.oneFrame
  = Returned OK Sample.oneFrame [AcquireBuffer; GlBindTexture 36197 7] /\
  updateTexImage (Sample.acquireFails NO_INIT) Sample.oneFrame
  = Returned OK Sample.oneFrame [AcquireBuffer; GlBindTexture 36197 7] /\
  OK <> - 38 /\ OK <> NO_INIT /\ - 38 <> NO_INIT.
Proof.
  repeat (apply conj; [first [vm_compute; reflexivity | discriminate]|]).
  discriminate.
Qed.

End AcquireFacts.

(** ** [updateTexImage]: what the error paths leave behind *)

Section ErrorPaths.

(** C2 at an input where the code misses it.  On a fresh instance the queue
    hands out slot 0 with a new buffer and image creation fails:
    [updateTexImage] returns [-EINVAL], the current slot, buffer, crop,
    flags, scaling mode, timestamp and matrix are the ones from before, the
    new buffer stays installed in slot 0, but slot 0 is not released back to
    the queue.  Likewise when the queue hands out a slot that has neither an
    image nor a buffer ([BAD_VALUE]).  The bind failure and the fence failure
    do release the slot. *)
Theorem image_failure_does_not_release :
  (* image creation fails *)
  updateTexImage (Sample.env (NO_ERROR, Sample.newFrame 0) EGL_NO_IMAGE_KHR [] 9)
    Sample.fresh
  = Returned (- EINVAL)
      (set_mEGLSlots
         (set_mEglContext (set_mEglDisplay Sample.fresh 1) 1)
         (updateSlot 0 (withGraphicBuffer (Some (Sample.buffer 100)))
            (mEGLSlots Sample.fresh)))
      [AcquireBuffer; SlotWrite 0 FGraphicBuffer; SlotRead 0 FEglImage;
       SlotWrite 0 FGraphicBuffer; SlotRead 0 FEglImage;
       EglCreateImageKHR 1 (Sample.buffer 100); SlotWrite 0 FEglImage] /\
  (* the slot has neither image nor buffer *)
  updateTexImage (Sample.env (NO_ERROR, Sample.oldFrame 0) 50 [] 9) Sample.fresh
  = Returned BAD_VALUE
      (set_mEglContext (set_mEglDisplay Sample.fresh 1) 1)
      [AcquireBuffer; SlotRead 0 FEglImage] /\
  (* the bind fails *)
  updateTexImage (Sample.env (NO_ERROR, Sample.newFrame 0) 50 [1282] 9) Sample.fresh
  = Returned (- EINVAL)
      (set_mEGLSlots
         (set_mEglContext (set_mEglDisplay Sample.fresh 1) 1)
         (updateSlot 0 (fun _ => mkEGLSlot (Some (Sample.buffer 100)) 50 0)
            (mEGLSlots Sample.fresh)))
      [AcquireBuffer; SlotWrite 0 FGraphicBuffer; SlotRead 0 FEglImage;
       SlotWrite 0 FGraphicBuffer; SlotRead 0 FEglImage;
       EglCreateImageKHR 1 (Sample.buffer 100); SlotWrite 0 FEglImage;
       GlBindTexture 36197 7; GlEGLImageTargetTexture2DOES 36197 50;
       SlotRead 0 FFence; ReleaseBuffer 0 1 0] /\
  (* fence creation fails *)
  updateTexImage (Sample.env (NO_ERROR, Sample.newFrame 1) 51 [] EGL_NO_SYNC_KHR)
    Sample.oneFrameFenced
  = Returned (- EINVAL)
      (set_mEGLSlots Sample.oneFrameFenced
         (updateSlot 1 (fun _ => mkEGLSlot (Some (Sample.buffer 101)) 51 0)
            (mEGLSlots Sample.oneFrameFenced)))
      [AcquireBuffer; SlotWrite 1 FGraphicBuffer; SlotRead 1 FEglImage;
       SlotWrite 1 FGraphicBuffer; SlotRead 1 FEglImage;
       EglCreateImageKHR 1 (Sample.buffer 101); SlotWrite 1 FEglImage;
       GlBindTexture 36197 7; GlEGLImageTargetTexture2DOES 36197 51;
       EglCreateSyncKHR 1; SlotRead 1 FFence; ReleaseBuffer 1 1 0] /\
  (* no release on the first two paths, one on the last two *)
  existsb (isReleaseOf 0)
    (traceOf (updateTexImage
                (Sample.env (NO_ERROR, Sample.newFrame 0) EGL_NO_IMAGE_KHR [] 9)
                Sample.fresh)) = false /\
  existsb (isReleaseOf 0)
    (traceOf (updateTexImage
                (Sample.env (NO_ERROR, Sample.oldFrame 0) 50 [] 9)
                Sample.fresh)) = false /\
  existsb (isReleaseOf 0)
    (traceOf (updateTexImage
                (Sample.env (NO_ERROR, Sample.newFrame 0) 50 [1282] 9)
                Sample.fresh)) = true /\
  existsb (isReleaseOf 1)
    (traceOf (updateTexImage
                (Sample.env (NO_ERROR, Sample.newFrame 1) 51 [] EGL_NO_SYNC_KHR)
                Sample.oneFrameFenced)) = true.
Proof. repeat (apply conj; [vm_compute; reflexivity|]). vm_compute. reflexivity. Qed.

End ErrorPaths.

(** ** A program logic for the statements *)

Section HoareRules.

Context {R : Type}.

Lemma hoare_bind {A B} (P : SurfaceTexture -> Prop) (m : Stmt R A)
    (Q1 : A -> SurfaceTexture -> Prop) (k : A -> Stmt R B) Q E :
  hoare P m Q1 E ->
  (forall a, hoare (Q1 a) (k a) Q E) ->
  hoare P (bind m k) Q E.
Proof.
  intros Hm Hk s HP. specialize (Hm s HP). unfold bind.
  destruct (m s) as [a s1 t1 | r s1 t1 | t1]; auto.
  specialize (Hk a s1 Hm). destruct (k a s1); cbn; auto.
Qed.

Lemma hoare_strengthen {A} (P P' : SurfaceTexture -> Prop) (m : Stmt R A) Q E :
  (forall s, P s -> P' s) -> hoare P' m Q E -> hoare P m Q E.
Proof. intros HPP Hm s HP. apply Hm, HPP, HP. Qed.

Lemma hoare_ret {A} (P : SurfaceTexture -> Prop) (a : A) (Q : A -> _) E :
  (forall s, P s -> Q a s) -> hoare P (ret (R := R) a) Q E.
Proof. intros H s HP. cbn. auto. Qed.

Lemma hoare_returns {A} (P : SurfaceTexture -> Prop) (r : R) (Q : A -> _)
    (E : R -> SurfaceTexture -> Prop) :
  (forall s, P s -> E r s) -> hoare P (returns r) Q E.
Proof. intros H s HP. cbn. auto. Qed.

Lemma hoare_get {A} (P : SurfaceTexture -> Prop) (f : SurfaceTexture -> A)
    (Q : A -> _) E :
  (forall s, P s -> Q (f s) s) -> hoare P (get (R := R) f) Q E.
Proof. intros H s HP. cbn. auto. Qed.

Lemma hoare_modify (P : SurfaceTexture -> Prop) f (Q : unit -> _) E :
  (forall s, P s -> Q tt (f s)) -> hoare P (modify (R := R) f) Q E.
Proof. intros H s HP. cbn. auto. Qed.

Lemma hoare_emit (P : SurfaceTexture -> Prop) e (Q : unit -> _) E :
  (forall s, P s -> Q tt s) -> hoare P (emit (R := R) e) Q E.
Proof. intros H s HP. cbn. auto. Qed.

Lemma hoare_when (P : SurfaceTexture -> Prop) (c : bool) (body : Stmt R unit)
    (Q : unit -> _) E :
  (c = true -> hoare P body Q E) ->
  (c = false -> forall s, P s -> Q tt s) ->
  hoare P (when c body) Q E.
Proof.
  intros Ht Hf. destruct c; cbn.
  - apply Ht. reflexivity.
  - apply hoare_ret. apply Hf. reflexivity.
Qed.

Lemma hoare_readSlot {A} (P : SurfaceTexture -> Prop) env i fld
    (proj : EGLSlot -> A) (Q : A -> _) E :
  (forall s, P s -> Q (proj (slotAt (stray env) (mEGLSlots s) i)) s) ->
  hoare P (readSlot (R := R) env i fld proj) Q E.
Proof. intros H s HP. cbn. auto. Qed.

Lemma hoare_writeSlot (P : SurfaceTexture -> Prop) i fld upd (Q : unit -> _) E :
  (forall s, P s -> Q tt (set_mEGLSlots s (updateSlot i upd (mEGLSlots s)))) ->
  hoare P (writeSlot (R := R) i fld upd) Q E.
Proof. intros H s HP. cbn. auto. Qed.

Lemma hoare_deref {A} (P : SurfaceTexture -> Prop)
    (p : SurfaceTexture -> option A) (Q : A -> _) E :
  (forall s, P s -> exists a, p s = Some a /\ Q a s) ->
  hoare P (deref (R := R) p) Q E.
Proof.
  intros H s HP. destruct (H s HP) as [a [Ha HQ]]. unfold deref.
  rewrite Ha. exact HQ.
Qed.

Lemma hoare_queueCall (P : SurfaceTexture -> Prop) e (Q : unit -> _) E :
  (forall s, P s -> mBufferQueue s <> None /\ Q tt s) ->
  hoare P (queueCall (R := R) e) Q E.
Proof.
  intros H. unfold queueCall.
  apply (hoare_bind P _ (fun _ s => Q tt s)).
  - apply hoare_deref. intros s HP. destruct (H s HP) as [Hq HQ].
    destruct (mBufferQueue s) as [q|]; [eauto | congruence].
  - intros _. apply hoare_emit. auto.
Qed.

Lemma hoare_call {A} (P : SurfaceTexture -> Prop)
    (f : SurfaceTexture -> Result A) (Q : A -> _) E :
  (forall s, P s -> exists a s' t, f s = Returned a s' t /\ Q a s') ->
  hoare P (call (R' := R) f) Q E.
Proof.
  intros H s HP. destruct (H s HP) as [a [s' [t [Hf HQ]]]]. unfold call.
  rewrite Hf. exact HQ.
Qed.

End HoareRules.

(** A function whose body is correct returns. *)
Lemma hoare_function {R} (P : SurfaceTexture -> Prop) (body : Stmt R R) Q :
  hoare P body Q Q ->
  forall s, P s -> exists r s' t, function body s = Returned r s' t /\ Q r s'.
Proof.
  intros H s HP. specialize (H s HP). unfold function.
  destruct (body s); [eauto | eauto | contradiction].
Qed.

(** ** [updateTexImage] past its checks *)

Section UpdateFacts.

(** The composer returns when it has a buffer to measure the crop in. *)
Lemma compute_returns s :
  (isEmpty (mCurrentCrop s) = false -> mCurrentTextureBuf s <> None) ->
  exists m, computeCurrentTransformMatrix s
            = Returned tt (set_mCurrentTransformMatrix s m) [].
Proof.
  intros H. unfold computeCurrentTransformMatrix, function.
  rewrite bind_get, bind_get.
  destruct (isEmpty (mCurrentCrop s)) eqn:He; cbn [negb].
  - rewrite bind_ret. cbn. eexists. reflexivity.
  - destruct (mCurrentTextureBuf s) as [b|] eqn:Hb; [|exfalso; apply H; auto].
    rewrite bind_assoc, (bind_deref_some _ _ _ _ Hb), bind_ret. cbn.
    eexists. reflexivity.
Qed.

Lemma hoare_false {R A} (m : Stmt R A) Q E : hoare (fun _ => False) m Q E.
Proof. intros s []. Qed.

Lemma steady_slots env q s i f :
  steady env q s -> steady env q (set_mEGLSlots s (updateSlot i f (mEGLSlots s))).
Proof.
  unfold steady, fullTable. cbn. rewrite updateSlot_length. auto.
Qed.

Lemma bufferAt_slots env buf s i f :
  (forall e, slotGraphicBuffer (f e) = slotGraphicBuffer e) ->
  bufferAt env buf (set_mEGLSlots s (updateSlot i f (mEGLSlots s)))
  = bufferAt env buf s.
Proof.
  intros Hf. unfold bufferAt. cbn [mEGLSlots set_mEGLSlots].
  apply (slotAt_updateSlot_field slotGraphicBuffer). exact Hf.
Qed.

Lemma inBounds_in_table s i :
  inBounds i = true -> fullTable s -> (Z.to_nat i < List.length (mEGLSlots s))%nat.
Proof.
  intros Hb Hfull. rewrite Hfull. apply inBounds_iff in Hb.
  unfold NUM_BUFFER_SLOTS in *. lia.
Qed.

Lemma bufferAt_installed env buf s b :
  inBounds buf = true -> fullTable s ->
  bufferAt env buf
    (set_mEGLSlots s (updateSlot buf (withGraphicBuffer b) (mEGLSlots s))) = b.
Proof.
  intros Hb Hfull. unfold bufferAt. cbn [mEGLSlots set_mEGLSlots].
  rewrite slotAt_updateSlot_same; auto using inBounds_in_table.
Qed.

(** The two readings of the slot invariant agree on a full table. *)
Lemma slotsOK_of_Forall env s :
  fullTable s -> Forall imageHasBuffer (mEGLSlots s) -> slotsOK env s.
Proof.
  intros Hfull Hall j Hj. unfold slotAt. rewrite Hj.
  rewrite Forall_forall in Hall. apply Hall, nth_In.
  apply inBounds_in_table; assumption.
Qed.

Lemma Forall_of_slotsOK env s :
  fullTable s -> slotsOK env s -> Forall imageHasBuffer (mEGLSlots s).
Proof.
  intros Hfull Hok. apply Forall_forall. intros e Hin.
  destruct (In_nth _ _ (stray env) Hin) as [n [Hn He]].
  assert (Hj : inBounds (Z.of_nat n) = true).
  { apply inBounds_iff. rewrite Hfull in Hn. unfold NUM_BUFFER_SLOTS in *. lia. }
  specialize (Hok (Z.of_nat n) Hj). unfold slotAt in Hok.
  rewrite Hj, Nat2Z.id, He in Hok. exact Hok.
Qed.

Lemma slotsOK_split env buf s :
  othersOK env buf s ->
  imageHasBuffer (slotAt (stray env) (mEGLSlots s) buf) ->
  slotsOK env s.
Proof.
  intros Hothers Hbuf j Hj. destruct (Z.eq_dec j buf) as [->|Hne]; auto.
Qed.

(** A store into slot [buf] does not reach the other slots. *)
Lemma othersOK_store_here env buf s f :
  othersOK env buf s ->
  othersOK env buf (set_mEGLSlots s (updateSlot buf f (mEGLSlots s))).
Proof.
  intros H j Hj Hne. cbn [mEGLSlots set_mEGLSlots].
  rewrite slotAt_updateSlot_other by congruence. auto.
Qed.

(** A store of a fence keeps the invariant of every slot. *)
Lemma imageHasBuffer_store_fence st i j fence slots :
  imageHasBuffer (slotAt st slots j) ->
  imageHasBuffer (slotAt st (updateSlot i (withFence fence) slots) j).
Proof.
  unfold imageHasBuffer.
  rewrite (slotAt_updateSlot_field mEglImage) by reflexivity.
  rewrite (slotAt_updateSlot_field slotGraphicBuffer) by reflexivity.
  auto.
Qed.

Lemma othersOK_store_fence env buf s i fence :
  othersOK env buf s ->
  othersOK env buf (set_mEGLSlots s (updateSlot i (withFence fence) (mEGLSlots s))).
Proof.
  intros H j Hj Hne. cbn [mEGLSlots set_mEGLSlots].
  apply imageHasBuffer_store_fence. auto.
Qed.

Ltac prim :=
  unfold readEglImage, readFence, readGraphicBuffer,
    writeEglImage, writeFence, writeGraphicBuffer;
  first [ apply hoare_get | apply hoare_emit | apply hoare_modify
        | apply hoare_readSlot | apply hoare_writeSlot
        | apply hoare_ret | apply hoare_returns ].

Ltac keep I := apply (hoare_bind _ _ (fun _ => I)); [ | intros ? ].

(** Past its checks [updateTexImage] returns, on every path, with the
    caller's display and context latched, the queue, the size of the table
    and the slot invariant kept; when it returns an error the current frame
    is the one from before. *)
Lemma updateTexImage_past_checks env s q :
  mAbandoned s = false ->
  mBufferQueue s = Some q ->
  checksPass env s ->
  fullTable s ->
  Forall imageHasBuffer (mEGLSlots s) ->
  (fst (acquireBuffer env) = NO_ERROR ->
   inBounds (mBuf (snd (acquireBuffer env))) = true) ->
  exists r s' t,
    updateTexImage env s = Returned r s' t /\
    steady env q s' /\
    Forall imageHasBuffer (mEGLSlots s') /\
    (r <> OK -> sameCurrent s s').
Proof.
  intros Hlive Hq Hchecks Hfull Hslots Hbuf.
  pose (E := fun (r : status_t) x =>
               steady env q x /\ Forall imageHasBuffer (mEGLSlots x) /\
               (r <> OK -> sameCurrent s x)).
  unfold updateTexImage, function.
  rewrite (updateTexImage_to_acquire env s q Hlive Hq Hchecks).
  match goal with |- context [prefixed _ (?rest ?s1)] =>
    assert (H : hoare (fun x => x = s1) rest E E) end.
  2:{ specialize (H _ eq_refl).
      match goal with |- context [prefixed _ ?o] => destruct o end; cbn;
        [eauto | eauto | contradiction]. }
  destruct (acquireBuffer env) as [status item]. cbn [fst snd] in Hbuf.
  set (buf := mBuf item) in *.
  pose (Good := fun x => steady env q x /\ Forall imageHasBuffer (mEGLSlots x)).
  apply (hoare_bind _ _ (fun _ => Good));
    [|intros _; prim; intros x [Hx Hok];
      split; [exact Hx|]; split; [exact Hok|];
      intros Hne; contradiction Hne; reflexivity].
  assert (Hstart : steady env q
                     (set_mEglContext (set_mEglDisplay s (eglGetCurrentDisplay env))
                        (eglGetCurrentContext env))).
  { repeat split; cbn; auto. }
  destruct (status =? NO_ERROR) eqn:Hstatus.
  2:{ apply (hoare_strengthen _ Good).
      { intros x ->. split; [exact Hstart | exact Hslots]. }
      keep Good; [prim; auto|].
      keep Good; [prim; auto|].
      prim; auto. }
  apply Z.eqb_eq in Hstatus. specialize (Hbuf Hstatus).
  (* the facts that hold from the acquire to the commit *)
  pose (St := fun x => steady env q x /\ sameCurrent s x /\ othersOK env buf x).
  pose (here := fun x => slotAt (stray env) (mEGLSlots x) buf).
  assert (Hexit : forall r x, St x -> imageHasBuffer (here x) -> E r x).
  { intros r x [Hx [Hsame Hothers]] Hhere. split; [exact Hx|]. split; [|auto].
    apply (Forall_of_slotsOK env); [apply Hx|].
    apply (slotsOK_split env buf); assumption. }
  assert (Hqueue : forall x, St x -> mBufferQueue x <> None).
  { intros x [[_ [_ [_ [H3 _]]]] _]. congruence. }
  assert (Hstore : forall x f,
             St x -> St (set_mEGLSlots x (updateSlot buf f (mEGLSlots x)))).
  { intros x f [Hx [Hsame Hothers]].
    split; [auto using steady_slots|]. split; [exact Hsame|].
    apply othersOK_store_here, Hothers. }
  assert (Hfence : forall x i fence,
             St x -> St (set_mEGLSlots x (updateSlot i (withFence fence) (mEGLSlots x)))).
  { intros x i fence [Hx [Hsame Hothers]].
    split; [auto using steady_slots|]. split; [exact Hsame|].
    apply othersOK_store_fence, Hothers. }
  pose (I1 := fun x => St x /\
                match mGraphicBuffer item with
                | Some b => bufferAt env buf x = Some b
                | None => imageHasBuffer (here x)
                end).
  pose (I2 := fun x => St x /\ bufferAt env buf x <> None).
  assert (Hexit2 : forall r x, I2 x -> E r x).
  { intros r x [Hx Hb]. apply Hexit; [exact Hx|]. intros _. exact Hb. }
  apply (hoare_strengthen _ (fun x => St x /\ imageHasBuffer (here x))).
  { intros x ->.
    assert (Hok : slotsOK env
                    (set_mEglContext (set_mEglDisplay s (eglGetCurrentDisplay env))
                       (eglGetCurrentContext env))).
    { apply slotsOK_of_Forall; [exact Hfull | exact Hslots]. }
    split; [|apply Hok, Hbuf].
    split; [exact Hstart|]. split; [repeat split|].
    intros j Hj _. apply Hok, Hj. }
  apply (hoare_bind _ _ (fun _ => I1)).
  { (* a newly allocated buffer is installed *)
    subst I1.
    destruct (mGraphicBuffer item) as [b|] eqn:Hgb; cbn [isNull negb when].
    - apply (hoare_strengthen _ St); [intros x [Hx _]; exact Hx|].
      keep St; [prim; auto|].
      keep St; [prim; auto|].
      keep St.
      { apply hoare_when; [intros _|auto].
        keep St; [prim; auto|].
        keep St; [prim; auto|].
        prim; auto. }
      prim. intros x Hx. split; [auto|].
      apply bufferAt_installed; auto. apply Hx.
    - prim. intros x Hx. exact Hx. }
  intros _.
  apply (hoare_bind _ _ (fun image x => I1 x /\ image = mEglImage (here x))).
  { prim. auto. }
  intros image.
  apply (hoare_bind _ _ (fun _ => I2)).
  { (* the slot gets its image *)
    subst I1. destruct (image =? EGL_NO_IMAGE_KHR) eqn:Himage.
    - destruct (mGraphicBuffer item) as [b|] eqn:Hgb; cbn [isNull when].
      + apply (hoare_strengthen _ I2).
        { intros x [[Hx Hb] _]. split; [exact Hx|]. rewrite Hb. discriminate. }
        keep I2; [prim; auto|].
        unfold createImage.
        apply (hoare_bind _ _ (fun _ => I2)).
        { keep I2; [apply hoare_deref; eauto|].
          keep I2; [prim; auto|]. prim; auto. }
        intros created.
        keep I2.
        { prim. intros x [Hx Hb]. split; [auto|].
          rewrite bufferAt_slots; auto. }
        keep I2.
        { apply hoare_when; [intros _|auto]. prim. auto. }
        prim; auto.
      + apply (hoare_bind _ _ (fun _ _ => False)).
        * prim. intros x [[Hx Hb] _]. auto.
        * intros _. apply hoare_false.
    - prim. intros x [[Hx Hb] ->]. split; [exact Hx|].
      apply Z.eqb_neq in Himage.
      destruct (mGraphicBuffer item) as [b|].
      + rewrite Hb. discriminate.
      + apply Hb, Himage. }
  intros bound.
  assert (Hq2 : forall e, hoare I2 (queueCall (R := status_t) e) (fun _ => I2) E).
  { intros e. apply hoare_queueCall. intros x Hx.
    split; [apply Hqueue, Hx | exact Hx]. }
  assert (Hret : forall A r, hoare I2 (returns (A := A) r) (fun _ => I2) E).
  { intros A r. prim. auto. }
  keep I2; [prim; auto|].
  keep I2; [prim; auto|].
  keep I2; [prim; auto|].
  keep I2; [prim; auto|].
  keep I2.
  { (* the bind failed *)
    apply hoare_when; [intros _|auto].
    keep I2; [prim; auto|].
    keep I2; [apply Hq2|].
    apply Hret. }
  keep I2; [prim; auto|].
  keep I2; [prim; auto|].
  keep I2.
  { (* fence handoff *)
    apply hoare_when; [intros _|auto].
    apply hoare_when; [intros _|auto].
    keep I2; [prim; auto|].
    keep I2.
    { apply hoare_when; [intros _|auto].
      keep I2; [prim; auto|].
      keep I2; [apply Hq2|].
      apply Hret. }
    keep I2; [prim; auto|].
    prim. intros x [Hx Hb]. split; [auto|].
    rewrite bufferAt_slots; auto. }
  keep I2; [prim; auto|].
  keep I2; [apply Hq2|].
  (* the commit: no return from here on *)
  assert (Hgood : forall x, I2 x -> Good x).
  { intros x Hx. destruct (Hexit2 OK x Hx) as [H1 [H2 _]]. split; assumption. }
  pose (I3 := fun x => Good x /\ bufferAt env buf x <> None).
  keep I3; [prim; intros x Hx; split; [apply (Hgood x Hx) | apply Hx]|].
  apply (hoare_bind _ _ (fun g x => I3 x /\ g = bufferAt env buf x)).
  { prim. auto. }
  intros g.
  pose (I4 := fun x => Good x /\ mCurrentTextureBuf x <> None).
  keep I4.
  { prim. intros x [[Hx Hb] ->]. split; [exact Hx | exact Hb]. }
  keep I4; [prim; intros x Hx; exact Hx|].
  keep I4; [prim; intros x Hx; exact Hx|].
  keep I4; [prim; intros x Hx; exact Hx|].
  keep I4; [prim; intros x Hx; exact Hx|].
  apply hoare_call. intros x [Hx Hb].
  destruct (compute_returns x) as [m Hm]; [intros _; exact Hb|].
  exists tt, (set_mCurrentTransformMatrix x m), []. split; [exact Hm|].
  exact Hx.
Qed.

(** A call from another display or context is turned away. *)
Lemma context_mismatch env s :
  mAbandoned s = false ->
  (mEglDisplay s <> eglGetCurrentDisplay env /\ mEglDisplay s <> EGL_NO_DISPLAY) \/
  (mEglContext s <> eglGetCurrentContext env /\ mEglContext s <> EGL_NO_CONTEXT) ->
  updateTexImage env s = Returned (- EINVAL) s [].
Proof.
  intros Hlive Hmismatch. unfold updateTexImage, function.
  rewrite bind_get, Hlive. cbn [when]. rewrite bind_ret, bind_get.
  destruct ((mEglDisplay s != eglGetCurrentDisplay env)
            && (mEglDisplay s != EGL_NO_DISPLAY)) eqn:Hd; cbn [when].
  - reflexivity.
  - rewrite bind_ret, bind_get.
    destruct Hmismatch as [[H1 H2] | [H1 H2]].
    + apply neq_true_iff in H1, H2. rewrite H1, H2 in Hd. discriminate.
    + apply neq_true_iff in H1, H2. rewrite H1, H2. reflexivity.
Qed.

(** C8.  On an instance that was not abandoned: when the caller's display
    differs from a latched display that is not [EGL_NO_DISPLAY], or the
    caller's context from a latched context that is not [EGL_NO_CONTEXT],
    [updateTexImage] returns [-EINVAL] and changes nothing; when both checks
    pass, [updateTexImage] returns and the state it leaves holds the caller's
    display and context. *)
Theorem context_binding env s :
  mAbandoned s = false ->
  ((mEglDisplay s <> eglGetCurrentDisplay env /\ mEglDisplay s <> EGL_NO_DISPLAY) \/
   (mEglContext s <> eglGetCurrentContext env /\ mEglContext s <> EGL_NO_CONTEXT) ->
   updateTexImage env s = Returned (- EINVAL) s []) /\
  (checksPass env s ->
   attached s ->
   fullTable s ->
   Forall imageHasBuffer (mEGLSlots s) ->
   (fst (acquireBuffer env) = NO_ERROR ->
    inBounds (mBuf (snd (acquireBuffer env))) = true) ->
   exists r s' t,
     updateTexImage env s = Returned r s' t /\
     mEglDisplay s' = eglGetCurrentDisplay env /\
     mEglContext s' = eglGetCurrentContext env).
Proof.
  intros Hlive. split.
  - intros Hmismatch. apply context_mismatch; assumption.
  - intros Hchecks Hatt Hfull Hslots Hbuf.
    destruct (mBufferQueue s) as [q|] eqn:Hq; [|exfalso; apply (Hatt Hlive Hq)].
    destruct (updateTexImage_past_checks env s q Hlive Hq Hchecks Hfull Hslots Hbuf)
      as [r [s' [t [Hrun [[_ [Hd [Hc _]]] _]]]]].
    exists r, s', t. auto.
Qed.

Lemma context_binding_witness :
  updateTexImage Sample.otherDisplay Sample.oneFrame
  = Returned (- EINVAL) Sample.oneFrame [] /\
  updateTexImage Sample.otherContext Sample.oneFrame
  = Returned (- EINVAL) Sample.oneFrame [] /\
  exists r s' t,
    updateTexImage (Sample.good 1) Sample.oneFrame = Returned r s' t /\
    mEglDisplay s' = 1 /\
    mEglContext s' = 1.
Proof.
  split; [|split].
  - apply (context_binding Sample.otherDisplay Sample.oneFrame); [reflexivity|].
    left. split; vm_compute; discriminate.
  - apply (context_binding Sample.otherContext Sample.oneFrame); [reflexivity|].
    right. split; vm_compute; discriminate.
  - apply (context_binding (Sample.good 1) Sample.oneFrame).
    + reflexivity.
    + vm_compute. auto.
    + vm_compute. discriminate.
    + reflexivity.
    + repeat (apply Forall_cons;
              [vm_compute; intros H1 H2;
               first [discriminate H2 | apply H1; reflexivity]|]).
      apply Forall_nil.
    + reflexivity.
Defined.

(** C4 at an input where the code misses it.  On a fresh instance the
    current slot is [INVALID_BUFFER_SLOT]; the first [updateTexImage] that
    acquires a frame reads the fence of slot [-1], which is outside the
    table, and calls [releaseBuffer] with [-1].  It does so again on the
    first acquire after [onBuffersReleased]. *)
Theorem first_acquire_releases_sentinel_slot :
  mCurrentTexture Sample.fresh = INVALID_BUFFER_SLOT /\
  inBounds INVALID_BUFFER_SLOT = false /\
  updateTexImage (Sample.good 0) Sample.fresh
  = Returned OK Sample.oneFrame
      [AcquireBuffer; SlotWrite 0 FGraphicBuffer; SlotRead 0 FEglImage;
       SlotWrite 0 FGraphicBuffer; SlotRead 0 FEglImage;
       EglCreateImageKHR 1 (Sample.buffer 100); SlotWrite 0 FEglImage;
       GlBindTexture 36197 7; GlEGLImageTargetTexture2DOES 36197 50;
       SlotRead (-1) FFence; ReleaseBuffer (-1) 1 0;
       SlotRead 0 FGraphicBuffer] /\
  accessesInBounds (traceOf (updateTexImage (Sample.good 0) Sample.fresh))
  = false /\
  existsb (isReleaseOf INVALID_BUFFER_SLOT)
    (traceOf (updateTexImage (Sample.good 0) Sample.fresh)) = true /\
  mCurrentTexture
    (Sample.after (onBuffersReleased (Sample.released 7) Sample.threeFrames)
       Sample.threeFrames) = INVALID_BUFFER_SLOT /\
  existsb (isReleaseOf INVALID_BUFFER_SLOT)
    (traceOf
       (updateTexImage (Sample.good 0)
          (Sample.after (onBuffersReleased (Sample.released 7) Sample.threeFrames)
             Sample.threeFrames))) = true.
Proof. repeat (apply conj; [vm_compute; reflexivity|]). vm_compute. reflexivity. Qed.

End UpdateFacts.

(** ** The well-formed states are the reachable ones *)

Section WellFormed.

Lemma Forall_updateNth (P : EGLSlot -> Prop) n f slots :
  (forall e, P e -> P (f e)) ->
  Forall P slots -> Forall P (updateNth n f slots).
Proof.
  intros Hf Hall. revert n.
  induction Hall as [|x rest Hx Hrest IH]; intros [|n]; cbn; auto.
Qed.

Lemma Forall_updateSlot (P : EGLSlot -> Prop) i f slots :
  (forall e, P e -> P (f e)) ->
  Forall P slots -> Forall P (updateSlot i f slots).
Proof.
  intros Hf Hall. unfold updateSlot.
  destruct (inBounds i); auto using Forall_updateNth.
Qed.

Lemma freeSlot_imageHasBuffer e : imageHasBuffer (freeSlot e).
Proof. intros H. contradiction H. reflexivity. Qed.

Lemma freeMasked_invariant mask n i slots :
  Forall imageHasBuffer slots -> Forall imageHasBuffer (freeMasked mask n i slots).
Proof.
  revert i slots. induction n as [|n IH]; intros i slots H; cbn; auto.
  apply IH. destruct (_ != 0); auto.
  apply Forall_updateSlot; auto using freeSlot_imageHasBuffer.
Qed.

Lemma freeRange_length n i slots :
  List.length (freeRange n i slots) = List.length slots.
Proof.
  revert i slots. induction n as [|n IH]; intros i slots; cbn; auto.
  rewrite IH. apply updateSlot_length.
Qed.

Lemma freeRange_invariant n i slots :
  Forall imageHasBuffer slots -> Forall imageHasBuffer (freeRange n i slots).
Proof.
  revert i slots. induction n as [|n IH]; intros i slots H; cbn; auto.
  apply IH, Forall_updateSlot; auto using freeSlot_imageHasBuffer.
Qed.

(** The constructor makes a well-formed instance. *)
Lemma construct_wellFormed fenceBuild name fresh crop mode tex sync target
    useFence queue :
  wellFormed (construct fenceBuild name fresh crop mode tex sync target
                useFence queue).
Proof.
  split; [|split].
  - intros _. cbn. destruct queue; discriminate.
  - reflexivity.
  - cbn [mEGLSlots construct]. apply Forall_forall. intros e Hin.
    apply repeat_spec in Hin. subst e. intros H. contradiction H. reflexivity.
Qed.

(** [updateTexImage] returns on every well-formed state, for every answer
    of the platform and for every slot of the table the queue hands out,
    and leaves a well-formed state. *)
Lemma updateTexImage_wellFormed env s :
  wellFormed s ->
  (fst (acquireBuffer env) = NO_ERROR ->
   inBounds (mBuf (snd (acquireBuffer env))) = true) ->
  exists r s' t, updateTexImage env s = Returned r s' t /\ wellFormed s'.
Proof.
  intros [Hatt [Hfull Hslots]] Hbuf.
  destruct (mAbandoned s) eqn:Hlive.
  { exists NO_INIT, s, []. split; [apply updateTexImage_abandoned, Hlive|].
    repeat split; auto. }
  destruct (mBufferQueue s) as [q|] eqn:Hq; [|exfalso; apply (Hatt Hlive Hq)].
  assert (Hdec : forall a b none : Z,
             (a = b \/ a = none) \/ (a <> b /\ a <> none)) by (intros; lia).
  destruct (Hdec (mEglDisplay s) (eglGetCurrentDisplay env) EGL_NO_DISPLAY)
    as [Hd|Hd];
    [destruct (Hdec (mEglContext s) (eglGetCurrentContext env) EGL_NO_CONTEXT)
       as [Hc|Hc]|].
  - destruct (updateTexImage_past_checks env s q Hlive Hq (conj Hd Hc)
                Hfull Hslots Hbuf) as [r [s' [t [Hrun [Hst [Hok _]]]]]].
    exists r, s', t. split; [exact Hrun|].
    destruct Hst as [_ [_ [_ [Hq' Hfull']]]].
    split; [intros _; congruence|]. split; assumption.
  - exists (- EINVAL), s, []. split; [|repeat split; auto].
    apply context_mismatch; auto.
  - exists (- EINVAL), s, []. split; [|repeat split; auto].
    apply context_mismatch; auto.
Qed.

(** So do the callback and [abandon]. *)
Lemma onBuffersReleased_wellFormed env s :
  wellFormed s ->
  exists s' t, onBuffersReleased env s = Returned tt s' t /\ wellFormed s'.
Proof.
  intros [Hatt [Hfull Hslots]].
  destruct (mAbandoned s) eqn:Hlive.
  { exists s, []. split; [apply onBuffersReleased_abandoned, Hlive|].
    repeat split; auto. }
  destruct (mBufferQueue s) as [q|] eqn:Hq; [|exfalso; apply (Hatt Hlive Hq)].
  destruct (onBuffersReleased_live env s q Hlive Hq) as [t Ht].
  eexists. exists t. split; [exact Ht|].
  split; [intros _; cbn; congruence|]. split.
  - unfold fullTable. cbn. rewrite freeMasked_length. exact Hfull.
  - cbn. apply freeMasked_invariant, Hslots.
Qed.

Lemma abandon_wellFormed env s :
  wellFormed s ->
  exists s' t, abandon env s = Returned tt s' t /\ wellFormed s'.
Proof.
  intros [Hatt [Hfull Hslots]].
  destruct (mAbandoned s) eqn:Hlive.
  { exists s, []. split; [apply abandon_again, Hlive|]. repeat split; auto. }
  destruct (mBufferQueue s) as [q|] eqn:Hq; [|exfalso; apply (Hatt Hlive Hq)].
  destruct (abandon_first env s q Hlive Hq) as [t Ht].
  eexists. exists t. split; [exact Ht|].
  split; [intros H; cbn in H; discriminate|]. split.
  - unfold fullTable. cbn. rewrite freeRange_length. exact Hfull.
  - cbn. apply freeRange_invariant, Hslots.
Qed.

End WellFormed.


(** ** A program logic over state and trace *)

Section HistoryRules.

Context {R : Type}.

Lemma hoareH_bind {A B} (P : SurfaceTexture -> Trace -> Prop) (m : Stmt R A)
    (Q1 : A -> SurfaceTexture -> Trace -> Prop) (k : A -> Stmt R B) Q E :
  hoareH P m Q1 E ->
  (forall a, hoareH (Q1 a) (k a) Q E) ->
  hoareH P (bind m k) Q E.
Proof.
  intros Hm Hk s h HP. specialize (Hm s h HP). unfold bind.
  destruct (m s) as [a s1 t1 | r s1 t1 | t1]; auto.
  specialize (Hk a s1 (h ++ t1) Hm).
  destruct (k a s1); cbn; try rewrite app_assoc; auto.
Qed.

Lemma hoareH_strengthen {A} (P P' : SurfaceTexture -> Trace -> Prop)
    (m : Stmt R A) Q E :
  (forall s h, P s h -> P' s h) -> hoareH P' m Q E -> hoareH P m Q E.
Proof. intros HPP Hm s h HP. apply Hm, HPP, HP. Qed.

Lemma hoareH_ret {A} (P : SurfaceTexture -> Trace -> Prop) (a : A) (Q : A -> _) E :
  (forall s h, P s h -> Q a s h) -> hoareH P (ret (R := R) a) Q E.
Proof. intros H s h HP. cbn. rewrite app_nil_r. auto. Qed.

Lemma hoareH_returns {A} (P : SurfaceTexture -> Trace -> Prop) (r : R)
    (Q : A -> _) (E : R -> SurfaceTexture -> Trace -> Prop) :
  (forall s h, P s h -> E r s h) -> hoareH P (returns r) Q E.
Proof. intros H s h HP. cbn. rewrite app_nil_r. auto. Qed.

Lemma hoareH_get {A} (P : SurfaceTexture -> Trace -> Prop)
    (f : SurfaceTexture -> A) (Q : A -> _) E :
  (forall s h, P s h -> Q (f s) s h) -> hoareH P (get (R := R) f) Q E.
Proof. intros H s h HP. cbn. rewrite app_nil_r. auto. Qed.

Lemma hoareH_modify (P : SurfaceTexture -> Trace -> Prop) f (Q : unit -> _) E :
  (forall s h, P s h -> Q tt (f s) h) -> hoareH P (modify (R := R) f) Q E.
Proof. intros H s h HP. cbn. rewrite app_nil_r. auto. Qed.

Lemma hoareH_emit (P : SurfaceTexture -> Trace -> Prop) e (Q : unit -> _) E :
  (forall s h, P s h -> Q tt s (h ++ [e])) -> hoareH P (emit (R := R) e) Q E.
Proof. intros H s h HP. cbn. auto. Qed.

Lemma hoareH_when (P : SurfaceTexture -> Trace -> Prop) (c : bool)
    (body : Stmt R unit) (Q : unit -> _) E :
  (c = true -> hoareH P body Q E) ->
  (c = false -> forall s h, P s h -> Q tt s h) ->
  hoareH P (when c body) Q E.
Proof.
  intros Ht Hf. destruct c; cbn.
  - apply Ht. reflexivity.
  - apply hoareH_ret. apply Hf. reflexivity.
Qed.

Lemma hoareH_readSlot {A} (P : SurfaceTexture -> Trace -> Prop) env i fld
    (proj : EGLSlot -> A) (Q : A -> _) E :
  (forall s h, P s h ->
     Q (proj (slotAt (stray env) (mEGLSlots s) i)) s (h ++ [SlotRead i fld])) ->
  hoareH P (readSlot (R := R) env i fld proj) Q E.
Proof. intros H s h HP. cbn. auto. Qed.

Lemma hoareH_writeSlot (P : SurfaceTexture -> Trace -> Prop) i fld upd
    (Q : unit -> _) E :
  (forall s h, P s h ->
     Q tt (set_mEGLSlots s (updateSlot i upd (mEGLSlots s)))
       (h ++ [SlotWrite i fld])) ->
  hoareH P (writeSlot (R := R) i fld upd) Q E.
Proof. intros H s h HP. cbn. auto. Qed.

Lemma hoareH_deref {A} (P : SurfaceTexture -> Trace -> Prop)
    (p : SurfaceTexture -> option A) (Q : A -> _) E :
  (forall s h a, P s h -> p s = Some a -> Q a s h) ->
  hoareH P (deref (R := R) p) Q E.
Proof.
  intros H s h HP. unfold deref. destruct (p s) eqn:Hp; [|exact I].
  rewrite app_nil_r. eauto.
Qed.

Lemma hoareH_queueCall (P : SurfaceTexture -> Trace -> Prop) e (Q : unit -> _) E :
  (forall s h, P s h -> Q tt s (h ++ [e])) ->
  hoareH P (queueCall (R := R) e) Q E.
Proof.
  intros H. unfold queueCall.
  apply (hoareH_bind P _ (fun _ => P)).
  - apply hoareH_deref. auto.
  - intros _. apply hoareH_emit. auto.
Qed.

Lemma hoareH_call {A} (P : SurfaceTexture -> Trace -> Prop)
    (f : SurfaceTexture -> Result A) (Q : A -> _) E :
  (forall s h a s' t, P s h -> f s = Returned a s' t -> Q a s' (h ++ t)) ->
  hoareH P (call (R' := R) f) Q E.
Proof.
  intros H s h HP. unfold call. destruct (f s) eqn:Hf; [|exact I]. eauto.
Qed.

Lemma hoareH_false {A} (m : Stmt R A) Q E : hoareH (fun _ _ => False) m Q E.
Proof. intros s h []. Qed.

End HistoryRules.

(** What a function returns obeys the logic of its body. *)
Lemma hoareH_function {R} (P : SurfaceTexture -> Trace -> Prop) (body : Stmt R R) Q :
  hoareH P body Q Q ->
  forall s r s' t, P s [] -> function body s = Returned r s' t -> Q r s' t.
Proof.
  intros H s r s' t HP. specialize (H s [] HP). unfold function.
  destruct (body s); intros Heq; inversion Heq; subst; exact H.
Qed.


(** ** [updateTexImage] after a successful acquire *)

Section AcquiredFacts.

(** The composer, as a function of the flags, the crop and the buffer. *)
Lemma compute_spec s :
  computeCurrentTransformMatrix s
  = match composedMatrix (mCurrentTransform s) (mCurrentCrop s)
            (mCurrentTextureBuf s) with
    | Some m => Returned tt (set_mCurrentTransformMatrix s m) []
    | None => NullDereference []
    end.
Proof.
  unfold computeCurrentTransformMatrix, composedMatrix, function.
  rewrite bind_get, bind_get.
  destruct (isEmpty (mCurrentCrop s)); cbn [negb].
  - rewrite bind_ret. reflexivity.
  - rewrite bind_assoc. destruct (mCurrentTextureBuf s) as [b|] eqn:Hb.
    + rewrite (bind_deref_some _ _ _ _ Hb), bind_ret. reflexivity.
    + rewrite (bind_deref_none _ _ _ Hb). reflexivity.
Qed.

Lemma filter_snoc (p : Event -> bool) h e :
  filter p (h ++ [e]) = filter p h ++ (if p e then [e] else []).
Proof. rewrite filter_app. cbn. destruct (p e); reflexivity. Qed.

(** An event that is no release, fence creation or image destruction. *)
Lemma midway_event env s buf rel syn des x h e :
  midway env s buf rel syn des x h ->
  touchesOnly buf (mCurrentTexture s) e ->
  isRelease e = false -> isCreateSync e = false -> isDestroyImage e = false ->
  midway env s buf rel syn des x (h ++ [e]).
Proof.
  intros [H1 [H2 [H3 [H4 [H5 [H6 [H7 [H8 H9]]]]]]]] Ht Hr Hs Hd.
  repeat (split; [assumption|]).
  split; [apply Forall_app; split; [assumption | repeat constructor; assumption]|].
  rewrite !filter_snoc, Hr, Hs, Hd, !app_nil_r. auto.
Qed.

(** A store into the table that keeps the content of the slots other than
    [buf]. *)
Lemma midway_store env s buf rel syn des x h i f :
  midway env s buf rel syn des x h ->
  i = buf \/
  (forall e, slotGraphicBuffer (f e) = slotGraphicBuffer e /\
             mEglImage (f e) = mEglImage e) ->
  midway env s buf rel syn des
    (set_mEGLSlots x (updateSlot i f (mEGLSlots x))) h.
Proof.
  intros [H1 [H2 [H3 [H4 [H5 H6]]]]] Hi.
  split; [exact H1|]. split; [exact H2|].
  split; [unfold fullTable; cbn; rewrite updateSlot_length; exact H3|].
  split; [exact H4|]. split; [|exact H6].
  intros j Hj. specialize (H5 j Hj). unfold sameContent in *.
  cbn [mEGLSlots set_mEGLSlots].
  destruct Hi as [->|Hf].
  - rewrite slotAt_updateSlot_other by congruence. exact H5.
  - rewrite (slotAt_updateSlot_field slotGraphicBuffer) by apply Hf.
    rewrite (slotAt_updateSlot_field mEglImage) by apply Hf. exact H5.
Qed.

Lemma fences_store env s x i f :
  (forall e, mFence (f e) = mFence e) ->
  fencesKept env s x ->
  fencesKept env s (set_mEGLSlots x (updateSlot i f (mEGLSlots x))).
Proof.
  intros Hf H j. unfold sameFence. cbn [mEGLSlots set_mEGLSlots].
  rewrite (slotAt_updateSlot_field mFence) by exact Hf. apply H.
Qed.

Lemma here_store env x buf f :
  inBounds buf = true -> fullTable x ->
  slotAt (stray env) (mEGLSlots (set_mEGLSlots x (updateSlot buf f (mEGLSlots x)))) buf
  = f (slotAt (stray env) (mEGLSlots x) buf).
Proof.
  intros Hb Hfull. cbn [mEGLSlots set_mEGLSlots].
  apply slotAt_updateSlot_same; auto using inBounds_in_table.
Qed.

(** An error return, seen from the invariants. *)
Lemma outcome_error env s item rel syn x h r :
  midway env s (mBuf item) rel syn (replaced env s item) x h ->
  (forall j, sameFence env s x j) ->
  bufferAt env (mBuf item) x = installed env s item ->
  failureCause env s item ->
  rel = [] \/
  rel = [ReleaseBuffer (mBuf item) (eglGetCurrentDisplay env)
           (mFence (slotAt (stray env) (mEGLSlots s) (mBuf item)))] ->
  r = - EINVAL ->
  acquiredOutcome env s item r x h.
Proof.
  intros [H1 [H2 [H3 [H4 [H5 [H6 [H7 [H8 H9]]]]]]]] Hf Hb Hcause Hrel ->.
  unfold acquiredOutcome.
  repeat (split; [assumption|]).
  split; [right; reflexivity|]. split.
  - intros _. rewrite H7. auto.
  - intros Hr. discriminate Hr.
Qed.

Lemma fencesAfter_event env s x h e :
  fencesAfter env s x h -> isCreateSync e = false ->
  fencesAfter env s x (h ++ [e]).
Proof.
  intros [H1 H2] He. split; [exact H1|].
  rewrite filter_snoc, He, app_nil_r.
  destruct (handsOff s); [|exact H2].
  destruct H2 as [Ha [Hb Hc]]. repeat split; auto.
  apply in_or_app. left. exact Hb.
Qed.

Lemma landing_event env s buf rel syn des x h e :
  landing env s buf rel syn des x h ->
  touchesOnly buf (mCurrentTexture s) e ->
  isRelease e = false -> isCreateSync e = false -> isDestroyImage e = false ->
  landing env s buf rel syn des x (h ++ [e]).
Proof.
  intros [H1 [H2 [H3 [H5 [H6 [H7 [H8 H9]]]]]]] Ht Hr Hs Hd.
  repeat (split; [assumption|]).
  split; [apply Forall_app; split; [assumption | repeat constructor; assumption]|].
  rewrite !filter_snoc, Hr, Hs, Hd, !app_nil_r. auto.
Qed.

(** A fact that does not depend on the state can be taken out. *)
Lemma hoareH_pure {R A} (P : SurfaceTexture -> Trace -> Prop) (fact : Prop)
    (m : Stmt R A) Q E :
  (fact -> hoareH P m Q E) -> hoareH (fun x h => P x h /\ fact) m Q E.
Proof. intros H s h [HP Hfact]. apply (H Hfact s h HP). Qed.

End AcquiredFacts.


Section AcquiredOutcome.

Ltac primH :=
  unfold readEglImage, readFence, readGraphicBuffer,
    writeEglImage, writeFence, writeGraphicBuffer;
  first [ apply hoareH_get | apply hoareH_emit | apply hoareH_modify
        | apply hoareH_readSlot | apply hoareH_writeSlot
        | apply hoareH_queueCall
        | apply hoareH_ret | apply hoareH_returns ].

Ltac keepH I := apply (hoareH_bind _ _ (fun _ => I)); [ | intros ? ].

(** An event at [buf] or at the current slot, or no slot access at all. *)
(** Split the conjunctions that show, not the ones inside a definition. *)
Ltac conjs := repeat match goal with |- _ /\ _ => split end.

Ltac touch := first [ exact I | left; reflexivity | right; reflexivity ].

Lemma updateTexImage_acquired env s item :
  mAbandoned s = false ->
  checksPass env s ->
  fullTable s ->
  acquireBuffer env = (NO_ERROR, item) ->
  inBounds (mBuf item) = true ->
  forall r s' t,
    updateTexImage env s = Returned r s' t ->
    acquiredOutcome env s item r s' t.
Proof.
  intros Hlive Hchecks Hfull Hacq Hbuf r s' t.
  destruct (mBufferQueue s) as [q|] eqn:Hq.
  2:{ unfold updateTexImage, function.
      rewrite bind_get, Hlive. cbn [when]. rewrite bind_ret.
      destruct Hchecks as [Hd Hc].
      rewrite bind_get, (display_check_passes _ _ _ Hd). cbn [when].
      rewrite bind_ret.
      rewrite bind_get, (display_check_passes _ _ _ Hc). cbn [when].
      rewrite bind_ret, bind_modify, bind_modify.
      rewrite bind_queueCall_none by exact Hq. discriminate. }
  unfold updateTexImage, function.
  rewrite (updateTexImage_to_acquire env s q Hlive Hq Hchecks).
  rewrite Hacq. cbn [Z.eqb NO_ERROR].
  set (buf := mBuf item) in *.
  set (cur := mCurrentTexture s).
  set (dpy := eglGetCurrentDisplay env).
  set (had := mEglImage (slotAt (stray env) (mEGLSlots s) buf)).
  pose (E := acquiredOutcome env s item).
  match goal with |- context [prefixed _ (?rest ?s1)] =>
    assert (H : hoareH (fun x h => x = s1 /\ h = [AcquireBuffer]) rest E E) end.
  2:{ specialize (H _ [AcquireBuffer] (conj eq_refl eq_refl)).
      match goal with |- context [prefixed _ ?o] => destruct o end; cbn;
        intros Heq; inversion Heq; subst; exact H. }
  pose (here := fun x => slotAt (stray env) (mEGLSlots x) buf).
  pose (Fk := fencesKept env s).
  assert (Hstore : forall rel syn des x h f fld,
             midway env s buf rel syn des x h ->
             midway env s buf rel syn des
               (set_mEGLSlots x (updateSlot buf f (mEGLSlots x)))
               (h ++ [SlotWrite buf fld])).
  { intros. apply midway_event; try reflexivity; [|left; reflexivity].
    apply midway_store; auto. }
  assert (Hread : forall rel syn des x h fld,
             midway env s buf rel syn des x h ->
             midway env s buf rel syn des x (h ++ [SlotRead buf fld])).
  { intros. apply midway_event; try reflexivity; auto. left; reflexivity. }
  assert (Hfull' : forall rel syn des x h,
             midway env s buf rel syn des x h -> fullTable x).
  { intros rel syn des x h Hm. apply Hm. }
  apply (hoareH_bind _ _ (fun _ => E OK)); [|intros _; primH; auto].
  apply (hoareH_strengthen _
           (fun x h => midway env s buf [] [] [] x h /\ Fk x /\ here x = here s)).
  { intros x h [-> ->]. split; [|split; [intros j; reflexivity | reflexivity]].
    unfold midway, sameSetup, latched, sameCurrent, sameContent.
    repeat split; try reflexivity; auto.
    repeat constructor. }
  (* a newly allocated buffer is installed *)
  pose (I1 := fun x h =>
          midway env s buf [] [] (replaced env s item) x h /\ Fk x /\
          bufferAt env buf x = installed env s item /\
          mEglImage (here x)
          = (if isNull (mGraphicBuffer item) then had else EGL_NO_IMAGE_KHR)).
  apply (hoareH_bind _ _ (fun _ => I1)).
  { subst I1. unfold replaced, installed. fold buf had.
    destruct (mGraphicBuffer item) as [b|] eqn:Hgb; cbn [isNull negb when andb].
    - keepH (fun x h => midway env s buf [] [] [] x h /\ Fk x /\
                        mEglImage (here x) = had).
      { primH. intros x h [Hm [Hf Hh]]. split; [auto|]. split.
        - apply fences_store; auto.
        - subst here. cbn beta in *. rewrite here_store; eauto.
          cbn. rewrite Hh. reflexivity. }
      apply (hoareH_bind _ _
               (fun old x h => (midway env s buf [] [] [] x h /\ Fk x /\
                                mEglImage (here x) = had) /\ old = had)).
      { primH. intros x h [Hm [Hf Hh]]. conjs; auto. }
      intros old.
      keepH (fun x h =>
               midway env s buf [] []
                 (if had != EGL_NO_IMAGE_KHR then [EglDestroyImageKHR dpy had] else [])
                 x h /\ Fk x /\ mEglImage (here x) = EGL_NO_IMAGE_KHR).
      { apply hoareH_when.
        - intros Hold.
          apply (hoareH_bind _ _
                   (fun old0 x h => (midway env s buf [] [] [] x h /\ Fk x)
                                    /\ old0 = had /\ (had != EGL_NO_IMAGE_KHR) = true)).
          { primH. intros x h [[Hm [Hf Hh]] ->]. conjs; auto. }
          intros old0.
          keepH (fun x h =>
                   midway env s buf [] [] [EglDestroyImageKHR dpy had] x h /\ Fk x
                   /\ (had != EGL_NO_IMAGE_KHR) = true).
          { primH. intros x h [[Hm Hf] [-> Hc]]. split; [|auto].
            destruct Hm as [H1 [H2 [H3 [H4 [H5 [H6 [H7 [H8 H9]]]]]]]].
            repeat (split; [assumption|]).
            split; [apply Forall_app; split; [assumption | repeat constructor]|].
            rewrite !filter_snoc, H7, H8, H9. auto. }
          primH. intros x h [Hm [Hf Hc]]. rewrite Hc. split; [auto|]. split.
          + apply fences_store; auto.
          + subst here. cbn beta. rewrite here_store; eauto.
        - intros Hold x h [[Hm [Hf Hh]] ->]. rewrite Hold.
          apply neq_false_iff in Hold. conjs; auto. congruence. }
      primH. intros x h [Hm [Hf Hh]]. split; [auto|]. split; [|split].
      + apply fences_store; auto.
      + apply bufferAt_installed; eauto.
      + subst here. cbn beta in *. rewrite here_store; eauto.
    - primH. intros x h [Hm [Hf Hh]].
      split; [exact Hm|]. split; [exact Hf|].
      subst here. cbn beta in *. split.
      + unfold bufferAt. rewrite Hh. reflexivity.
      + rewrite Hh. reflexivity. }
  intros _.
  apply (hoareH_bind _ _ (fun image x h => I1 x h /\ image = mEglImage (here x))).
  { primH. intros x h [Hm [Hf [Hb Hi]]]. subst I1. cbn beta. conjs; auto. }
  intros image.
  (* the slot gets its image *)
  pose (J := fun x h =>
          midway env s buf [] [] (replaced env s item) x h /\ Fk x /\
          bufferAt env buf x = installed env s item).
  pose (I2 := fun img x h =>
          J x h /\ mEglImage (here x) = bound env s item /\
          bound env s item <> EGL_NO_IMAGE_KHR /\ img = bound env s item).
  assert (Hfail : forall x h, J x h -> failureCause env s item ->
                              E (- EINVAL) x h).
  { intros x h [Hm [Hf Hb]] Hcause.
    apply (outcome_error env s item [] []); auto. }
  apply (hoareH_bind _ _ I2).
  { subst I1 I2 J. unfold bound. cbn beta.
    destruct (image =? EGL_NO_IMAGE_KHR) eqn:Himage.
    - apply Z.eqb_eq in Himage.
      destruct (mGraphicBuffer item) as [b|] eqn:Hgb; cbn [isNull when].
      + pose (K := fun x h =>
                midway env s buf [] [] (replaced env s item) x h /\ Fk x /\
                bufferAt env buf x = installed env s item).
        apply (hoareH_strengthen _ K).
        { intros x h [[Hm [Hf [Hb _]]] _]. subst K. cbn beta. auto. }
        keepH K; [primH; auto|].
        apply (hoareH_bind _ _ (fun created x h => K x h /\ created = eglCreateImageKHR env)).
        { unfold createImage.
          keepH K; [apply hoareH_deref; auto|].
          keepH K.
          { primH. intros x h [Hm [Hf Hb]]. subst K. cbn beta. conjs; auto.
            apply midway_event; auto. exact I. }
          primH. auto. }
        intros created.
        keepH (fun x h => K x h /\ mEglImage (here x) = eglCreateImageKHR env /\
                          created = eglCreateImageKHR env).
        { primH. intros x h [[Hm [Hf Hb]] ->]. subst K here. cbn beta. conjs; auto.
          - apply fences_store; auto.
          - rewrite bufferAt_slots; auto.
          - rewrite here_store; eauto. }
        keepH (fun x h => (K x h /\ mEglImage (here x) = eglCreateImageKHR env /\
                           created = eglCreateImageKHR env) /\
                          eglCreateImageKHR env <> EGL_NO_IMAGE_KHR).
        { apply hoareH_when.
          - intros Hzero. primH. intros x h [HK [_ ->]]. apply Z.eqb_eq in Hzero.
            apply Hfail; [exact HK|]. right; left. split; [congruence | exact Hzero].
          - intros Hnz x h [HK [Hi ->]]. apply Z.eqb_neq in Hnz. auto. }
        primH. intros x h [[HK [Hi ->]] Hnz]. auto.
      + apply (hoareH_bind _ _ (fun _ _ _ => False)); [|intros _; apply hoareH_false].
        primH. intros x h [[Hm [Hf [Hb Hi]]] ->].
        apply Hfail; [conjs; auto|]. left. split; [exact Hgb|].
        fold buf. cbn [isNull] in Hi. fold had. congruence.
    - apply Z.eqb_neq in Himage. primH. intros x h [[Hm [Hf [Hb Hi]]] ->].
      destruct (mGraphicBuffer item) as [b|] eqn:Hgb; cbn [isNull] in Hi.
      + contradiction.
      + fold buf. fold had. rewrite Hi in *. conjs; auto. }
  intros image0.
  pose (T2 := fun x h =>
          J x h /\ mEglImage (here x) = bound env s item /\
          bound env s item <> EGL_NO_IMAGE_KHR).
  apply (hoareH_strengthen _ T2).
  { intros x h [HJ [Hi [Hnz _]]]. subst T2. cbn beta. auto. }
  assert (Hquiet : forall e x h,
             touchesOnly buf cur e -> isRelease e = false ->
             isCreateSync e = false -> isDestroyImage e = false ->
             T2 x h -> T2 x (h ++ [e])).
  { intros e x h Ht Hr Hs Hd [[Hm [Hf Hb]] [Hi Hnz]]. subst T2 J. cbn beta.
    conjs; auto. apply midway_event; auto. }
  keepH T2; [primH; auto|].
  keepH T2; [primH; auto|].
  keepH T2; [primH; intros x h Hx; apply Hquiet; auto; exact I|].
  keepH T2; [primH; intros x h Hx; apply Hquiet; auto; exact I|].
  (* the release of the acquired slot on the two late errors *)
  assert (Hgiveup : forall syn (P : SurfaceTexture -> Trace -> Prop) Q,
             failureCause env s item ->
             (forall x h, P x h ->
                midway env s buf [] syn (replaced env s item) x h /\ Fk x /\
                bufferAt env buf x = installed env s item) ->
             hoareH P
               (fence <- readFence env buf ;;
                queueCall (ReleaseBuffer buf dpy fence) ;;
                returns (A := unit) (- EINVAL))
               Q E).
  { intros syn P Q Hcause HP.
    pose (G := fun fence x h =>
            (midway env s buf [] syn (replaced env s item) x h /\ Fk x /\
             bufferAt env buf x = installed env s item) /\
            fence = mFence (slotAt (stray env) (mEGLSlots s) buf)).
    apply (hoareH_bind _ _ G).
    { primH. intros x h Hx. destruct (HP x h Hx) as [Hm [Hf Hb]].
      subst G. cbn beta. conjs; auto. apply Hf. }
    intros fence.
    apply (hoareH_bind _ _
             (fun _ x h =>
                midway env s buf
                  [ReleaseBuffer buf dpy (mFence (slotAt (stray env) (mEGLSlots s) buf))]
                  syn (replaced env s item) x h /\ Fk x /\
                bufferAt env buf x = installed env s item)).
    { primH. intros x h [[Hm [Hf Hb]] Hfence]. rewrite Hfence. conjs; auto.
      destruct Hm as [H1 [H2 [H3 [H4 [H5 [H6 [H7 [H8 H9]]]]]]]].
      unfold midway. conjs; auto.
      - apply Forall_app. split; [assumption | repeat constructor].
      - rewrite filter_snoc, H7. reflexivity.
      - rewrite filter_snoc, H8, app_nil_r. reflexivity.
      - rewrite filter_snoc, H9, app_nil_r. reflexivity. }
    intros _. primH. intros x h [Hm [Hf Hb]].
    eapply outcome_error; eauto. }
  pose (T3 := fun x h => T2 x h /\ drainGlErrors (glErrorsAfterBind env) = []).
  keepH T3.
  { apply hoareH_when.
    - intros Hfailed. apply (Hgiveup []).
      + right; right; left.
        destruct (drainGlErrors (glErrorsAfterBind env)); discriminate.
      + intros x h [HJ _]. exact HJ.
    - intros Hfine x h Hx. split; [exact Hx|].
      destruct (drainGlErrors (glErrorsAfterBind env)); [reflexivity | discriminate]. }
  apply (hoareH_bind _ _ (fun current x h => T3 x h /\ current = cur)).
  { primH. intros x h Hx. split; [exact Hx|]. apply Hx. }
  intros current.
  apply (hoareH_bind _ _
           (fun ufs x h => (T3 x h /\ current = cur) /\ ufs = mUseFenceSync s)).
  { primH. intros x h Hx. split; [exact Hx|]. apply Hx. }
  intros ufs.
  (* fence handoff *)
  pose (syn := if handsOff s then [EglCreateSyncKHR dpy] else []).
  pose (T4 := fun x h =>
          midway env s buf [] syn (replaced env s item) x h /\
          bufferAt env buf x = installed env s item /\
          mEglImage (here x) = bound env s item /\
          fencesAfter env s x h /\
          (handsOff s = true -> eglCreateSyncKHR env <> EGL_NO_SYNC_KHR)).
  assert (Hskip : handsOff s = false -> forall x h, T3 x h -> T4 x h).
  { intros Hoff x h [[[Hm [Hf Hb]] [Hi Hnz]] Hdrain]. subst T4 syn. cbn beta.
    rewrite Hoff. conjs; auto; try discriminate.
    unfold fencesAfter. rewrite Hoff.
    destruct Hm as [_ [_ [_ [_ [_ [_ [_ [Hsyn _]]]]]]]].
    split; [intros j _; apply Hf | split; [exact Hsyn | apply Hf]]. }
  apply hoareH_pure. intros ->. apply hoareH_pure. intros ->.
  apply (hoareH_strengthen _
           (fun x h => T3 x h /\
                       (bound env s item <> EGL_NO_IMAGE_KHR /\
                        drainGlErrors (glErrorsAfterBind env) = []))).
  { intros x h Hx. split; [exact Hx|]. destruct Hx as [[_ [_ Hnz]] Hdrain]. auto. }
  apply hoareH_pure. intros [Hbound Hdrained].
  keepH T4.
  { apply hoareH_when; [|intros Hcur; apply Hskip; unfold handsOff; fold cur;
                          rewrite Hcur; reflexivity].
    intros Hcur.
    apply hoareH_when; [|intros Hufs; apply Hskip; unfold handsOff;
                          rewrite Hufs; apply andb_false_r].
    intros Hufs.
    assert (Hon : handsOff s = true).
    { unfold handsOff. fold cur. rewrite Hcur, Hufs. reflexivity. }
    subst T4 syn. cbn beta. rewrite Hon.
    pose (F1 := fun x h =>
            midway env s buf [] [EglCreateSyncKHR dpy] (replaced env s item) x h /\
            Fk x /\ bufferAt env buf x = installed env s item /\
            mEglImage (here x) = bound env s item).
    keepH F1.
    { primH. intros x h [[[Hm [Hf Hb]] [Hi Hnz]] Hdrain]. subst F1. cbn beta.
      conjs; auto.
      destruct Hm as [H1 [H2 [H3 [H4 [H5 [H6 [H7 [H8 H9]]]]]]]].
      unfold midway. conjs; auto.
      - apply Forall_app. split; [assumption | repeat constructor].
      - rewrite filter_snoc, H7, app_nil_r. reflexivity.
      - rewrite filter_snoc, H8. reflexivity.
      - rewrite filter_snoc, H9, app_nil_r. reflexivity. }
    keepH (fun x h => F1 x h /\ eglCreateSyncKHR env <> EGL_NO_SYNC_KHR).
    { apply hoareH_when.
      - intros Hzero. apply Z.eqb_eq in Hzero.
        apply (Hgiveup [EglCreateSyncKHR dpy]).
        + right; right; right. fold cur. apply neq_true_iff in Hcur. auto.
        + intros x h [Hm [Hf [Hb _]]]. auto.
      - intros Hnz x h Hx. apply Z.eqb_neq in Hnz. auto. }
    keepH (fun x h => (F1 x h /\ eglCreateSyncKHR env <> EGL_NO_SYNC_KHR) /\
                      In GlFlush h).
    { primH. intros x h [[Hm [Hf [Hb Hi]]] Hnz]. subst F1. cbn beta. conjs; auto.
      - apply midway_event; auto. exact I.
      - apply in_or_app. right. left. reflexivity. }
    primH. intros x h [[[Hm [Hf [Hb Hi]]] Hnz] Hflush].
    split; [|split; [|split; [|split]]].
    - apply midway_event; try reflexivity; [|right; reflexivity].
      apply midway_store; auto.
    - rewrite bufferAt_slots; auto.
    - subst here. cbn beta in *. cbn [mEGLSlots set_mEGLSlots].
      rewrite (slotAt_updateSlot_field mEglImage); auto.
    - unfold fencesAfter. rewrite Hon. split; [|split; [|split]].
      + intros j Hj. unfold sameFence. cbn [mEGLSlots set_mEGLSlots].
        rewrite slotAt_updateSlot_other
          by (intros Heq; apply Hj; symmetry; exact Heq).
        apply Hf.
      + rewrite filter_snoc, app_nil_r. apply Hm.
      + apply in_or_app. left. exact Hflush.
      + intros Hin. fold cur. cbn [mEGLSlots set_mEGLSlots].
        rewrite slotAt_updateSlot_same; [reflexivity | exact Hin |].
        apply inBounds_in_table; [exact Hin | eauto].
    - intros _. exact Hnz. }
  (* release old buffer *)
  apply (hoareH_bind _ _
           (fun f x h => T4 x h /\
                         f = mFence (slotAt (stray env) (mEGLSlots x) cur))).
  { primH. intros x h [Hm [Hb [Hi [Hfa Hp]]]]. split; [|reflexivity].
    subst T4. cbn beta. conjs; auto.
    - apply midway_event; auto. right; reflexivity.
    - apply fencesAfter_event; auto. }
  intros oldFence.
  pose (T5 := fun x h =>
          landing env s buf
            [ReleaseBuffer cur dpy (mFence (slotAt (stray env) (mEGLSlots x) cur))]
            syn (replaced env s item) x h /\
          bufferAt env buf x = installed env s item /\
          mEglImage (here x) = bound env s item /\
          fencesAfter env s x h /\
          (handsOff s = true -> eglCreateSyncKHR env <> EGL_NO_SYNC_KHR)).
  keepH T5.
  { primH. intros x h [[Hm [Hb [Hi [Hfa Hp]]]] Hfence]. rewrite Hfence.
    subst T5. cbn beta. conjs; auto; [|apply fencesAfter_event; auto].
    destruct Hm as [H1 [H2 [H3 [H4 [H5 [H6 [H7 [H8 H9]]]]]]]].
    unfold landing. conjs; auto.
    - apply Forall_app. split; [assumption | repeat constructor].
    - rewrite filter_snoc, H7. reflexivity.
    - rewrite filter_snoc, H8, app_nil_r. reflexivity.
    - rewrite filter_snoc, H9, app_nil_r. reflexivity. }
  (* Update the SurfaceTexture state. *)
  keepH (fun x h => T5 x h /\ mCurrentTexture x = buf).
  { primH. intros x h Hx. split; [exact Hx | reflexivity]. }
  apply (hoareH_bind _ _
           (fun g x h => (T5 x h /\ mCurrentTexture x = buf) /\
                         g = bufferAt env buf x)).
  { primH. intros x h [[Hl [Hb [Hi [Hfa Hp]]]] Hc]. split; [|reflexivity].
    split; [|exact Hc]. subst T5. cbn beta. conjs; auto.
    - apply landing_event; auto. left; reflexivity.
    - apply fencesAfter_event; auto. }
  intros g.
  pose (C2 := fun x h => (T5 x h /\ mCurrentTexture x = buf) /\
                         mCurrentTextureBuf x = bufferAt env buf x).
  keepH C2.
  { primH. intros x h [Hx ->]. split; [exact Hx | reflexivity]. }
  pose (C3 := fun x h => C2 x h /\ mCurrentCrop x = mCrop item).
  keepH C3; [primH; intros x h Hx; split; [exact Hx | reflexivity]|].
  pose (C4 := fun x h => C3 x h /\ mCurrentTransform x = mTransform item).
  keepH C4; [primH; intros x h Hx; split; [exact Hx | reflexivity]|].
  pose (C5 := fun x h => C4 x h /\ mCurrentScalingMode x = mScalingMode item).
  keepH C5; [primH; intros x h Hx; split; [exact Hx | reflexivity]|].
  pose (C6 := fun x h => C5 x h /\ mCurrentTimestamp x = mTimestamp item).
  keepH C6; [primH; intros x h Hx; split; [exact Hx | reflexivity]|].
  apply hoareH_call.
  intros x h u x' t' HC Hrun.
  destruct HC as [[[[[[[Hl [Hb [Hi [Hfa Hp]]]] Hc1] Hc2] Hc3] Hc4] Hc5] Hc6].
  rewrite compute_spec in Hrun.
  destruct (composedMatrix (mCurrentTransform x) (mCurrentCrop x)
              (mCurrentTextureBuf x)) as [m|] eqn:Hmatrix; [|discriminate].
  inversion Hrun; subst u x' t'. rewrite app_nil_r.
  destruct Hl as [H1 [H2 [H3 [H5 [H6 [H7 [H8 H9]]]]]]].
  unfold E, acquiredOutcome. fold buf cur dpy.
  split; [exact H1|]. split; [exact H2|]. split; [exact H3|].
  split; [exact H5|]. split; [exact Hb|]. split; [exact H6|].
  split; [exact H9|]. split; [left; reflexivity|].
  split; [intros Hne; contradiction Hne; reflexivity|].
  intros _.
  split.
  { unfold committed. fold buf. cbn.
    rewrite <- Hc3, <- Hc4. conjs; auto. }
  split; [exact Hi|]. split; [exact Hbound|]. split; [|split; [exact H7 | exact Hfa]].
  unfold failureCause. fold buf cur.
  intros [[Hgb Hhad] | [[Hgb Hcreated] | [Hdrain | [Hcur [Hufs Hfence]]]]].
  - apply Hbound. unfold bound. rewrite Hgb. exact Hhad.
  - apply Hbound. unfold bound.
    destruct (mGraphicBuffer item); [exact Hcreated | contradiction].
  - contradiction.
  - apply Hp; [|exact Hfence]. unfold handsOff. fold cur.
    apply neq_true_iff in Hcur. rewrite Hcur, Hufs. reflexivity.
Qed.

End AcquiredOutcome.


(** ** The ways through [updateTexImage] *)

Section UpdatePaths.

Lemma checksPass_dec env s : checksPass env s \/ ~ checksPass env s.
Proof.
  unfold checksPass.
  destruct (Z.eq_dec (mEglDisplay s) (eglGetCurrentDisplay env));
    destruct (Z.eq_dec (mEglDisplay s) EGL_NO_DISPLAY);
    destruct (Z.eq_dec (mEglContext s) (eglGetCurrentContext env));
    destruct (Z.eq_dec (mEglContext s) EGL_NO_CONTEXT); tauto.
Qed.

Lemma checksFail_mismatch env s :
  ~ checksPass env s ->
  (mEglDisplay s <> eglGetCurrentDisplay env /\ mEglDisplay s <> EGL_NO_DISPLAY) \/
  (mEglContext s <> eglGetCurrentContext env /\ mEglContext s <> EGL_NO_CONTEXT).
Proof.
  unfold checksPass. intros H.
  destruct (Z.eq_dec (mEglDisplay s) (eglGetCurrentDisplay env));
    destruct (Z.eq_dec (mEglDisplay s) EGL_NO_DISPLAY);
    destruct (Z.eq_dec (mEglContext s) (eglGetCurrentContext env));
    destruct (Z.eq_dec (mEglContext s) EGL_NO_CONTEXT); tauto.
Qed.

(** Past its checks [updateTexImage] goes through the queue reference. *)
Lemma updateTexImage_without_queue env s :
  mAbandoned s = false -> checksPass env s -> mBufferQueue s = None ->
  updateTexImage env s = NullDereference [].
Proof.
  intros Hlive [Hd Hc] Hq. unfold updateTexImage, function.
  rewrite bind_get, Hlive. cbn [when]. rewrite bind_ret.
  rewrite bind_get, (display_check_passes _ _ _ Hd). cbn [when].
  rewrite bind_ret.
  rewrite bind_get, (display_check_passes _ _ _ Hc). cbn [when].
  rewrite bind_ret, bind_modify, bind_modify.
  rewrite bind_queueCall_none by exact Hq. reflexivity.
Qed.

(** When the acquire fails the texture is bound and nothing else happens. *)
Lemma updateTexImage_nothing_acquired env s q :
  mAbandoned s = false -> mBufferQueue s = Some q -> checksPass env s ->
  fst (acquireBuffer env) <> NO_ERROR ->
  updateTexImage env s
  = Returned OK (latch env s)
      [AcquireBuffer; GlBindTexture (mTexTarget s) (mTexName s)].
Proof.
  intros Hlive Hq Hchecks Herr. unfold updateTexImage, function.
  rewrite (updateTexImage_to_acquire env s q Hlive Hq Hchecks).
  destruct (acquireBuffer env) as [status item]. cbn [fst] in Herr.
  apply Z.eqb_neq in Herr. rewrite Herr. reflexivity.
Qed.

(** Every call that returns took one of the four ways. *)
Lemma updateTexImage_paths env s r s' t :
  fullTable s ->
  queueInRange env ->
  updateTexImage env s = Returned r s' t ->
  UpdatePath env s r s' t.
Proof.
  intros Hfull Hrange Hrun.
  destruct (mAbandoned s) eqn:Hlive.
  { rewrite updateTexImage_abandoned in Hrun by exact Hlive.
    inversion Hrun; subst. apply pathAbandoned, Hlive. }
  destruct (checksPass_dec env s) as [Hchecks|Hchecks].
  2:{ rewrite context_mismatch in Hrun by auto using checksFail_mismatch.
      inversion Hrun; subst. apply pathTurnedAway; assumption. }
  destruct (mBufferQueue s) as [q|] eqn:Hq.
  2:{ rewrite updateTexImage_without_queue in Hrun by assumption. discriminate. }
  destruct (Z.eq_dec (fst (acquireBuffer env)) NO_ERROR) as [Hacq|Hacq].
  - assert (Hitem : acquireBuffer env = (NO_ERROR, snd (acquireBuffer env))).
    { destruct (acquireBuffer env); cbn in *; congruence. }
    apply pathAcquired; auto.
    apply (updateTexImage_acquired env s _ Hlive Hchecks Hfull Hitem (Hrange Hacq)
             r s' t Hrun).
  - rewrite (updateTexImage_nothing_acquired env s q) in Hrun by assumption.
    inversion Hrun; subst. apply pathNothingAcquired; assumption.
Qed.

End UpdatePaths.


(** ** What a call of [updateTexImage] does and does not do *)

Section UpdateProperties.



(** X2.  When [updateTexImage] returns [OK] after the queue handed out an
    item, the item's frame is the current one: the current slot is the
    item's slot, the current buffer is the buffer of that slot (the item's
    own buffer when it brings one), crop, transform flags, scaling mode and
    timestamp are the item's, the matrix is the composer's for them, and the
    accessors return exactly these. *)
Theorem updateTexImage_commits env s item s' t :
  fullTable s ->
  acquireBuffer env = (NO_ERROR, item) ->
  inBounds (mBuf item) = true ->
  updateTexImage env s = Returned OK s' t ->
  committed env item s' /\
  getCurrentBuffer s' = Returned (installed env s item) s' [] /\
  getCurrentCrop s' = Returned (mCrop item) s' [] /\
  getCurrentTransform s' = Returned (mTransform item) s' [] /\
  getCurrentScalingMode s' = Returned (mScalingMode item) s' [] /\
  getTimestamp s' = Returned (mTimestamp item) s' [] /\
  exists m,
    composedMatrix (mTransform item) (mCrop item) (installed env s item) = Some m /\
    getTransformMatrix s' = Returned m s' [].
Proof.
  intros Hfull Hacq Hbuf Hrun.
  assert (Hrange : queueInRange env).
  { intros _. rewrite Hacq. exact Hbuf. }
  pose proof (updateTexImage_paths env s OK s' t Hfull Hrange Hrun) as Hpath.
  remember OK as r eqn:Hr.
  destruct Hpath
    as [Hdead | Hlive Hchecks | Hlive Hchecks Hno | r x h Hlive Hchecks Hitem Hout];
    try discriminate Hr.
  - rewrite Hacq in Hno. exfalso. apply Hno. reflexivity.
  - subst r. rewrite Hacq in Hout. cbn [snd] in Hout.
    destruct Hout as [_ [_ [_ [_ [Hinst [_ [_ [_ [_ Hok]]]]]]]]].
    destruct (Hok eq_refl) as [Hcommit _]. split; [exact Hcommit|].
    destruct Hcommit as [H1 [H2 [H3 [H4 [H5 [H6 H7]]]]]].
    unfold getCurrentBuffer, getCurrentCrop, getCurrentTransform,
      getCurrentScalingMode, getTimestamp, getTransformMatrix, function, get.
    rewrite H2, Hinst in *. rewrite H3, H4, H5, H6.
    repeat (split; [reflexivity|]).
    exists (mCurrentTransformMatrix x). split; [exact H7 | reflexivity].
Qed.

Lemma updateTexImage_commits_witness :
  committed (Sample.good 1) (Sample.newFrame 1)
    (Scenario.stateAfter (Sample.good 1) Sample.oneFrame) /\
  getCurrentBuffer (Scenario.stateAfter (Sample.good 1) Sample.oneFrame)
  = Returned (installed (Sample.good 1) Sample.oneFrame (Sample.newFrame 1))
      (Scenario.stateAfter (Sample.good 1) Sample.oneFrame) [] /\
  getCurrentCrop (Scenario.stateAfter (Sample.good 1) Sample.oneFrame)
  = Returned (mCrop (Sample.newFrame 1))
      (Scenario.stateAfter (Sample.good 1) Sample.oneFrame) [] /\
  getCurrentTransform (Scenario.stateAfter (Sample.good 1) Sample.oneFrame)
  = Returned (mTransform (Sample.newFrame 1))
      (Scenario.stateAfter (Sample.good 1) Sample.oneFrame) [] /\
  getCurrentScalingMode (Scenario.stateAfter (Sample.good 1) Sample.oneFrame)
  = Returned (mScalingMode (Sample.newFrame 1))
      (Scenario.stateAfter (Sample.good 1) Sample.oneFrame) [] /\
  getTimestamp (Scenario.stateAfter (Sample.good 1) Sample.oneFrame)
  = Returned (mTimestamp (Sample.newFrame 1))
      (Scenario.stateAfter (Sample.good 1) Sample.oneFrame) [] /\
  exists m,
    composedMatrix (mTransform (Sample.newFrame 1)) (mCrop (Sample.newFrame 1))
      (installed (Sample.good 1) Sample.oneFrame (Sample.newFrame 1)) = Some m /\
    getTransformMatrix (Scenario.stateAfter (Sample.good 1) Sample.oneFrame)
    = Returned m (Scenario.stateAfter (Sample.good 1) Sample.oneFrame) [].
Proof.
  apply (updateTexImage_commits (Sample.good 1) Sample.oneFrame (Sample.newFrame 1)
           (Scenario.stateAfter (Sample.good 1) Sample.oneFrame)
           (Scenario.traceAfter (Sample.good 1) Sample.oneFrame)).
  - reflexivity.
  - reflexivity.
  - reflexivity.
  - vm_compute. reflexivity.
Defined.

End UpdateProperties.


Section UpdateProperties2.

(** X3.  On a well-formed instance that passes the checks, a call of
    [updateTexImage] that acquires an item returns, and it returns [OK]
    exactly when nothing fails: the slot has an image or the item brings a
    buffer from which the image is made, the bind leaves no GL error, and
    the fence, when one is needed, is made. *)
Theorem updateTexImage_succeeds_iff env s item :
  mAbandoned s = false ->
  wellFormed s ->
  checksPass env s ->
  acquireBuffer env = (NO_ERROR, item) ->
  inBounds (mBuf item) = true ->
  exists r s' t,
    updateTexImage env s = Returned r s' t /\
    (r = OK <-> ~ failureCause env s item).
Proof.
  intros Hlive [Hatt [Hfull Hslots]] Hchecks Hacq Hbuf.
  destruct (mBufferQueue s) as [q|] eqn:Hq; [|exfalso; apply (Hatt Hlive Hq)].
  assert (Hrange : fst (acquireBuffer env) = NO_ERROR ->
                   inBounds (mBuf (snd (acquireBuffer env))) = true).
  { intros _. rewrite Hacq. exact Hbuf. }
  destruct (updateTexImage_past_checks env s q Hlive Hq Hchecks Hfull Hslots Hrange)
    as [r [s' [t [Hrun _]]]].
  exists r, s', t. split; [exact Hrun|].
  pose proof (updateTexImage_acquired env s item Hlive Hchecks Hfull Hacq Hbuf
                r s' t Hrun) as Hout.
  destruct Hout as [_ [_ [_ [_ [_ [_ [_ [_ [Herr Hok]]]]]]]]].
  split.
  - intros Hr. apply (Hok Hr).
  - intros Hfine. destruct (Z.eq_dec r OK) as [Hr|Hr]; [exact Hr|].
    exfalso. apply Hfine. apply (Herr Hr).
Qed.

Lemma updateTexImage_succeeds_iff_witness :
  exists r s' t,
    updateTexImage Scenario.bindFails Sample.oneFrame = Returned r s' t /\
    (r = OK <-> ~ failureCause Scenario.bindFails Sample.oneFrame (Sample.newFrame 1)).
Proof.
  apply (updateTexImage_succeeds_iff Scenario.bindFails Sample.oneFrame
           (Sample.newFrame 1)).
  - reflexivity.
  - split; [vm_compute; discriminate|]. split; [reflexivity|].
    repeat (apply Forall_cons;
            [vm_compute; intros H1 H2;
             first [discriminate H2 | apply H1; reflexivity]|]).
    apply Forall_nil.
  - vm_compute. auto.
  - reflexivity.
  - reflexivity.
Defined.

(** X4.  [updateTexImage] gives at most one buffer back to the queue per
    call.  After a successful acquire, [OK] comes with exactly one
    [releaseBuffer], for the slot that was current before the call and with
    the fence stored in that slot; an error comes with none, or with one for
    the acquired slot and its own fence.  Without an acquire nothing is
    released. *)
Theorem updateTexImage_releases env s r s' t :
  fullTable s ->
  queueInRange env ->
  updateTexImage env s = Returned r s' t ->
  let item := snd (acquireBuffer env) in
  let dpy := eglGetCurrentDisplay env in
  (fst (acquireBuffer env) = NO_ERROR -> r = OK ->
   filter isRelease t
   = [ReleaseBuffer (mCurrentTexture s) dpy
        (mFence (slotAt (stray env) (mEGLSlots s') (mCurrentTexture s)))]) /\
  (r <> OK ->
   filter isRelease t = [] \/
   filter isRelease t
   = [ReleaseBuffer (mBuf item) dpy
        (mFence (slotAt (stray env) (mEGLSlots s) (mBuf item)))]) /\
  (fst (acquireBuffer env) <> NO_ERROR -> filter isRelease t = []).
Proof.
  intros Hfull Hrange Hrun item dpy.
  destruct (updateTexImage_paths env s r s' t Hfull Hrange Hrun)
    as [Hdead | Hlive Hchecks | Hlive Hchecks Hacq | r x h Hlive Hchecks Hacq Hout].
  - split; [discriminate|]. split; auto.
  - split; [discriminate|]. split; auto.
  - split; [intros H; contradiction|]. split; auto.
  - destruct Hout as [_ [_ [_ [_ [_ [_ [_ [_ [Herr Hok]]]]]]]]].
    split; [|split].
    + intros _ Hr. apply (Hok Hr).
    + intros Hr. apply (Herr Hr).
    + intros Hno. rewrite Hacq in Hno. contradiction Hno. reflexivity.
Qed.

Lemma updateTexImage_releases_witness :
  (fst (acquireBuffer (Sample.good 1)) = NO_ERROR -> OK = OK ->
   filter isRelease (Scenario.traceAfter (Sample.good 1) Sample.oneFrame)
   = [ReleaseBuffer (mCurrentTexture Sample.oneFrame) 1
        (mFence (slotAt emptySlot
                   (mEGLSlots (Scenario.stateAfter (Sample.good 1) Sample.oneFrame))
                   (mCurrentTexture Sample.oneFrame)))]) /\
  (OK <> OK ->
   filter isRelease (Scenario.traceAfter (Sample.good 1) Sample.oneFrame) = [] \/
   filter isRelease (Scenario.traceAfter (Sample.good 1) Sample.oneFrame)
   = [ReleaseBuffer 1 1
        (mFence (slotAt emptySlot (mEGLSlots Sample.oneFrame) 1))]) /\
  (fst (acquireBuffer (Sample.good 1)) <> NO_ERROR ->
   filter isRelease (Scenario.traceAfter (Sample.good 1) Sample.oneFrame) = []).
Proof.
  apply (updateTexImage_releases (Sample.good 1) Sample.oneFrame OK
           (Scenario.stateAfter (Sample.good 1) Sample.oneFrame)
           (Scenario.traceAfter (Sample.good 1) Sample.oneFrame)).
  - reflexivity.
  - intros _. reflexivity.
  - vm_compute. reflexivity.
Defined.

(** X5.  The fence handoff.  When [updateTexImage] returns [OK] after an
    acquire, with fence sync on and a current slot of the table: exactly one
    fence was created, the GPU was flushed, the fence is stored in the slot
    that was current, and that fence goes to the queue with the release.
    With fence sync off or no current slot, no fence is created and no fence
    of the table changes. *)
Theorem updateTexImage_hands_fence_off env s item s' t :
  fullTable s ->
  acquireBuffer env = (NO_ERROR, item) ->
  inBounds (mBuf item) = true ->
  updateTexImage env s = Returned OK s' t ->
  let cur := mCurrentTexture s in
  let dpy := eglGetCurrentDisplay env in
  if handsOff s
  then inBounds cur = true ->
       filter isCreateSync t = [EglCreateSyncKHR dpy] /\
       In GlFlush t /\
       eglCreateSyncKHR env <> EGL_NO_SYNC_KHR /\
       mFence (slotAt (stray env) (mEGLSlots s') cur) = eglCreateSyncKHR env /\
       filter isRelease t = [ReleaseBuffer cur dpy (eglCreateSyncKHR env)]
  else filter isCreateSync t = [] /\
       fencesKept env s s' /\
       filter isRelease t
       = [ReleaseBuffer cur dpy (mFence (slotAt (stray env) (mEGLSlots s) cur))].
Proof.
  intros Hfull Hacq Hbuf Hrun cur dpy.
  assert (Hrange : queueInRange env).
  { intros _. rewrite Hacq. exact Hbuf. }
  pose proof (updateTexImage_paths env s OK s' t Hfull Hrange Hrun) as Hpath.
  remember OK as r eqn:Hr.
  destruct Hpath
    as [Hdead | Hlive Hchecks | Hlive Hchecks Hno | r x h Hlive Hchecks Hitem Hout];
    try discriminate Hr.
  - rewrite Hacq in Hno. exfalso. apply Hno. reflexivity.
  - subst r. rewrite Hacq in Hout. cbn [snd] in Hout.
    destruct Hout as [_ [_ [_ [_ [_ [_ [_ [_ [_ Hok]]]]]]]]].
    destruct (Hok eq_refl) as [_ [_ [_ [Hfine [Hrel [Hothers Hfence]]]]]].
    fold cur dpy in Hrel, Hothers, Hfence |- *.
    destruct (handsOff s) eqn:Hon.
    + intros Hin. destruct Hfence as [Hsyn [Hflush Hstored]].
      specialize (Hstored Hin). rewrite Hstored in Hrel.
      repeat (split; [assumption|]). split; [|split; assumption].
      intros Hzero. apply Hfine. right; right; right.
      unfold handsOff in Hon. apply andb_true_iff in Hon. destruct Hon as [Hc Hu].
      apply neq_true_iff in Hc. auto.
    + destruct Hfence as [Hsyn Hcur]. split; [exact Hsyn|].
      assert (Hall : fencesKept env s x).
      { intros j. destruct (Z.eq_dec j cur) as [->|Hj]; auto. }
      split; [exact Hall|]. rewrite Hrel. f_equal. f_equal. apply Hcur.
Qed.

Lemma updateTexImage_hands_fence_off_witness :
  let env := Sample.good 1 in
  let s := Sample.oneFrameFenced in
  let s' := Scenario.stateAfter (Sample.good 1) Sample.oneFrameFenced in
  let t := Scenario.traceAfter (Sample.good 1) Sample.oneFrameFenced in
  let cur := mCurrentTexture s in
  let dpy := eglGetCurrentDisplay env in
  if handsOff s
  then inBounds cur = true ->
       filter isCreateSync t = [EglCreateSyncKHR dpy] /\
       In GlFlush t /\
       eglCreateSyncKHR env <> EGL_NO_SYNC_KHR /\
       mFence (slotAt (stray env) (mEGLSlots s') cur) = eglCreateSyncKHR env /\
       filter isRelease t = [ReleaseBuffer cur dpy (eglCreateSyncKHR env)]
  else filter isCreateSync t = [] /\
       fencesKept env s s' /\
       filter isRelease t
       = [ReleaseBuffer cur dpy (mFence (slotAt (stray env) (mEGLSlots s) cur))].
Proof.
  intros env s s' t.
  apply (updateTexImage_hands_fence_off env s (Sample.newFrame 1) s' t).
  - reflexivity.
  - reflexivity.
  - reflexivity.
  - vm_compute. reflexivity.
Defined.

End UpdateProperties2.


Section UpdateProperties3.




(** X7.  A call of [updateTexImage] that acquires an item leaves the native
    buffer and the GPU image of every other slot alone, on every path.  It
    destroys a GPU image only when the item brings a new buffer for a slot
    that held an image, and then that image, once.  A buffer the item brings
    is in its slot afterwards, whether the call succeeds or not; otherwise
    the slot keeps its buffer.  Texture name, texture target, fence mode,
    name, the abandoned flag and the queue are not written. *)
Theorem updateTexImage_touches_one_slot env s item r s' t :
  mAbandoned s = false ->
  checksPass env s ->
  fullTable s ->
  acquireBuffer env = (NO_ERROR, item) ->
  inBounds (mBuf item) = true ->
  updateTexImage env s = Returned r s' t ->
  (forall j, j <> mBuf item -> sameContent env s s' j) /\
  filter isDestroyImage t = replaced env s item /\
  bufferAt env (mBuf item) s' = installed env s item /\
  sameSetup s s'.
Proof.
  intros Hlive Hchecks Hfull Hacq Hbuf Hrun.
  destruct (updateTexImage_acquired env s item Hlive Hchecks Hfull Hacq Hbuf
              r s' t Hrun) as [Hsetup [_ [_ [Hothers [Hinst [_ [Hdes _]]]]]]].
  auto.
Qed.

Lemma updateTexImage_touches_one_slot_witness :
  (forall j, j <> mBuf (Sample.newFrame 0) ->
     sameContent (Sample.good 0) Sample.threeFrames
       (Scenario.stateAfter (Sample.good 0) Sample.threeFrames) j) /\
  filter isDestroyImage (Scenario.traceAfter (Sample.good 0) Sample.threeFrames)
  = replaced (Sample.good 0) Sample.threeFrames (Sample.newFrame 0) /\
  bufferAt (Sample.good 0) (mBuf (Sample.newFrame 0))
    (Scenario.stateAfter (Sample.good 0) Sample.threeFrames)
  = installed (Sample.good 0) Sample.threeFrames (Sample.newFrame 0) /\
  sameSetup Sample.threeFrames
    (Scenario.stateAfter (Sample.good 0) Sample.threeFrames).
Proof.
  apply (updateTexImage_touches_one_slot (Sample.good 0) Sample.threeFrames
           (Sample.newFrame 0) OK
           (Scenario.stateAfter (Sample.good 0) Sample.threeFrames)
           (Scenario.traceAfter (Sample.good 0) Sample.threeFrames)).
  - reflexivity.
  - vm_compute. auto.
  - reflexivity.
  - reflexivity.
  - reflexivity.
  - vm_compute. reflexivity.
Defined.

(** X8.  The context binding is permanent: once a display, or a context,
    other than the "none" sentinel is latched, no call of [updateTexImage]
    changes it, whatever display and context the caller is on. *)
Theorem latched_context_is_permanent env s r s' t :
  fullTable s ->
  queueInRange env ->
  updateTexImage env s = Returned r s' t ->
  (mEglDisplay s <> EGL_NO_DISPLAY -> mEglDisplay s' = mEglDisplay s) /\
  (mEglContext s <> EGL_NO_CONTEXT -> mEglContext s' = mEglContext s).
Proof.
  intros Hfull Hrange Hrun.
  assert (Hpass : forall x, latched env x -> checksPass env s ->
            (mEglDisplay s <> EGL_NO_DISPLAY -> mEglDisplay x = mEglDisplay s) /\
            (mEglContext s <> EGL_NO_CONTEXT -> mEglContext x = mEglContext s)).
  { intros x [Hd Hc] [[Hd'|Hd'] [Hc'|Hc']]; split; intros Hn; congruence. }
  destruct (updateTexImage_paths env s r s' t Hfull Hrange Hrun)
    as [Hdead | Hlive Hchecks | Hlive Hchecks Hacq | r x h Hlive Hchecks Hacq Hout].
  - auto.
  - auto.
  - apply Hpass; [split; reflexivity | exact Hchecks].
  - apply Hpass; [apply Hout | exact Hchecks].
Qed.

Lemma latched_context_is_permanent_witness :
  (mEglDisplay Sample.oneFrame <> EGL_NO_DISPLAY ->
   mEglDisplay (Scenario.stateAfter Sample.otherDisplay Sample.oneFrame)
   = mEglDisplay Sample.oneFrame) /\
  (mEglContext Sample.oneFrame <> EGL_NO_CONTEXT ->
   mEglContext (Scenario.stateAfter Sample.otherDisplay Sample.oneFrame)
   = mEglContext Sample.oneFrame).
Proof.
  apply (latched_context_is_permanent Sample.otherDisplay Sample.oneFrame
           (- EINVAL) (Scenario.stateAfter Sample.otherDisplay Sample.oneFrame)
           (Scenario.traceAfter Sample.otherDisplay Sample.oneFrame)).
  - reflexivity.
  - intros _. reflexivity.
  - vm_compute. reflexivity.
Defined.

(** X9.  In the steady state nothing leaks: when two calls of
    [updateTexImage] in a row both acquire an item and return [OK], the
    second releases exactly the slot the first acquired, and nothing else. *)
Theorem consecutive_updates_release_previous env1 env2 s item1 item2 s1 t1 s2 t2 :
  fullTable s ->
  acquireBuffer env1 = (NO_ERROR, item1) ->
  inBounds (mBuf item1) = true ->
  updateTexImage env1 s = Returned OK s1 t1 ->
  acquireBuffer env2 = (NO_ERROR, item2) ->
  inBounds (mBuf item2) = true ->
  updateTexImage env2 s1 = Returned OK s2 t2 ->
  filter isRelease t2
  = [ReleaseBuffer (mBuf item1) (eglGetCurrentDisplay env2)
       (mFence (slotAt (stray env2) (mEGLSlots s2) (mBuf item1)))].
Proof.
  intros Hfull Hacq1 Hbuf1 Hrun1 Hacq2 Hbuf2 Hrun2.
  assert (Hfirst : mCurrentTexture s1 = mBuf item1 /\ fullTable s1).
  { assert (Hrange : queueInRange env1).
    { intros _. rewrite Hacq1. exact Hbuf1. }
    pose proof (updateTexImage_paths env1 s OK s1 t1 Hfull Hrange Hrun1) as Hpath.
    remember OK as r eqn:Hr.
    destruct Hpath
      as [Hdead | Hlive Hchecks | Hlive Hchecks Hno | r x h Hlive Hchecks Hitem Hout];
      try discriminate Hr.
    - rewrite Hacq1 in Hno. exfalso. apply Hno. reflexivity.
    - subst r. rewrite Hacq1 in Hout. cbn [snd] in Hout.
      destruct Hout as [_ [_ [Hfull1 [_ [_ [_ [_ [_ [_ Hok]]]]]]]]].
      destruct (Hok eq_refl) as [[Hcur _] _]. auto. }
  destruct Hfirst as [Hcur Hfull1].
  assert (Hrange : queueInRange env2).
  { intros _. rewrite Hacq2. exact Hbuf2. }
  pose proof (updateTexImage_paths env2 s1 OK s2 t2 Hfull1 Hrange Hrun2) as Hpath.
  remember OK as r eqn:Hr.
  destruct Hpath
    as [Hdead | Hlive Hchecks | Hlive Hchecks Hno | r x h Hlive Hchecks Hitem Hout];
    try discriminate Hr.
  - rewrite Hacq2 in Hno. exfalso. apply Hno. reflexivity.
  - subst r. rewrite Hacq2 in Hout. cbn [snd] in Hout.
    destruct Hout as [_ [_ [_ [_ [_ [_ [_ [_ [_ Hok]]]]]]]]].
    destruct (Hok eq_refl) as [_ [_ [_ [_ [Hrel _]]]]].
    rewrite Hcur in Hrel. exact Hrel.
Qed.

Lemma consecutive_updates_release_previous_witness :
  filter isRelease
    (Scenario.traceAfter (Sample.good 1)
       (Scenario.stateAfter (Sample.good 0) Sample.fresh))
  = [ReleaseBuffer (mBuf (Sample.newFrame 0)) (eglGetCurrentDisplay (Sample.good 1))
       (mFence (slotAt (stray (Sample.good 1))
                  (mEGLSlots
                     (Scenario.stateAfter (Sample.good 1)
                        (Scenario.stateAfter (Sample.good 0) Sample.fresh)))
                  (mBuf (Sample.newFrame 0))))].
Proof.
  apply (consecutive_updates_release_previous (Sample.good 0) (Sample.good 1)
           Sample.fresh (Sample.newFrame 0) (Sample.newFrame 1)
           (Scenario.stateAfter (Sample.good 0) Sample.fresh)
           (Scenario.traceAfter (Sample.good 0) Sample.fresh)
           (Scenario.stateAfter (Sample.good 1)
              (Scenario.stateAfter (Sample.good 0) Sample.fresh))
           (Scenario.traceAfter (Sample.good 1)
              (Scenario.stateAfter (Sample.good 0) Sample.fresh))).
  - reflexivity.
  - reflexivity.
  - reflexivity.
  - vm_compute. reflexivity.
  - reflexivity.
  - reflexivity.
  - vm_compute. reflexivity.
Defined.

End UpdateProperties3.


(** ** Invariants of the reachable states *)

Section Reachable.

Lemma Returned_inj {R} (r r' : R) s s' t t' :
  Returned r s t = Returned r' s' t' -> r = r' /\ s = s' /\ t = t'.
Proof. intros H. injection H. auto. Qed.

Lemma onBuffersReleased_cases env s s' t :
  onBuffersReleased env s = Returned tt s' t ->
  s' = s \/
  (mAbandoned s = false /\
   s' = set_mCurrentTexture
          (set_mEGLSlots s
             (freeMasked (getReleasedBuffers env) (Z.to_nat NUM_BUFFER_SLOTS) 0
                (mEGLSlots s)))
          INVALID_BUFFER_SLOT).
Proof.
  intros Hrun. destruct (mAbandoned s) eqn:Hlive.
  - rewrite onBuffersReleased_abandoned in Hrun by exact Hlive.
    apply Returned_inj in Hrun as [_ [Hs _]]. left. symmetry. exact Hs.
  - destruct (mBufferQueue s) as [q|] eqn:Hq.
    + destruct (onBuffersReleased_live env s q Hlive Hq) as [t' Ht].
      rewrite Ht in Hrun. apply Returned_inj in Hrun as [_ [Hs _]].
      right. split; [reflexivity | symmetry; exact Hs].
    + unfold onBuffersReleased, function in Hrun.
      rewrite bind_get, Hlive in Hrun. cbn [when] in Hrun.
      rewrite bind_ret, bind_queueCall_none in Hrun by exact Hq. discriminate.
Qed.

Lemma abandon_cases env s s' t :
  abandon env s = Returned tt s' t ->
  s' = s /\ mAbandoned s = true \/
  (mAbandoned s = false /\
   s' = set_mBufferQueue
          (set_mEGLSlots
             (set_mCurrentTextureBuf (set_mAbandoned s true) None)
             (freeRange (Z.to_nat NUM_BUFFER_SLOTS) 0 (mEGLSlots s)))
          None).
Proof.
  intros Hrun. destruct (mAbandoned s) eqn:Hlive.
  - rewrite abandon_again in Hrun by exact Hlive.
    apply Returned_inj in Hrun as [_ [Hs _]]. left. split; [symmetry; exact Hs | reflexivity].
  - destruct (mBufferQueue s) as [q|] eqn:Hq.
    + destruct (abandon_first env s q Hlive Hq) as [t' Ht].
      rewrite Ht in Hrun. apply Returned_inj in Hrun as [_ [Hs _]].
      right. split; [reflexivity | symmetry; exact Hs].
    + exfalso. unfold abandon, function in Hrun.
      rewrite bind_get, Hlive in Hrun. cbn [negb when] in Hrun.
      rewrite bind_modify, bind_modify in Hrun.
      destruct (abandon_loop env (Z.to_nat NUM_BUFFER_SLOTS) 0
                  (set_mCurrentTextureBuf (set_mAbandoned s true) None))
        as [t' Ht].
      unfold bind at 1 in Hrun. rewrite Ht in Hrun.
      rewrite bind_queueCall_none in Hrun by exact Hq. discriminate.
Qed.

Lemma setName_cases name s s' t :
  setName name s = Returned tt s' t -> s' = set_mName s name.
Proof.
  unfold setName, function. rewrite bind_modify. unfold queueCall.
  destruct (mBufferQueue s) as [q|] eqn:Hq.
  - rewrite (bind_deref_some (R := unit) (B := unit) mBufferQueue _
               (set_mName s name) q Hq).
    cbn. intros H. apply Returned_inj in H as [_ [Hs _]]. symmetry. exact Hs.
  - rewrite (bind_deref_none (R := unit) (B := unit) mBufferQueue _
               (set_mName s name) Hq).
    discriminate.
Qed.

Lemma update_keeps_sound env s r s' t :
  sound s -> queueInRange env ->
  updateTexImage env s = Returned r s' t -> sound s'.
Proof.
  intros [Hwf [Hcur [Hbuf Hq]]] Hrange Hrun.
  assert (Hwf' : wellFormed s').
  { destruct (updateTexImage_wellFormed env s Hwf Hrange) as [r0 [s0 [t0 [H0 Hw]]]].
    rewrite H0 in Hrun. apply Returned_inj in Hrun as [_ [Hs _]].
    rewrite <- Hs. exact Hw. }
  split; [exact Hwf'|].
  destruct Hwf as [Hatt [Hfull Hslots]].
  destruct (updateTexImage_paths env s r s' t Hfull Hrange Hrun)
    as [Hdead | Hlive Hchecks | Hlive Hchecks Hacq | r x h Hlive Hchecks Hacq Hout];
    auto.
  destruct Hout as [Hsetup [_ [_ [_ [Hinst [_ [_ [_ [Herr Hok]]]]]]]]].
  destruct Hsetup as [_ [_ [_ [_ [Hdead Hqueue]]]]].
  assert (Hq' : mBufferQueue x = None -> mAbandoned x = true).
  { rewrite Hdead, Hqueue. exact Hq. }
  destruct (Z.eq_dec r OK) as [Hr|Hr].
  - destruct (Hok Hr) as [[Hc1 [Hc2 _]] [_ [Hbound _]]].
    assert (Hin : inBounds (mBuf (snd (acquireBuffer env))) = true).
    { apply Hrange. rewrite Hacq. reflexivity. }
    split; [right; rewrite Hc1; exact Hin|]. split; [|exact Hq'].
    intros _ _. rewrite Hc2, Hinst. unfold installed, bound in *.
    destruct (mGraphicBuffer (snd (acquireBuffer env))); [discriminate|].
    unfold bufferAt.
    apply (slotsOK_of_Forall env s Hfull Hslots _ Hin). exact Hbound.
  - destruct (Herr Hr) as [[H1 [H2 _]] _].
    split; [unfold currentValid; rewrite H1; exact Hcur|]. split; [|exact Hq'].
    unfold currentHasBuffer. rewrite Hdead, H1, H2. exact Hbuf.
Qed.

Lemma reachable_sound s : reachable s -> sound s.
Proof.
  induction 1 as [fenceBuild name fresh crop mode tex sync target useFence queue
                 | env s r s' t _ IH Hrange Hrun
                 | env s s' t _ IH Hrun
                 | env s s' t _ IH Hrun
                 | name s s' t _ IH Hrun].
  - split; [apply construct_wellFormed|]. split; [left; reflexivity|].
    split; [intros _ H; contradiction H; reflexivity|].
    cbn. destruct queue; discriminate.
  - eapply update_keeps_sound; eauto.
  - assert (Hwf' : wellFormed s').
    { destruct IH as [Hwf _].
      destruct (onBuffersReleased_wellFormed env s Hwf) as [s0 [t0 [H0 Hw]]].
      rewrite H0 in Hrun. apply Returned_inj in Hrun as [_ [Hs _]].
    rewrite <- Hs. exact Hw. }
    split; [exact Hwf'|].
    destruct IH as [_ [Hcur [Hbuf Hq]]].
    destruct (onBuffersReleased_cases env s s' t Hrun) as [->|[Hlive ->]]; auto.
    split; [left; reflexivity|].
    split; [intros _ H; contradiction H; reflexivity | exact Hq].
  - assert (Hwf' : wellFormed s').
    { destruct IH as [Hwf _].
      destruct (abandon_wellFormed env s Hwf) as [s0 [t0 [H0 Hw]]].
      rewrite H0 in Hrun. apply Returned_inj in Hrun as [_ [Hs _]].
    rewrite <- Hs. exact Hw. }
    split; [exact Hwf'|].
    destruct IH as [_ [Hcur [Hbuf Hq]]].
    destruct (abandon_cases env s s' t Hrun) as [[-> _]|[Hlive ->]]; auto.
    split; [exact Hcur|]. split; [intros H; discriminate H | reflexivity].
  - rewrite (setName_cases name s s' t Hrun). exact IH.
Qed.

(** X10.  Whatever sequence of [updateTexImage], [onBuffersReleased],
    [abandon] and [setName] an instance went through since its
    construction, with a queue that hands out slots of the table: a slot has
    a GPU image only together with a native buffer; the current slot is the
    sentinel or a slot of the table; a live instance with a current slot has
    a current buffer; the queue reference is null only on an abandoned
    instance; and the next [updateTexImage] returns, it does not go through
    a null pointer. *)
Theorem reachable_states_are_sound s :
  reachable s ->
  Forall imageHasBuffer (mEGLSlots s) /\
  fullTable s /\
  currentValid s /\
  currentHasBuffer s /\
  (mBufferQueue s = None <-> mAbandoned s = true) /\
  (forall env, queueInRange env ->
     exists r s' t, updateTexImage env s = Returned r s' t).
Proof.
  intros Hreach.
  destruct (reachable_sound s Hreach) as [Hwf [Hcur [Hbuf Hq]]].
  pose proof Hwf as [Hatt [Hfull Hslots]].
  repeat (split; [assumption|]). split.
  - split; [exact Hq|]. intros Hdead.
    destruct (mBufferQueue s) as [q|] eqn:Hqueue; [|reflexivity].
    (* the queue is dropped on the way to the abandoned state *)
    exfalso. clear - Hreach Hdead Hqueue.
    revert q Hdead Hqueue.
    induction Hreach as [fenceBuild name fresh crop mode tex sync target useFence queue
                        | env s r s' t Hprev IH Hrange Hrun
                        | env s s' t Hprev IH Hrun
                        | env s s' t Hprev IH Hrun
                        | name s s' t Hprev IH Hrun]; intros q Hdead Hqueue.
    + discriminate Hdead.
    + destruct (reachable_sound s Hprev) as [[_ [Hfull _]] _].
      destruct (updateTexImage_paths env s r s' t Hfull Hrange Hrun)
        as [Hd | Hlive Hchecks | Hlive Hchecks Hacq | r x h Hlive Hchecks Hacq Hout].
      * eauto.
      * eauto.
      * cbn in Hdead. congruence.
      * destruct Hout as [[_ [_ [_ [_ [Hd _]]]]] _]. congruence.
    + destruct (onBuffersReleased_cases env s s' t Hrun) as [->|[Hlive ->]].
      * eauto.
      * cbn in Hdead. congruence.
    + destruct (abandon_cases env s s' t Hrun) as [[-> _]|[Hlive ->]].
      * eauto.
      * discriminate Hqueue.
    + rewrite (setName_cases name s s' t Hrun) in *. eauto.
  - intros env Hrange.
    destruct (updateTexImage_wellFormed env s Hwf Hrange) as [r [s' [t [Hrun _]]]].
    eauto.
Qed.

Lemma reachable_states_are_sound_witness :
  Forall imageHasBuffer (mEGLSlots Sample.oneFrame) /\
  fullTable Sample.oneFrame /\
  currentValid Sample.oneFrame /\
  currentHasBuffer Sample.oneFrame /\
  (mBufferQueue Sample.oneFrame = None <-> mAbandoned Sample.oneFrame = true) /\
  (forall env, queueInRange env ->
     exists r s' t, updateTexImage env Sample.oneFrame = Returned r s' t).
Proof.
  apply (reachable_states_are_sound Sample.oneFrame).
  apply (reachUpdate (Sample.good 0) Sample.fresh OK Sample.oneFrame
           (Scenario.traceAfter (Sample.good 0) Sample.fresh)).
  - apply reachConstruct.
  - intros _. reflexivity.
  - vm_compute. reflexivity.
Defined.

End Reachable.

(** ** Reclaiming slots *)

Section Reclaiming.

Lemma mask_test mask i :
  0 <= i < NUM_BUFFER_SLOTS ->
  (Z.land mask (Int.uint32 (Z.shiftl 1 i)) != 0) = Z.testbit mask i.
Proof.
  intros Hi. destruct (Z.testbit mask i) eqn:Hbit.
  - apply mask_test_bit; assumption.
  - unfold NUM_BUFFER_SLOTS in Hi.
    assert (Hpow : Int.uint32 (Z.shiftl 1 i) = 2 ^ i).
    { unfold Int.uint32. rewrite Z.shiftl_mul_pow2, Z.mul_1_l by lia.
      apply Z.mod_small. split; [apply Z.pow_nonneg; lia|].
      apply Z.pow_lt_mono_r; lia. }
    rewrite Hpow. apply neq_false_iff. apply Z.bits_inj'. intros n Hn.
    rewrite Z.land_spec, Z.bits_0.
    destruct (Z.eq_dec n i) as [->|Hne].
    + rewrite Hbit. reflexivity.
    + rewrite Z.pow2_bits_false by lia. apply andb_false_r.
Qed.

Lemma In_indices n i j : In j (indices n i) <-> i <= j < i + Z.of_nat n.
Proof.
  revert i. induction n as [|n IH]; intros i; cbn [indices In].
  - lia.
  - rewrite IH. lia.
Qed.

Lemma allSlots_inBounds j : In j allSlots <-> inBounds j = true.
Proof.
  unfold allSlots. rewrite In_indices, inBounds_iff.
  unfold NUM_BUFFER_SLOTS. lia.
Qed.

Lemma destroyedIn_cons st dpy slots j js :
  destroyedIn st dpy slots (j :: js)
  = (if mEglImage (slotAt st slots j) != EGL_NO_IMAGE_KHR
     then [EglDestroyImageKHR dpy (mEglImage (slotAt st slots j))]
     else [])
    ++ destroyedIn st dpy slots js.
Proof. reflexivity. Qed.

(** Only the slots asked about matter. *)
Lemma destroyedIn_agree st dpy slots slots' js :
  (forall j, In j js ->
     mEglImage (slotAt st slots' j) = mEglImage (slotAt st slots j)) ->
  destroyedIn st dpy slots' js = destroyedIn st dpy slots js.
Proof.
  induction js as [|j js IH]; intros Hsame; [reflexivity|].
  rewrite !destroyedIn_cons.
  rewrite IH by (intros k Hk; apply Hsame; right; exact Hk).
  rewrite (Hsame j) by (left; reflexivity).
  reflexivity.
Qed.

Lemma destroyedIn_update st dpy slots i f js :
  ~ In i js ->
  destroyedIn st dpy (updateSlot i f slots) js = destroyedIn st dpy slots js.
Proof.
  intros Hi. apply destroyedIn_agree. intros j Hj.
  rewrite slotAt_updateSlot_other; [reflexivity|].
  intros ->. contradiction.
Qed.

Lemma filter_destroy_freeTrace dpy img i :
  filter isDestroyImage (freeTrace dpy img i)
  = if img != EGL_NO_IMAGE_KHR then [EglDestroyImageKHR dpy img] else [].
Proof. unfold freeTrace. destruct (img != EGL_NO_IMAGE_KHR); reflexivity. Qed.

Lemma filter_queue_freeTrace dpy img i :
  filter isQueueCall (freeTrace dpy img i) = [].
Proof. unfold freeTrace. destruct (img != EGL_NO_IMAGE_KHR); reflexivity. Qed.

Lemma accesses_freeTrace dpy img i :
  inBounds i = true -> accessesInBounds (freeTrace dpy img i) = true.
Proof.
  intros Hi. unfold freeTrace, accessesInBounds.
  destruct (img != EGL_NO_IMAGE_KHR); cbn; rewrite Hi; reflexivity.
Qed.

Lemma accessesInBounds_app t u :
  accessesInBounds (t ++ u) = accessesInBounds t && accessesInBounds u.
Proof. apply forallb_app. Qed.

(** *** The loop of [onBuffersReleased] *)

Lemma release_loop_trace env mask n i s :
  forUpTo (R := unit) n i
    (fun i => when (Z.land mask (Int.uint32 (Z.shiftl 1 i)) != 0)
                (call (freeBufferLocked env i))) s
  = Next tt (set_mEGLSlots s (freeMasked mask n i (mEGLSlots s)))
      (freeMaskedTrace (stray env) (mEglDisplay s) mask n i (mEGLSlots s)).
Proof.
  revert i s. induction n as [|n IH]; intros i s.
  - destruct s; reflexivity.
  - cbn [forUpTo freeMasked freeMaskedTrace]. unfold bind at 1.
    destruct (Z.land mask (Int.uint32 (Z.shiftl 1 i)) != 0); cbn [when].
    + unfold call at 1. rewrite freeBufferLocked_spec, IH. reflexivity.
    + unfold ret at 1. rewrite IH. reflexivity.
Qed.

Lemma onBuffersReleased_trace env s q :
  mAbandoned s = false ->
  mBufferQueue s = Some q ->
  onBuffersReleased env s
  = Returned tt
      (set_mCurrentTexture
         (set_mEGLSlots s
            (freeMasked (getReleasedBuffers env) (Z.to_nat NUM_BUFFER_SLOTS) 0
               (mEGLSlots s)))
         INVALID_BUFFER_SLOT)
      (GetReleasedBuffers
       :: freeMaskedTrace (stray env) (mEglDisplay s) (getReleasedBuffers env)
            (Z.to_nat NUM_BUFFER_SLOTS) 0 (mEGLSlots s)).
Proof.
  intros Hlive Hq. unfold onBuffersReleased, function.
  rewrite bind_get, Hlive. cbn [when].
  rewrite bind_ret, (bind_queueCall_some _ _ _ q Hq).
  unfold bind at 1. rewrite release_loop_trace.
  unfold modify. cbn [prefixed]. rewrite app_nil_r. reflexivity.
Qed.

Lemma freeMasked_kept st mask n i slots j :
  0 <= i -> i + Z.of_nat n <= NUM_BUFFER_SLOTS ->
  Z.testbit mask j = false ->
  slotAt st (freeMasked mask n i slots) j = slotAt st slots j.
Proof.
  revert i slots. induction n as [|n IH]; intros i slots Hi Hn Hbit;
    [reflexivity|].
  cbn [freeMasked]. rewrite IH by first [lia | exact Hbit].
  rewrite mask_test by lia.
  destruct (Z.testbit mask i) eqn:Hb; [|reflexivity].
  apply slotAt_updateSlot_other. intros ->. congruence.
Qed.

Lemma freeMasked_fence st mask n i slots j :
  mFence (slotAt st (freeMasked mask n i slots) j) = mFence (slotAt st slots j).
Proof.
  revert i slots. induction n as [|n IH]; intros i slots; [reflexivity|].
  cbn [freeMasked]. rewrite IH.
  destruct (_ != 0); [|reflexivity].
  apply (slotAt_updateSlot_field mFence). reflexivity.
Qed.

Lemma freeMaskedTrace_destroys st dpy mask n i slots :
  0 <= i -> i + Z.of_nat n <= NUM_BUFFER_SLOTS ->
  filter isDestroyImage (freeMaskedTrace st dpy mask n i slots)
  = destroyedIn st dpy slots (filter (Z.testbit mask) (indices n i)).
Proof.
  revert i slots. induction n as [|n IH]; intros i slots Hi Hn; [reflexivity|].
  cbn [freeMaskedTrace indices filter]. rewrite mask_test by lia.
  destruct (Z.testbit mask i).
  - rewrite filter_app, filter_destroy_freeTrace, IH, destroyedIn_cons by lia.
    rewrite destroyedIn_update; [reflexivity|].
    rewrite filter_In, In_indices. lia.
  - apply IH; lia.
Qed.

Lemma freeMaskedTrace_queue st dpy mask n i slots :
  filter isQueueCall (freeMaskedTrace st dpy mask n i slots) = [].
Proof.
  revert i slots. induction n as [|n IH]; intros i slots; [reflexivity|].
  cbn [freeMaskedTrace]. destruct (_ != 0); [|apply IH].
  rewrite filter_app, filter_queue_freeTrace, IH. reflexivity.
Qed.

Lemma freeMaskedTrace_accesses st dpy mask n i slots :
  0 <= i -> i + Z.of_nat n <= NUM_BUFFER_SLOTS ->
  accessesInBounds (freeMaskedTrace st dpy mask n i slots) = true.
Proof.
  revert i slots. induction n as [|n IH]; intros i slots Hi Hn; [reflexivity|].
  cbn [freeMaskedTrace]. destruct (_ != 0); [|apply IH; lia].
  rewrite accessesInBounds_app, IH by lia.
  rewrite accesses_freeTrace by (apply inBounds_iff; lia).
  reflexivity.
Qed.

(** *** The loop of [abandon] *)

Lemma abandon_loop_trace env n i s :
  forUpTo (R := unit) n i (fun i => call (freeBufferLocked env i)) s
  = Next tt (set_mEGLSlots s (freeRange n i (mEGLSlots s)))
      (freeRangeTrace (stray env) (mEglDisplay s) n i (mEGLSlots s)).
Proof.
  revert i s. induction n as [|n IH]; intros i s.
  - destruct s; reflexivity.
  - cbn [forUpTo freeRange freeRangeTrace]. unfold bind at 1, call at 1.
    rewrite freeBufferLocked_spec, IH. reflexivity.
Qed.

Lemma abandon_trace env s q :
  mAbandoned s = false ->
  mBufferQueue s = Some q ->
  abandon env s
  = Returned tt
      (set_mBufferQueue
         (set_mEGLSlots
            (set_mCurrentTextureBuf (set_mAbandoned s true) None)
            (freeRange (Z.to_nat NUM_BUFFER_SLOTS) 0 (mEGLSlots s)))
         None)
      (freeRangeTrace (stray env) (mEglDisplay s) (Z.to_nat NUM_BUFFER_SLOTS) 0
         (mEGLSlots s)
       ++ [ConsumerDisconnect]).
Proof.
  intros Hlive Hq. unfold abandon, function.
  rewrite bind_get, Hlive. cbn [negb when].
  rewrite bind_modify, bind_modify.
  unfold bind at 1. rewrite abandon_loop_trace.
  cbn [prefixed].
  rewrite (bind_queueCall_some _ _ _ q) by exact Hq.
  unfold modify. cbn [prefixed app]. reflexivity.
Qed.

Lemma freeRange_below st n i slots j :
  j < i -> slotAt st (freeRange n i slots) j = slotAt st slots j.
Proof.
  revert i slots. induction n as [|n IH]; intros i slots Hj; [reflexivity|].
  cbn [freeRange]. rewrite IH by lia.
  apply slotAt_updateSlot_other. lia.
Qed.

Lemma freeRange_freed st n i slots j :
  0 <= i -> i <= j < i + Z.of_nat n ->
  j < NUM_BUFFER_SLOTS ->
  (Z.to_nat j < List.length slots)%nat ->
  slotAt st (freeRange n i slots) j = freeSlot (slotAt st slots j).
Proof.
  revert i slots. induction n as [|n IH]; intros i slots Hi Hj Hnum Hl; [lia|].
  cbn [freeRange].
  destruct (Z.eq_dec j i) as [->|Hne].
  - rewrite freeRange_below by lia.
    apply slotAt_updateSlot_same; [apply inBounds_iff; lia | exact Hl].
  - rewrite IH; try lia.
    + rewrite slotAt_updateSlot_other by lia. reflexivity.
    + rewrite updateSlot_length. exact Hl.
Qed.

Lemma freeRange_fence st n i slots j :
  mFence (slotAt st (freeRange n i slots) j) = mFence (slotAt st slots j).
Proof.
  revert i slots. induction n as [|n IH]; intros i slots; [reflexivity|].
  cbn [freeRange]. rewrite IH.
  apply (slotAt_updateSlot_field mFence). reflexivity.
Qed.

Lemma freeRangeTrace_destroys st dpy n i slots :
  filter isDestroyImage (freeRangeTrace st dpy n i slots)
  = destroyedIn st dpy slots (indices n i).
Proof.
  revert i slots. induction n as [|n IH]; intros i slots; [reflexivity|].
  cbn [freeRangeTrace indices].
  rewrite filter_app, filter_destroy_freeTrace, IH, destroyedIn_cons.
  rewrite destroyedIn_update; [reflexivity|].
  rewrite In_indices. lia.
Qed.

Lemma freeRangeTrace_queue st dpy n i slots :
  filter isQueueCall (freeRangeTrace st dpy n i slots) = [].
Proof.
  revert i slots. induction n as [|n IH]; intros i slots; [reflexivity|].
  cbn [freeRangeTrace].
  rewrite filter_app, filter_queue_freeTrace, IH. reflexivity.
Qed.

Lemma freeRangeTrace_accesses st dpy n i slots :
  0 <= i -> i + Z.of_nat n <= NUM_BUFFER_SLOTS ->
  accessesInBounds (freeRangeTrace st dpy n i slots) = true.
Proof.
  revert i slots. induction n as [|n IH]; intros i slots Hi Hn; [reflexivity|].
  cbn [freeRangeTrace].
  rewrite accessesInBounds_app, IH by lia.
  rewrite accesses_freeTrace by (apply inBounds_iff; lia).
  reflexivity.
Qed.

End Reclaiming.

Section ReclaimingProperties.

Lemma whole_table : 0 + Z.of_nat (Z.to_nat NUM_BUFFER_SLOTS) <= NUM_BUFFER_SLOTS.
Proof. unfold NUM_BUFFER_SLOTS. lia. Qed.

(** The fields of the state [onBuffersReleased] leaves, for any table. *)
Lemma released_fields s slots' s' :
  set_mCurrentTexture (set_mEGLSlots s slots') INVALID_BUFFER_SLOT = s' ->
  mEGLSlots s' = slots' /\ sameSetup s s' /\ sameBinding s s'.
Proof. intros <-. split; [reflexivity|]. split; repeat split. Qed.

(** The fields of the state the first [abandon] leaves, for any table. *)
Lemma abandoned_fields s slots' s' :
  set_mBufferQueue
    (set_mEGLSlots (set_mCurrentTextureBuf (set_mAbandoned s true) None) slots')
    None = s' ->
  mEGLSlots s' = slots' /\
  mAbandoned s' = true /\
  mBufferQueue s' = None /\
  mCurrentTextureBuf s' = None /\
  mCurrentTexture s' = mCurrentTexture s /\
  sameFrameData s s' /\
  sameBinding s s'.
Proof. intros <-. repeat split. Qed.

Lemma filter_skip (p : Event -> bool) e (t : Trace) :
  p e = false -> filter p (e :: t) = filter p t.
Proof. intros H. cbn [filter]. rewrite H. reflexivity. Qed.

Lemma filter_keep (p : Event -> bool) e (t : Trace) :
  p e = true -> filter p (e :: t) = e :: filter p t.
Proof. intros H. cbn [filter]. rewrite H. reflexivity. Qed.

Lemma filter_skip_last (p : Event -> bool) e (t : Trace) :
  p e = false -> filter p (t ++ [e]) = filter p t.
Proof.
  intros H. rewrite filter_app. cbn [filter]. rewrite H. apply app_nil_r.
Qed.

Lemma accesses_skip e (t : Trace) :
  slotAccess e = None -> accessesInBounds (e :: t) = accessesInBounds t.
Proof. intros H. unfold accessesInBounds. cbn [forallb]. rewrite H. reflexivity. Qed.

Lemma accesses_skip_last e (t : Trace) :
  slotAccess e = None -> accessesInBounds (t ++ [e]) = accessesInBounds t.
Proof.
  intros H. rewrite accessesInBounds_app, (accesses_skip e []) by exact H.
  apply andb_true_r.
Qed.


(** What a call of [onBuffersReleased] on a live instance leaves. *)
Lemma onBuffersReleased_outcome env s q s' t :
  mAbandoned s = false ->
  mBufferQueue s = Some q ->
  onBuffersReleased env s = Returned tt s' t ->
  (forall j, Z.testbit (getReleasedBuffers env) j = false ->
     slotAt (stray env) (mEGLSlots s') j = slotAt (stray env) (mEGLSlots s) j) /\
  fencesKept env s s' /\
  sameSetup s s' /\
  sameBinding s s' /\
  filter isDestroyImage t = destroyed env s (reclaimed (getReleasedBuffers env)) /\
  filter isQueueCall t = [GetReleasedBuffers] /\
  accessesInBounds t = true.
Proof.
  intros Hlive Hq Hrun.
  rewrite (onBuffersReleased_trace env s q Hlive Hq) in Hrun.
  apply Returned_inj in Hrun as [_ [Hs Ht]].
  apply released_fields in Hs as [Htab [Hsetup Hbind]].
  split; [|split; [|split; [|split; [|split; [|split]]]]].
  - intros j Hbit. rewrite Htab.
    apply freeMasked_kept; [lia | apply whole_table | exact Hbit].
  - intros j. unfold sameFence. rewrite Htab. apply freeMasked_fence.
  - exact Hsetup.
  - exact Hbind.
  - rewrite <- Ht, filter_skip by reflexivity.
    apply freeMaskedTrace_destroys; [lia | apply whole_table].
  - rewrite <- Ht, filter_keep, freeMaskedTrace_queue by reflexivity.
    reflexivity.
  - rewrite <- Ht, accesses_skip by reflexivity.
    apply freeMaskedTrace_accesses; [lia | apply whole_table].
Qed.

(** X11.  [onBuffersReleased] frees the slots the queue reports and nothing
    else: a slot whose bit is clear in the mask keeps its native buffer, its
    GPU image and its fence; no fence of the table changes; texture name and
    target, fence mode, name, abandoned flag, queue and the latched display
    and context are not written; one image is destroyed for each reported
    slot that holds one, in slot order and on the latched display; the queue
    is called once, for the mask; and no slot access is out of bounds. *)
Theorem onBuffersReleased_frees_only_reclaimed env s :
  mAbandoned s = false ->
  attached s ->
  fullTable s ->
  exists s' t,
    onBuffersReleased env s = Returned tt s' t /\
    (forall j, Z.testbit (getReleasedBuffers env) j = false ->
       slotAt (stray env) (mEGLSlots s') j = slotAt (stray env) (mEGLSlots s) j) /\
    fencesKept env s s' /\
    sameSetup s s' /\
    sameBinding s s' /\
    filter isDestroyImage t = destroyed env s (reclaimed (getReleasedBuffers env)) /\
    filter isQueueCall t = [GetReleasedBuffers] /\
    accessesInBounds t = true.
Proof.
  intros Hlive Hatt Hfull.
  destruct (mBufferQueue s) as [q|] eqn:Hq; [|exfalso; apply (Hatt Hlive Hq)].
  eexists. eexists.
  split; [apply (onBuffersReleased_trace env s q Hlive Hq)|].
  apply (onBuffersReleased_outcome env s q _ _ Hlive Hq
           (onBuffersReleased_trace env s q Hlive Hq)).
Qed.

Lemma onBuffersReleased_frees_only_reclaimed_witness :
  exists s' t,
    onBuffersReleased (Sample.released 5) Sample.threeFrames = Returned tt s' t /\
    (forall j, Z.testbit (getReleasedBuffers (Sample.released 5)) j = false ->
       slotAt (stray (Sample.released 5)) (mEGLSlots s') j
       = slotAt (stray (Sample.released 5)) (mEGLSlots Sample.threeFrames) j) /\
    fencesKept (Sample.released 5) Sample.threeFrames s' /\
    sameSetup Sample.threeFrames s' /\
    sameBinding Sample.threeFrames s' /\
    filter isDestroyImage t
    = destroyed (Sample.released 5) Sample.threeFrames
        (reclaimed (getReleasedBuffers (Sample.released 5))) /\
    filter isQueueCall t = [GetReleasedBuffers] /\
    accessesInBounds t = true.
Proof.
  apply (onBuffersReleased_frees_only_reclaimed (Sample.released 5)
           Sample.threeFrames).
  - reflexivity.
  - vm_compute. discriminate.
  - reflexivity.
Defined.

(** What the first [abandon] of an instance leaves. *)
Lemma abandon_outcome env s q s' t :
  mAbandoned s = false ->
  mBufferQueue s = Some q ->
  fullTable s ->
  abandon env s = Returned tt s' t ->
  mAbandoned s' = true /\
  mBufferQueue s' = None /\
  mCurrentTextureBuf s' = None /\
  (forall j, inBounds j = true ->
     slotGraphicBuffer (slotAt (stray env) (mEGLSlots s') j) = None /\
     mEglImage (slotAt (stray env) (mEGLSlots s') j) = EGL_NO_IMAGE_KHR) /\
  fencesKept env s s' /\
  mCurrentTexture s' = mCurrentTexture s /\
  sameFrameData s s' /\
  sameBinding s s' /\
  filter isDestroyImage t = destroyed env s allSlots /\
  (exists t0, t = t0 ++ [ConsumerDisconnect] /\ filter isQueueCall t0 = []) /\
  accessesInBounds t = true.
Proof.
  intros Hlive Hq Hfull Hrun.
  rewrite (abandon_trace env s q Hlive Hq) in Hrun.
  apply Returned_inj in Hrun as [_ [Hs Ht]].
  apply abandoned_fields in Hs as [Htab [Hdead [Hnoq [Hnobuf [Hcur [Hdata Hbind]]]]]].
  repeat (split; [assumption|]).
  split; [|split; [|split; [|split; [|split; [|split; [|split]]]]]];
    try assumption.
  - intros j Hj. rewrite Htab.
    pose proof (proj1 (inBounds_iff j) Hj) as Hr.
    rewrite freeRange_freed; try (unfold NUM_BUFFER_SLOTS in *; lia).
    + split; reflexivity.
    + rewrite Hfull. unfold NUM_BUFFER_SLOTS in *. lia.
  - intros j. unfold sameFence. rewrite Htab. apply freeRange_fence.
  - rewrite <- Ht, filter_skip_last by reflexivity.
    apply freeRangeTrace_destroys.
  - eexists. split; [symmetry; exact Ht|]. apply freeRangeTrace_queue.
  - rewrite <- Ht, accesses_skip_last by reflexivity.
    apply freeRangeTrace_accesses; [lia | apply whole_table].
Qed.

(** X12.  The first [abandon] of an instance frees every slot of the table:
    afterwards the instance is abandoned, the queue reference and the
    current buffer are null, no slot has a native buffer or a GPU image, and
    every fence is the one from before; the current slot, crop, transform
    flags, scaling mode, timestamp and matrix, and the latched display and
    context, stay as they were.  One image is destroyed for each slot that
    held one, in slot order and on the latched display; the queue is called
    once, to disconnect, as the last thing; no slot access is out of
    bounds. *)
Theorem abandon_frees_every_slot env s :
  mAbandoned s = false ->
  attached s ->
  fullTable s ->
  exists s' t,
    abandon env s = Returned tt s' t /\
    mAbandoned s' = true /\
    mBufferQueue s' = None /\
    mCurrentTextureBuf s' = None /\
    (forall j, inBounds j = true ->
       slotGraphicBuffer (slotAt (stray env) (mEGLSlots s') j) = None /\
       mEglImage (slotAt (stray env) (mEGLSlots s') j) = EGL_NO_IMAGE_KHR) /\
    fencesKept env s s' /\
    mCurrentTexture s' = mCurrentTexture s /\
    sameFrameData s s' /\
    sameBinding s s' /\
    filter isDestroyImage t = destroyed env s allSlots /\
    (exists t0, t = t0 ++ [ConsumerDisconnect] /\ filter isQueueCall t0 = []) /\
    accessesInBounds t = true.
Proof.
  intros Hlive Hatt Hfull.
  destruct (mBufferQueue s) as [q|] eqn:Hq; [|exfalso; apply (Hatt Hlive Hq)].
  eexists. eexists.
  split; [apply (abandon_trace env s q Hlive Hq)|].
  apply (abandon_outcome env s q _ _ Hlive Hq Hfull
           (abandon_trace env s q Hlive Hq)).
Qed.

Lemma abandon_frees_every_slot_witness :
  exists s' t,
    abandon (Sample.good 0) Sample.threeFrames = Returned tt s' t /\
    mAbandoned s' = true /\
    mBufferQueue s' = None /\
    mCurrentTextureBuf s' = None /\
    (forall j, inBounds j = true ->
       slotGraphicBuffer (slotAt (stray (Sample.good 0)) (mEGLSlots s') j) = None /\
       mEglImage (slotAt (stray (Sample.good 0)) (mEGLSlots s') j)
       = EGL_NO_IMAGE_KHR) /\
    fencesKept (Sample.good 0) Sample.threeFrames s' /\
    mCurrentTexture s' = mCurrentTexture Sample.threeFrames /\
    sameFrameData Sample.threeFrames s' /\
    sameBinding Sample.threeFrames s' /\
    filter isDestroyImage t = destroyed (Sample.good 0) Sample.threeFrames allSlots /\
    (exists t0, t = t0 ++ [ConsumerDisconnect] /\ filter isQueueCall t0 = []) /\
    accessesInBounds t = true.
Proof.
  apply (abandon_frees_every_slot (Sample.good 0) Sample.threeFrames).
  - reflexivity.
  - vm_compute. discriminate.
  - reflexivity.
Defined.

(** After the loop of [onBuffersReleased], the images left are those of the
    slots the mask did not report. *)
Lemma destroyedIn_rest st dpy mask slots slots' js :
  (forall j, In j js -> Z.testbit mask j = true ->
     mEglImage (slotAt st slots' j) = EGL_NO_IMAGE_KHR) ->
  (forall j, In j js -> Z.testbit mask j = false ->
     slotAt st slots' j = slotAt st slots j) ->
  destroyedIn st dpy slots' js
  = destroyedIn st dpy slots (filter (fun j => negb (Z.testbit mask j)) js).
Proof.
  intros Hfreed Hkept. induction js as [|j js IH]; [reflexivity|].
  rewrite destroyedIn_cons.
  rewrite IH by (intros k Hk; first [apply Hfreed | apply Hkept]; right; exact Hk).
  cbn [filter]. destruct (Z.testbit mask j) eqn:Hbit; cbn [negb].
  - rewrite Hfreed by (first [left; reflexivity | exact Hbit]). reflexivity.
  - rewrite destroyedIn_cons, Hkept by (first [left; reflexivity | exact Hbit]).
    reflexivity.
Qed.

(** X13.  No image is destroyed twice: when [abandon] follows
    [onBuffersReleased], the callback destroys the images of the slots the
    mask reports and [abandon] destroys the images of the other slots, and
    only those. *)
Theorem release_then_abandon_destroys_once env s s1 t1 s2 t2 :
  mAbandoned s = false ->
  attached s ->
  fullTable s ->
  onBuffersReleased env s = Returned tt s1 t1 ->
  abandon env s1 = Returned tt s2 t2 ->
  filter isDestroyImage t1
  = destroyed env s (reclaimed (getReleasedBuffers env)) /\
  filter isDestroyImage t2
  = destroyed env s (notReclaimed (getReleasedBuffers env)).
Proof.
  intros Hlive Hatt Hfull Hrel Hab.
  destruct (mBufferQueue s) as [q|] eqn:Hq; [|exfalso; apply (Hatt Hlive Hq)].
  pose proof (onBuffersReleased_outcome env s q s1 t1 Hlive Hq Hrel)
    as [_ [_ [Hsetup [Hbind [Hdes1 _]]]]].
  split; [exact Hdes1|].
  rewrite (onBuffersReleased_trace env s q Hlive Hq) in Hrel.
  apply Returned_inj in Hrel as [_ [Hs1 _]].
  apply released_fields in Hs1 as [Htab _].
  destruct Hsetup as [_ [_ [_ [_ [Hlive1 Hq1]]]]].
  rewrite Hlive in Hlive1. rewrite Hq in Hq1.
  assert (Hfull1 : fullTable s1).
  { unfold fullTable. rewrite Htab, freeMasked_length. exact Hfull. }
  pose proof (abandon_outcome env s1 q s2 t2 Hlive1 Hq1 Hfull1 Hab)
    as [_ [_ [_ [_ [_ [_ [_ [_ [Hdes2 _]]]]]]]]].
  rewrite Hdes2. unfold destroyed, notReclaimed.
  destruct Hbind as [Hdpy _]. rewrite Hdpy, Htab.
  apply destroyedIn_rest.
  - intros j Hj Hbit. apply allSlots_inBounds, inBounds_iff in Hj.
    rewrite (freeMasked_reclaimed (stray env));
      try (unfold NUM_BUFFER_SLOTS in *; lia); [reflexivity | | exact Hbit].
    rewrite Hfull. unfold NUM_BUFFER_SLOTS in *. lia.
  - intros j _ Hbit.
    apply freeMasked_kept; [lia | apply whole_table | exact Hbit].
Qed.

Lemma release_then_abandon_destroys_once_witness :
  filter isDestroyImage
    (traceOf (onBuffersReleased (Sample.released 5) Sample.threeFrames))
  = destroyed (Sample.released 5) Sample.threeFrames
      (reclaimed (getReleasedBuffers (Sample.released 5))) /\
  filter isDestroyImage
    (traceOf (abandon (Sample.released 5)
                (Sample.after
                   (onBuffersReleased (Sample.released 5) Sample.threeFrames)
                   Sample.threeFrames)))
  = destroyed (Sample.released 5) Sample.threeFrames
      (notReclaimed (getReleasedBuffers (Sample.released 5))).
Proof.
  apply (release_then_abandon_destroys_once (Sample.released 5)
           Sample.threeFrames
           (Sample.after
              (onBuffersReleased (Sample.released 5) Sample.threeFrames)
              Sample.threeFrames)
           (traceOf (onBuffersReleased (Sample.released 5) Sample.threeFrames))
           (Sample.after
              (abandon (Sample.released 5)
                 (Sample.after
                    (onBuffersReleased (Sample.released 5) Sample.threeFrames)
                    Sample.threeFrames))
              Sample.threeFrames)).
  - reflexivity.
  - vm_compute. discriminate.
  - reflexivity.
  - vm_compute. reflexivity.
  - vm_compute. reflexivity.
Defined.

End ReclaimingProperties.

(** ** The composer on an empty crop *)

Section ExactComposition.

Import Mtx.

Lemma hasFlag_low (transform bit : Z) :
  Z.land 7 bit = bit ->
  hasFlag (Z.land transform 7) bit = hasFlag transform bit.
Proof.
  intros H. unfold hasFlag. rewrite <- Z.land_assoc, H. reflexivity.
Qed.

Lemma hasFlag_same_low (t u bit : Z) :
  Z.land 7 bit = bit ->
  Z.land t 7 = Z.land u 7 ->
  hasFlag t bit = hasFlag u bit.
Proof.
  intros Hbit H. rewrite <- (hasFlag_low t), <- (hasFlag_low u), H by exact Hbit.
  reflexivity.
Qed.

(** On an empty crop the composer needs no buffer, and the matrix is the
    one of the flags. *)
Lemma compose_empty_crop s :
  isEmpty (mCurrentCrop s) = true ->
  computeCurrentTransformMatrix s
  = Returned tt
      (set_mCurrentTransformMatrix s
         (mtxMul mtxFlipV
            (mtxMul (cropMatrix (F32.zero, F32.zero, F32.one, F32.one))
               (let xform := mtxIdentity in
                let xform :=
                  if hasFlag (mCurrentTransform s) NATIVE_WINDOW_TRANSFORM_FLIP_H
                  then mtxMul xform mtxFlipH else xform in
                let xform :=
                  if hasFlag (mCurrentTransform s) NATIVE_WINDOW_TRANSFORM_FLIP_V
                  then mtxMul xform mtxFlipV else xform in
                if hasFlag (mCurrentTransform s) NATIVE_WINDOW_TRANSFORM_ROT_90
                then mtxMul xform mtxRot90 else xform))))
      [].
Proof.
  intros Hempty. rewrite compute_spec. unfold composedMatrix.
  rewrite Hempty. reflexivity.
Qed.

(** X14.  On an empty crop the composer is exact and needs no buffer: for
    every value of the transform flags it returns, also with a null current
    buffer, and each of the sixteen binary32 entries it stores is exactly
    the entry of the product, over the rationals, of [FLIP_V], the unit crop
    matrix and the tables the flags select (horizontal flip, then vertical
    flip, then rotation by 90 degrees); no entry is rounded, infinite or not
    a number.  Only the three low bits of the flags matter: an instance with
    an empty crop and the same low bits gets the very same matrix. *)
Theorem empty_crop_matrix_is_exact s :
  isEmpty (mCurrentCrop s) = true ->
  exists m,
    computeCurrentTransformMatrix s
    = Returned tt (set_mCurrentTransformMatrix s m) [] /\
    Forall2 represents m
      (exactMul flipVExact
         (exactMul (cropExact 0 0 1 1) (exactFlags (mCurrentTransform s)))) /\
    (forall x,
       isEmpty (mCurrentCrop x) = true ->
       Z.land (mCurrentTransform x) 7 = Z.land (mCurrentTransform s) 7 ->
       computeCurrentTransformMatrix x
       = Returned tt (set_mCurrentTransformMatrix x m) []).
Proof.
  intros Hempty. eexists. split; [apply (compose_empty_crop s Hempty)|]. split.
  - unfold exactFlags.
    destruct (hasFlag (mCurrentTransform s) NATIVE_WINDOW_TRANSFORM_FLIP_H);
      destruct (hasFlag (mCurrentTransform s) NATIVE_WINDOW_TRANSFORM_FLIP_V);
      destruct (hasFlag (mCurrentTransform s) NATIVE_WINDOW_TRANSFORM_ROT_90);
      repeat (apply Forall2_cons; [vm_compute; reflexivity|]);
      apply Forall2_nil.
  - intros x Hx Hlow. rewrite (compose_empty_crop x Hx).
    rewrite (hasFlag_same_low (mCurrentTransform x) (mCurrentTransform s)
               NATIVE_WINDOW_TRANSFORM_FLIP_H eq_refl Hlow).
    rewrite (hasFlag_same_low (mCurrentTransform x) (mCurrentTransform s)
               NATIVE_WINDOW_TRANSFORM_FLIP_V eq_refl Hlow).
    rewrite (hasFlag_same_low (mCurrentTransform x) (mCurrentTransform s)
               NATIVE_WINDOW_TRANSFORM_ROT_90 eq_refl Hlow).
    reflexivity.
Qed.

Lemma empty_crop_matrix_is_exact_witness :
  exists m,
    computeCurrentTransformMatrix
      (set_mCurrentTransform (set_mCurrentCrop Sample.fresh (mkRect 0 0 0 0)) 5)
    = Returned tt
        (set_mCurrentTransformMatrix
           (set_mCurrentTransform (set_mCurrentCrop Sample.fresh (mkRect 0 0 0 0)) 5)
           m) [] /\
    Forall2 represents m
      (exactMul flipVExact
         (exactMul (cropExact 0 0 1 1)
            (exactFlags
               (mCurrentTransform
                  (set_mCurrentTransform
                     (set_mCurrentCrop Sample.fresh (mkRect 0 0 0 0)) 5))))) /\
    (forall x,
       isEmpty (mCurrentCrop x) = true ->
       Z.land (mCurrentTransform x) 7
       = Z.land (mCurrentTransform
                   (set_mCurrentTransform
                      (set_mCurrentCrop Sample.fresh (mkRect 0 0 0 0)) 5)) 7 ->
       computeCurrentTransformMatrix x
       = Returned tt (set_mCurrentTransformMatrix x m) []).
Proof.
  apply (empty_crop_matrix_is_exact
           (set_mCurrentTransform (set_mCurrentCrop Sample.fresh (mkRect 0 0 0 0)) 5)).
  reflexivity.
Defined.



End ExactComposition.
